(** * Admin console client: notification queue, session cache, API client

    A shallow embedding of three client-side modules of the admin console,
    and the properties stated about them:

    - [frontend/src/services/api.js]          (module [Api])
    - the session cache of [frontend/src/utils/helpers.js], which the
      pages import as [utils/sessionCache]   (module [SessionCache])
    - [frontend/src/context/ToastContext.jsx] (module [ToastContext])

    and of the code around them: the helpers of [utils/helpers.js]
    (module [Helpers]), the notifications on screen of
    [components/UI/ToastContainer.jsx] (module [ToastContainer]), the
    handlers of the communication page, the knowledge base page and the
    user settings (modules [CommunicationPage], [KnowledgeBasePage],
    [UserSettings]) and the modals of the application context (module
    [AppContext]).

    JavaScript values, strings and the JSON built-ins the code relies on are
    modelled in [Js] and [JSON]; browser storage, dispatched window events,
    network calls and timers are explicit: every function that touches them
    is a state-passing computation that also returns the effects it
    performed, in order. *)

From Stdlib Require Import ZArith String Ascii List Bool Decimal DecimalString DecimalZ Lia.
From stdpp Require Import base option list gmap strings.

Set Warnings "-register-all".

Local Open Scope string_scope.
Local Open Scope Z_scope.
Local Open Scope list_scope.

(* ===================================================================== *)
(** * JavaScript values                                                   *)
(* ===================================================================== *)

Module Js.

(** The values that JSON can carry.  Numbers are integers; strings are
    sequences of 8-bit code units.  An object is its list of own
    properties, in creation order, with pairwise distinct keys. *)
Inductive Json : Type :=
  | JNull
  | JBool (b : bool)
  | JNum (n : Z)
  | JStr (s : string)
  | JArr (xs : list Json)
  | JObj (props : list (string * Json)).

(** A JavaScript value is [undefined] or one of the above. *)
Inductive JsVal : Type :=
  | JsUndefined
  | JsJson (j : Json).

Coercion JsJson : Json >-> JsVal.

(** Objects that the code spreads and merges are finite maps from
    property names to values; a property may be present and hold
    [undefined]. *)
Abbreviation Obj := (gmap string JsVal).

(** [o.k]: the value of the property, [undefined] when it is missing. *)
Definition get (o : Obj) (k : string) : JsVal := default JsUndefined (o !! k).

(** [{ ...a, ...b }]: the properties of [b] override those of [a]. *)
Definition spread (a b : Obj) : Obj := b ∪ a.

(** ToBoolean. *)
Definition truthy (v : JsVal) : bool :=
  match v with
  | JsUndefined => false
  | JsJson JNull => false
  | JsJson (JBool b) => b
  | JsJson (JNum n) => negb (Z.eqb n 0)
  | JsJson (JStr s) => negb (String.eqb s "")
  | JsJson (JArr _) => true
  | JsJson (JObj _) => true
  end.

(** [a || b], for operands whose evaluation cannot throw. *)
Definition or_else (a b : JsVal) : JsVal := if truthy a then a else b.

(** [a === b].  Primitives are compared by value.  Arrays and objects are
    compared by identity in JavaScript; identities are not tracked here and
    two composite values are never [===]. *)
Definition strict_eq (a b : JsVal) : bool :=
  match a, b with
  | JsUndefined, JsUndefined => true
  | JsJson JNull, JsJson JNull => true
  | JsJson (JBool x), JsJson (JBool y) => Bool.eqb x y
  | JsJson (JNum x), JsJson (JNum y) => Z.eqb x y
  | JsJson (JStr x), JsJson (JStr y) => String.eqb x y
  | _, _ => false
  end.

(** ** Strings *)

(** [s.includes(needle)]. *)
Fixpoint includes (needle s : string) : bool :=
  String.prefix needle s ||
  match s with
  | EmptyString => false
  | String _ s' => includes needle s'
  end.

(** [toLowerCase] and [toUpperCase], one code unit: the letters A-Z and
    a-z change, every other code unit stays, which is what the runtime
    does on ASCII text. *)
Definition lower_char (c : ascii) : ascii :=
  let n := nat_of_ascii c in
  if Nat.leb 65 n && Nat.leb n 90 then ascii_of_nat (n + 32) else c.

Definition upper_char (c : ascii) : ascii :=
  let n := nat_of_ascii c in
  if Nat.leb 97 n && Nat.leb n 122 then ascii_of_nat (n - 32) else c.

Fixpoint map_string (f : ascii -> ascii) (s : string) : string :=
  match s with
  | EmptyString => EmptyString
  | String c s' => String (f c) (map_string f s')
  end.

(** [s.toLowerCase()] and [s.toUpperCase()] on the letters A-Z / a-z. *)
Definition toLowerCase : string -> string := map_string lower_char.
Definition toUpperCase : string -> string := map_string upper_char.

(** Decimal rendering of an integer, as in a template literal. *)
Definition string_of_Z (n : Z) : string := NilEmpty.string_of_int (Z.to_int n).

(** ToString. *)
Fixpoint json_to_string (j : Json) : string :=
  match j with
  | JNull => "null"
  | JBool true => "true"
  | JBool false => "false"
  | JNum n => string_of_Z n
  | JStr s => s
  | JArr xs =>
      String.concat ","
        (List.map (fun x => match x with JNull => "" | _ => json_to_string x end) xs)
  | JObj _ => "[object Object]"
  end.

Definition to_string (v : JsVal) : string :=
  match v with
  | JsUndefined => "undefined"
  | JsJson j => json_to_string j
  end.

(** ** Exceptions and effects *)

(** [class ApiError extends Error] of api.js: message, status, data. *)
Record ApiError : Type := mkApiError {
  message : string;
  status : Z;
  data : JsVal
}.

(** What a [throw] (or a rejected promise) carries: the typed API error or
    a native error such as [TypeError] and [SyntaxError]. *)
Inductive Thrown : Type :=
  | ThrownApiError (e : ApiError)
  | ThrownError (name msg : string).

Inductive Res (A : Type) : Type :=
  | Ok (a : A)
  | Throw (t : Thrown).
Arguments Ok {A} a.
Arguments Throw {A} t.

(** The body of an outgoing request. *)
Inductive Body : Type :=
  | NoBody
  | TextBody (text : string)
  | FormData (fields : list (string * string)).

Record Request : Type := mkRequest {
  req_url : string;
  req_method : string;
  req_headers : gmap string string;
  req_body : Body
}.

(** The observable effects.  [Invoke inner] is one invocation of a function
    that was passed in as an argument, with the effects of its body. *)
Inductive Effect : Type :=
  | DispatchEvent (name : string) (detail : JsVal)
  | Fetch (req : Request)
  | SetTimeout (lo hi : Z)
  | Invoke (inner : list Effect).

(** A computation over a mutable state [S]: its outcome, the state it
    leaves, and the effects it performed, oldest first. *)
Definition M (S A : Type) : Type := S -> Res A * S * list Effect.

Definition ret {S A} (a : A) : M S A := fun s => (Ok a, s, []).

Definition bind {S A B} (m : M S A) (k : A -> M S B) : M S B :=
  fun s =>
    match m s with
    | (Ok a, s1, e1) => let '(r, s2, e2) := k a s1 in (r, s2, e1 ++ e2)
    | (Throw t, s1, e1) => (Throw t, s1, e1)
    end.

Definition throw {S A} (t : Thrown) : M S A := fun s => (Throw t, s, []).
Definition emit {S} (e : Effect) : M S unit := fun s => (Ok tt, s, [e]).
Definition gets {S A} (f : S -> A) : M S A := fun s => (Ok (f s), s, []).
Definition modify {S} (f : S -> S) : M S unit := fun s => (Ok tt, f s, []).

(** [await f()] for a function [f] received as an argument. *)
Definition invoke {S A} (f : M S A) : M S A :=
  fun s => let '(r, s1, e) := f s in (r, s1, [Invoke e]).

(** The number of invocations recorded at the top level of a trace. *)
Definition invocations (es : list Effect) : nat :=
  List.length (List.filter (fun e => match e with Invoke _ => true | _ => false end) es).

End Js.

Export Js.

#[global] Instance M_ret {S} : MRet (Js.M S) := fun A a => Js.ret a.
#[global] Instance M_bind {S} : MBind (Js.M S) := fun A B k m => Js.bind m k.

Notation "'let!' x ':=' m 'in' k" := (Js.bind m (fun x => k))
  (at level 10, x name, m at level 200, k at level 200).

(* ===================================================================== *)
(** * The JSON built-ins                                                  *)
(* ===================================================================== *)

(** [JSON.stringify] and [JSON.parse] are built-ins of the runtime, not
    code of the repository; they are modelled on ECMA-262 for the values of
    [Json].  [stringify] emits the compact form (no white space);
    [parse] accepts white space between tokens and the escapes of the
    JSON grammar.  Numbers with a fraction or an exponent and [\u]
    escapes above 007f are outside the values of [Json]: [parse] answers
    [None] on a text that holds one, as it does on a text that is not
    JSON.  What [parse] reads, the runtime reads alike; that the runtime
    rejects a text is stated only of a text that begins with no JSON
    value. *)

Module JSON.

Definition chars (s : string) : list ascii := list_ascii_of_string s.

Definition dquote : ascii := "034"%char.
Definition backslash : ascii := "\"%char.

(** ** Serialisation *)

Definition hex_digit (n : nat) : ascii :=
  if Nat.ltb n 10 then ascii_of_nat (48 + n) else ascii_of_nat (87 + n).

(** QuoteJSONString, one code unit. *)
Definition quote_char (c : ascii) : list ascii :=
  let n := nat_of_ascii c in
  if Ascii.eqb c dquote then [backslash; dquote]
  else if Ascii.eqb c backslash then [backslash; backslash]
  else if Nat.eqb n 8 then [backslash; "b"%char]
  else if Nat.eqb n 12 then [backslash; "f"%char]
  else if Nat.eqb n 10 then [backslash; "n"%char]
  else if Nat.eqb n 13 then [backslash; "r"%char]
  else if Nat.eqb n 9 then [backslash; "t"%char]
  else if Nat.ltb n 32 then
    [backslash; "u"%char; "0"%char; "0"%char; hex_digit (n / 16); hex_digit (n mod 16)]
  else [c].

Fixpoint quote_chars (s : string) : list ascii :=
  match s with
  | EmptyString => []
  | String c s' => quote_char c ++ quote_chars s'
  end.

Definition print_string (s : string) : list ascii :=
  dquote :: quote_chars s ++ [dquote].

Fixpoint print_uint (d : uint) : list ascii :=
  match d with
  | Nil => []
  | D0 d => "0"%char :: print_uint d
  | D1 d => "1"%char :: print_uint d
  | D2 d => "2"%char :: print_uint d
  | D3 d => "3"%char :: print_uint d
  | D4 d => "4"%char :: print_uint d
  | D5 d => "5"%char :: print_uint d
  | D6 d => "6"%char :: print_uint d
  | D7 d => "7"%char :: print_uint d
  | D8 d => "8"%char :: print_uint d
  | D9 d => "9"%char :: print_uint d
  end.

Definition print_number (n : Z) : list ascii :=
  match Z.to_int n with
  | Pos d => print_uint d
  | Neg d => "-"%char :: print_uint d
  end.

Fixpoint print (j : Json) : list ascii :=
  match j with
  | JNull => chars "null"
  | JBool true => chars "true"
  | JBool false => chars "false"
  | JNum n => print_number n
  | JStr s => print_string s
  | JArr xs =>
      "["%char ::
      (fix elements (l : list Json) : list ascii :=
         match l with
         | [] => []
         | x :: l' =>
             print x ++ match l' with [] => [] | _ :: _ => ","%char :: elements l' end
         end) xs ++ ["]"%char]
  | JObj ms =>
      "{"%char ::
      (fix members (l : list (string * Json)) : list ascii :=
         match l with
         | [] => []
         | (k, v) :: l' =>
             print_string k ++ ":"%char :: print v ++
             match l' with [] => [] | _ :: _ => ","%char :: members l' end
         end) ms ++ ["}"%char]
  end.

(** [JSON.stringify(v)]: a string, or [undefined] when [v] is. *)
Definition stringify (v : JsVal) : option string :=
  match v with
  | JsUndefined => None
  | JsJson j => Some (string_of_list_ascii (print j))
  end.

(** ** Parsing *)

Definition is_ws (c : ascii) : bool :=
  let n := nat_of_ascii c in
  Nat.eqb n 32 || Nat.eqb n 9 || Nat.eqb n 10 || Nat.eqb n 13.

Fixpoint skip_ws (l : list ascii) : list ascii :=
  match l with
  | [] => []
  | c :: r => if is_ws c then skip_ws r else l
  end.

(** [strip p l]: what follows the prefix [p] of [l]. *)
Fixpoint strip (p l : list ascii) : option (list ascii) :=
  match p, l with
  | [], _ => Some l
  | a :: p', b :: l' => if Ascii.eqb a b then strip p' l' else None
  | _ :: _, [] => None
  end.

Definition digit (c : ascii) : option (uint -> uint) :=
  match Nat.sub (nat_of_ascii c) 48, Nat.leb 48 (nat_of_ascii c) with
  | 0%nat, true => Some D0
  | 1%nat, _ => Some D1
  | 2%nat, _ => Some D2
  | 3%nat, _ => Some D3
  | 4%nat, _ => Some D4
  | 5%nat, _ => Some D5
  | 6%nat, _ => Some D6
  | 7%nat, _ => Some D7
  | 8%nat, _ => Some D8
  | 9%nat, _ => Some D9
  | _, _ => None
  end.

(** The longest run of decimal digits at the head of [l]. *)
Fixpoint read_digits (l : list ascii) : uint * list ascii :=
  match l with
  | [] => (Nil, [])
  | c :: r =>
      match digit c with
      | Some d => let '(u, r') := read_digits r in (d u, r')
      | None => (Nil, l)
      end
  end.

(** [-]? ( 0 | [1-9][0-9]* ) *)
Definition parse_number (l : list ascii) : option (Z * list ascii) :=
  let '(neg, l1) :=
    match l with
    | c :: r => if Ascii.eqb c "-"%char then (true, r) else (false, l)
    | [] => (false, l)
    end in
  match read_digits l1 with
  | (Nil, _) => None
  | (D0 Nil, r) => Some (0, r)
  | (D0 _, _) => None
  | (u, r) => Some (Z.of_int (if neg then Neg u else Pos u), r)
  end.

Definition hex_val (c : ascii) : option nat :=
  let n := nat_of_ascii c in
  if Nat.leb 48 n && Nat.leb n 57 then Some (n - 48)%nat
  else if Nat.leb 97 n && Nat.leb n 102 then Some (n - 87)%nat
  else if Nat.leb 65 n && Nat.leb n 70 then Some (n - 55)%nat
  else None.

Definition unescape (e : ascii) : option ascii :=
  if Ascii.eqb e dquote then Some dquote
  else if Ascii.eqb e backslash then Some backslash
  else if Ascii.eqb e "/"%char then Some "/"%char
  else if Ascii.eqb e "b"%char then Some (ascii_of_nat 8)
  else if Ascii.eqb e "f"%char then Some (ascii_of_nat 12)
  else if Ascii.eqb e "n"%char then Some (ascii_of_nat 10)
  else if Ascii.eqb e "r"%char then Some (ascii_of_nat 13)
  else if Ascii.eqb e "t"%char then Some (ascii_of_nat 9)
  else None.

Definition unicode (h1 h2 h3 h4 : ascii) : option ascii :=
  match hex_val h1, hex_val h2, hex_val h3, hex_val h4 with
  | Some a, Some b, Some c, Some d =>
      let code := (4096 * a + 256 * b + 16 * c + d)%nat in
      if Nat.ltb code 128 then Some (ascii_of_nat code) else None
  | _, _, _, _ => None
  end.

Definition push (c : ascii) (r : option (string * list ascii)) :
  option (string * list ascii) :=
  match r with
  | Some (s, rest) => Some (String c s, rest)
  | None => None
  end.

(** The characters of a string up to its closing quote. *)
Fixpoint parse_string_body (l : list ascii) : option (string * list ascii) :=
  match l with
  | [] => None
  | c :: r =>
      if Ascii.eqb c dquote then Some (EmptyString, r)
      else if Ascii.eqb c backslash then
        match r with
        | [] => None
        | e :: r1 =>
            if Ascii.eqb e "u"%char then
              match r1 with
              | h1 :: h2 :: h3 :: h4 :: r2 =>
                  match unicode h1 h2 h3 h4 with
                  | Some a => push a (parse_string_body r2)
                  | None => None
                  end
              | _ => None
              end
            else
              match unescape e with
              | Some a => push a (parse_string_body r1)
              | None => None
              end
        end
      else if Nat.ltb (nat_of_ascii c) 32 then None
      else push c (parse_string_body r)
  end.

(** A repeated key keeps its first position and takes its last value. *)
Definition add_member (k : string) (v : Json) (ms : list (string * Json)) :
  list (string * Json) :=
  match List.find (fun kv => String.eqb (fst kv) k) ms with
  | Some (_, v') => (k, v') :: List.filter (fun kv => negb (String.eqb (fst kv) k)) ms
  | None => (k, v) :: ms
  end.

Fixpoint parse_value (fuel : nat) (l : list ascii) : option (Json * list ascii) :=
  match fuel with
  | O => None
  | S fuel' =>
      match skip_ws l with
      | [] => None
      | c :: r =>
          if Ascii.eqb c "n"%char then
            match strip (chars "ull") r with Some r' => Some (JNull, r') | None => None end
          else if Ascii.eqb c "t"%char then
            match strip (chars "rue") r with Some r' => Some (JBool true, r') | None => None end
          else if Ascii.eqb c "f"%char then
            match strip (chars "alse") r with Some r' => Some (JBool false, r') | None => None end
          else if Ascii.eqb c dquote then
            match parse_string_body r with
            | Some (s, r') => Some (JStr s, r')
            | None => None
            end
          else if Ascii.eqb c "["%char then
            match skip_ws r with
            | [] => None
            | c' :: r' =>
                if Ascii.eqb c' "]"%char then Some (JArr [], r')
                else
                  match parse_elements fuel' (c' :: r') with
                  | Some (xs, r'') => Some (JArr xs, r'')
                  | None => None
                  end
            end
          else if Ascii.eqb c "{"%char then
            match skip_ws r with
            | [] => None
            | c' :: r' =>
                if Ascii.eqb c' "}"%char then Some (JObj [], r')
                else
                  match parse_members fuel' (c' :: r') with
                  | Some (ms, r'') => Some (JObj ms, r'')
                  | None => None
                  end
            end
          else
            match parse_number (c :: r) with
            | Some (n, r') => Some (JNum n, r')
            | None => None
            end
      end
  end
with parse_elements (fuel : nat) (l : list ascii) : option (list Json * list ascii) :=
  match fuel with
  | O => None
  | S fuel' =>
      match parse_value fuel' l with
      | None => None
      | Some (v, r) =>
          match skip_ws r with
          | [] => None
          | c :: r' =>
              if Ascii.eqb c ","%char then
                match parse_elements fuel' r' with
                | Some (vs, r'') => Some (v :: vs, r'')
                | None => None
                end
              else if Ascii.eqb c "]"%char then Some ([v], r')
              else None
          end
      end
  end
with parse_members (fuel : nat) (l : list ascii) :
  option (list (string * Json) * list ascii) :=
  match fuel with
  | O => None
  | S fuel' =>
      match skip_ws l with
      | [] => None
      | q :: r =>
          if Ascii.eqb q dquote then
            match parse_string_body r with
            | None => None
            | Some (k, r1) =>
                match skip_ws r1 with
                | [] => None
                | c1 :: r2 =>
                    if Ascii.eqb c1 ":"%char then
                      match parse_value fuel' r2 with
                      | None => None
                      | Some (v, r3) =>
                          match skip_ws r3 with
                          | [] => None
                          | c :: r4 =>
                              if Ascii.eqb c ","%char then
                                match parse_members fuel' r4 with
                                | Some (ms, r5) => Some (add_member k v ms, r5)
                                | None => None
                                end
                              else if Ascii.eqb c "}"%char then Some ([(k, v)], r4)
                              else None
                          end
                      end
                    else None
                end
            end
          else None
      end
  end.

(** [JSON.parse(text)]; [None] stands for the [SyntaxError] it throws, and
    for a text with a number or an escape outside the values of [Json]. *)
Definition parse (text : string) : option Json :=
  let l := chars text in
  match parse_value (S (List.length l)) l with
  | Some (v, r) => match skip_ws r with [] => Some v | _ :: _ => None end
  | None => None
  end.

End JSON.

(* ===================================================================== *)
(** * The browser                                                         *)
(* ===================================================================== *)

Module Browser.

(** The two Web Storage areas: tab-scoped [sessionStorage] and persistent
    [localStorage].  Both map keys to strings. *)
Record Storage : Type := mkStorage {
  sessionStorage : gmap string string;
  localStorage : gmap string string
}.

(** What [sessionStorage.setItem(k, v)] leaves when the write is taken. *)
Definition session_setItem (k v : string) (st : Storage) : Storage :=
  mkStorage (<[k := v]> (sessionStorage st)) (localStorage st).

(** The browser's verdict on a write: [refuses st k v] when
    [sessionStorage.setItem(k, v)] throws in the state [st], because the
    quota would be exceeded or storage is switched off.  The API client
    does not guard its writes and is modelled where they are taken; the
    session cache guards its own, and takes the verdict as a parameter. *)
Definition Quota : Type := Storage -> string -> string -> bool.

(** [sessionStorage.setItem(k, v)] under a quota: a refused write throws
    and leaves the storage as it was. *)
Definition session_write (refuses : Quota) (k v : string) : M Storage unit :=
  fun st =>
    if refuses st k v
    then (Throw (ThrownError "QuotaExceededError" "The quota has been exceeded."), st, [])
    else (Ok tt, session_setItem k v st, []).

Definition session_removeItem (k : string) (st : Storage) : Storage :=
  mkStorage (delete k (sessionStorage st)) (localStorage st).

Definition local_removeItem (k : string) (st : Storage) : Storage :=
  mkStorage (sessionStorage st) (delete k (localStorage st)).

(** A response of [fetch]: status, headers by lower-case name, and the
    body as the text that [response.json()] parses: decoded, a byte order
    mark removed. *)
Record Response : Type := mkResponse {
  resp_status : Z;
  resp_headers : gmap string string;
  resp_body : string
}.

(** [response.ok]: the status is in the range 200-299. *)
Definition ok (r : Response) : bool :=
  Z.leb 200 (resp_status r) && Z.leb (resp_status r) 299.

(** [response.headers.get(name)]; header names are case-insensitive. *)
Definition headers_get (r : Response) (name : string) : option string :=
  resp_headers r !! toLowerCase name.

(** What [await fetch(...)] yields: a response, or a rejection with the
    message of the error. *)
Inductive FetchResult : Type :=
  | Responded (r : Response)
  | Rejected (msg : string).

(** The environment of the page: the build-time variable [VITE_API_URL]
    and the behaviour of the network. *)
Record Env : Type := mkEnv {
  VITE_API_URL : option string;
  network : Request -> FetchResult
}.

(** [encodeURIComponent], byte by byte. *)
Definition uri_unreserved (c : ascii) : bool :=
  let n := nat_of_ascii c in
  (Nat.leb 65 n && Nat.leb n 90) || (Nat.leb 97 n && Nat.leb n 122) ||
  (Nat.leb 48 n && Nat.leb n 57) ||
  List.existsb (Nat.eqb n) [45; 95; 46; 33; 126; 42; 39; 40; 41]%nat.

Definition HEX_digit (n : nat) : ascii :=
  if Nat.ltb n 10 then ascii_of_nat (48 + n) else ascii_of_nat (55 + n).

Fixpoint encodeURIComponent (s : string) : string :=
  match s with
  | EmptyString => EmptyString
  | String c s' =>
      if uri_unreserved c then String c (encodeURIComponent s')
      else
        String "%" (String (HEX_digit (nat_of_ascii c / 16))
          (String (HEX_digit (nat_of_ascii c mod 16)) (encodeURIComponent s')))
  end.

End Browser.

Export Browser.

(* ===================================================================== *)
(** * services/api.js                                                     *)
(* ===================================================================== *)

Module Api.

Section WithEnv.

Context (env : Env).

(** [import.meta.env.VITE_API_URL || 'http://localhost:8000'] *)
Definition API_BASE_URL : string :=
  match VITE_API_URL env with
  | Some u => if String.eqb u "" then "http://localhost:8000" else u
  | None => "http://localhost:8000"
  end.

(** ** ApiError *)

Definition isAuthError (e : ApiError) : bool :=
  Z.eqb (status e) 401 || Z.eqb (status e) 403.

Definition isServerError (e : ApiError) : bool := Z.geb (status e) 500.

Definition isNetworkError (e : ApiError) : bool := Z.eqb (status e) 0.

(** ** Tokens *)

Definition TOKEN_STORAGE_KEY : string := "admin_token".

(** [sessionStorage.getItem(KEY) || localStorage.getItem(KEY)]; [None] is
    the [null] of JavaScript.  Reading storage does not throw here, so the
    [catch] of the source has no counterpart. *)
Definition getToken (st : Storage) : option string :=
  match sessionStorage st !! TOKEN_STORAGE_KEY with
  | Some t =>
      if String.eqb t "" then localStorage st !! TOKEN_STORAGE_KEY else Some t
  | None => localStorage st !! TOKEN_STORAGE_KEY
  end.

(** Truthiness of a value that is a string or [null]. *)
Definition present (t : option string) : bool :=
  match t with
  | Some s => negb (String.eqb s "")
  | None => false
  end.

Definition handleTokenRefresh (response : Response) : M Storage unit :=
  let newToken := headers_get response "X-New-Token" in
  if present newToken then
    modify (session_setItem TOKEN_STORAGE_KEY (default "" newToken))
  else mret tt.

Definition isDemoMode (st : Storage) : bool :=
  match getToken st with
  | Some token => String.eqb token "TEST_TOKEN_DEMO_MODE"
  | None => false
  end.

(** ** Demo mode *)

Definition success (props : list (string * Json)) : Json :=
  JObj (("status", JStr "success") :: props).

(** The wait is [200 + Math.random() * 300] milliseconds. *)
Definition getMockResponse (endpoint : string) : M Storage JsVal :=
  emit (SetTimeout 200 500);;
  if includes "/dashboard/stats" endpoint then
    mret (JsJson (success [("stats", JObj [("total_queries", JNum 0)])]))
  else if includes "/dashboard/activity" endpoint then
    mret (JsJson (success [("activity", JArr [])]))
  else if includes "/dashboard/weekly" endpoint then
    mret (JsJson (success [("weekly", JArr [])]))
  else if includes "/knowledge" endpoint then
    mret (JsJson (success [("categories", JObj [])]))
  else if includes "/system-instructions" endpoint then
    mret (JsJson (success [("content", JStr "")]))
  else if includes "/projects" endpoint then
    mret (JsJson (success [("projects", JArr [])]))
  else if includes "/contacts" endpoint then
    mret (JsJson (success [("contact", JObj [("email", JStr ""); ("socials", JObj [])])]))
  else if includes "/communication" endpoint then
    mret (JsJson (success [("records", JArr []); ("count", JNum 0)]))
  else
    mret (JsJson (success [("data", JArr [])])).

(** ** Requests *)

(** The [options] argument of [apiRequest]. *)
Record Options : Type := mkOptions {
  opt_method : option string;
  opt_headers : gmap string string;
  opt_body : Body
}.

Definition no_options : Options := mkOptions None ∅ NoBody.

(** [errorData.detail]: reading a property of [null] throws; a value with
    no such property gives [undefined]. *)
Definition detail_of (errorData : Json) : Res JsVal :=
  match errorData with
  | JNull =>
      Throw (ThrownError "TypeError" "Cannot read properties of null (reading 'detail')")
  | JObj props =>
      Ok (match List.find (fun kv => String.eqb (fst kv) "detail") props with
          | Some (_, v) => JsJson v
          | None => JsUndefined
          end)
  | _ => Ok JsUndefined
  end.

Definition handleResponse (response : Response) : M Storage JsVal :=
  handleTokenRefresh response;;
  if negb (ok response) then
    (if Z.eqb (resp_status response) 401 then
       modify (session_removeItem TOKEN_STORAGE_KEY);;
       modify (session_removeItem "admin_user_info");;
       emit (DispatchEvent "auth:expired" JNull)
     else mret tt);;
    let errorData := default (JObj []) (JSON.parse (resp_body response)) in
    match detail_of errorData with
    | Throw t => throw t
    | Ok detail =>
        throw (ThrownApiError
                 (mkApiError
                    (to_string (or_else detail
                                  (JStr ("HTTP " +:+ string_of_Z (resp_status response)))))
                    (resp_status response)
                    errorData))
    end
  else
    match JSON.parse (resp_body response) with
    | Some j => mret (JsJson j)
    | None => throw (ThrownError "SyntaxError" "Unexpected token in JSON")
    end.

(** The promise of [handleResponse] is returned, not awaited, so the
    [catch] of [apiRequest] sees only a rejected [fetch]. *)
Definition apiRequest (endpoint : string) (options : Options) : M Storage JsVal :=
  let url := API_BASE_URL +:+ endpoint in
  let! token := gets getToken in
  let method :=
    toUpperCase (if present (opt_method options)
                 then default "" (opt_method options) else "GET") in
  let! demo := gets isDemoMode in
  if demo then getMockResponse endpoint
  else
    let headers := opt_headers options in
    let headers :=
      if present token
      then <["Authorization" := "Bearer " +:+ default "" token]> headers
      else headers in
    let headers :=
      match opt_body options with
      | FormData _ => headers
      | _ => <["Content-Type" := "application/json"]> headers
      end in
    let request := mkRequest url method headers (opt_body options) in
    emit (Fetch request);;
    match network env request with
    | Responded response => handleResponse response
    | Rejected msg =>
        throw (ThrownApiError
                 (mkApiError
                    (if String.eqb msg "" then "Network error" else msg)
                    0
                    (JsJson (JObj [("originalError", JObj [("message", JStr msg)])]))))
    end.

(** [JSON.stringify({ ... })] as a request body. *)
Definition json_body (props : list (string * Json)) : Body :=
  TextBody (string_of_list_ascii (JSON.print (JObj props))).

(** ** Health *)

Definition healthApi_check : M Storage bool :=
  let! demo := gets isDemoMode in
  if demo then mret true
  else
    emit (Fetch (mkRequest (API_BASE_URL +:+ "/api/v1/health") "GET" ∅ NoBody));;
    match network env (mkRequest (API_BASE_URL +:+ "/api/v1/health") "GET" ∅ NoBody) with
    | Responded response => mret (ok response)
    | Rejected _ => mret false
    end.

(** ** Auth *)

Definition authApi_logout : M Storage JsVal :=
  modify (session_removeItem TOKEN_STORAGE_KEY);;
  modify (session_removeItem "admin_user_info");;
  modify (local_removeItem "admin_session");;
  mret (JsJson (JObj [("status", JStr "success")])).

(** [!!getToken()] *)
Definition authApi_isLoggedIn (st : Storage) : bool := present (getToken st).

(** [v.k] for a value [v] that a request returned: reading a property of
    [null] or [undefined] throws; an object gives the value of its own
    property, and [undefined] when it has none of that name, as do
    strings, numbers, booleans and arrays for the names the client reads
    ([status], [token], [user], [records], ...), none of which is defined
    on a prototype. *)
Definition member (v : JsVal) (k : string) : Res JsVal :=
  match v with
  | JsUndefined =>
      Throw (ThrownError "TypeError"
               ("Cannot read properties of undefined (reading '" +:+ k +:+ "')"))
  | JsJson JNull =>
      Throw (ThrownError "TypeError"
               ("Cannot read properties of null (reading '" +:+ k +:+ "')"))
  | JsJson (JObj props) =>
      Ok (match List.find (fun kv => String.eqb (fst kv) k) props with
          | Some (_, x) => JsJson x
          | None => JsUndefined
          end)
  | _ => Ok JsUndefined
  end.

(** [setItem] stores the string form of the token, and the JSON text of
    the user info. *)
Definition authApi_login (username password : string) : M Storage JsVal :=
  let! result :=
    apiRequest "/api/v1/auth/login"
      (mkOptions (Some "POST") ∅
         (json_body [("username", JStr username); ("password", JStr password)])) in
  match member result "status" with
  | Throw t => throw t
  | Ok status =>
      (if strict_eq status (JsJson (JStr "success")) then
         match member result "token" with
         | Throw t => throw t
         | Ok token =>
             if truthy token then
               modify (session_setItem TOKEN_STORAGE_KEY (to_string token));;
               match member result "user" with
               | Throw t => throw t
               | Ok user =>
                   if truthy user then
                     modify (session_setItem "admin_user_info"
                               (default "undefined" (JSON.stringify user)))
                   else mret tt
               end
             else mret tt
         end
       else mret tt);;
      mret result
  end.

(** [token ? { token } : null] *)
Definition getSession (st : Storage) : Json :=
  match getToken st with
  | Some token => if String.eqb token "" then JNull else JObj [("token", JStr token)]
  | None => JNull
  end.

Definition authApi_getToken (st : Storage) : option string := getToken st.

Definition authApi_getSession (st : Storage) : Json := getSession st.

(** ** Endpoint groups *)

Definition post (body : Body) : Options := mkOptions (Some "POST") ∅ body.

Definition systemInstructionsApi_get : M Storage JsVal :=
  apiRequest "/api/v1/system-instructions" no_options.

Definition systemInstructionsApi_save (content message : Json) : M Storage JsVal :=
  apiRequest "/api/v1/system-instructions/save"
    (post (json_body [("content", content); ("message", message)])).

Definition dashboard_getStats : M Storage JsVal :=
  apiRequest "/api/v1/dashboard/stats" no_options.

Definition dashboard_getActivity (limit : JsVal) : M Storage JsVal :=
  let limit := match limit with JsUndefined => JsJson (JNum 10) | _ => limit end in
  apiRequest ("/api/v1/dashboard/activity?limit=" +:+ to_string limit) no_options.

Definition dashboard_getWeekly : M Storage JsVal :=
  apiRequest "/api/v1/dashboard/weekly" no_options.

Definition knowledge_getAll : M Storage JsVal :=
  apiRequest "/api/v1/knowledge" no_options.

Definition knowledge_getCategories : M Storage JsVal :=
  apiRequest "/api/v1/knowledge/categories" no_options.

Definition knowledge_get (category : string) : M Storage JsVal :=
  apiRequest ("/api/v1/knowledge/" +:+ encodeURIComponent category) no_options.

Definition knowledge_save (category : string) (content : Json) : M Storage JsVal :=
  apiRequest ("/api/v1/knowledge/" +:+ encodeURIComponent category +:+ "/save")
    (post (json_body [("content", content)])).

Definition contacts_get : M Storage JsVal :=
  apiRequest "/api/v1/contacts" no_options.

Definition contacts_save (contact message : Json) : M Storage JsVal :=
  apiRequest "/api/v1/contacts/save"
    (post (json_body [("contact", contact); ("message", message)])).

Definition communication_getAll (status : string) : M Storage JsVal :=
  let url :=
    if negb (String.eqb status "") then "/api/v1/communication?status=" +:+ status
    else "/api/v1/communication" in
  apiRequest url no_options.

Definition communication_updateStatus (recordId status : string) : M Storage JsVal :=
  apiRequest ("/api/v1/communication/" +:+ recordId +:+ "/status")
    (mkOptions (Some "PATCH") ∅ (json_body [("status", JStr status)])).

Definition communication_delete (recordId : string) : M Storage JsVal :=
  apiRequest ("/api/v1/communication/" +:+ recordId)
    (mkOptions (Some "DELETE") ∅ NoBody).

Definition projects_get : M Storage JsVal :=
  apiRequest "/api/v1/projects" no_options.

Definition projects_save (projects message oldProjects : Json) : M Storage JsVal :=
  let body := [("projects", projects); ("message", message)] in
  let body :=
    if truthy oldProjects then body ++ [("oldProjects", oldProjects)] else body in
  apiRequest "/api/v1/projects/save" (post (json_body body)).

Definition projects_uploadImage (file projectName : string) : M Storage JsVal :=
  apiRequest "/api/v1/projects/upload-image"
    (post (FormData [("file", file); ("projectName", projectName)])).

(** One call of a method of an endpoint group, with its arguments. *)
Inductive Call : Type :=
  | HealthCheck
  | SystemInstructionsGet
  | SystemInstructionsSave (content message : Json)
  | DashboardGetStats
  | DashboardGetActivity (limit : JsVal)
  | DashboardGetWeekly
  | KnowledgeGetAll
  | KnowledgeGetCategories
  | KnowledgeGet (category : string)
  | KnowledgeSave (category : string) (content : Json)
  | ContactsGet
  | ContactsSave (contact message : Json)
  | CommunicationGetAll (status : string)
  | CommunicationUpdateStatus (recordId status : string)
  | CommunicationDelete (recordId : string)
  | ProjectsGet
  | ProjectsSave (projects message oldProjects : Json)
  | ProjectsUploadImage (file projectName : string).

Definition perform (c : Call) : M Storage JsVal :=
  match c with
  | HealthCheck => let! up := healthApi_check in mret (JsJson (JBool up))
  | SystemInstructionsGet => systemInstructionsApi_get
  | SystemInstructionsSave content message => systemInstructionsApi_save content message
  | DashboardGetStats => dashboard_getStats
  | DashboardGetActivity limit => dashboard_getActivity limit
  | DashboardGetWeekly => dashboard_getWeekly
  | KnowledgeGetAll => knowledge_getAll
  | KnowledgeGetCategories => knowledge_getCategories
  | KnowledgeGet category => knowledge_get category
  | KnowledgeSave category content => knowledge_save category content
  | ContactsGet => contacts_get
  | ContactsSave contact message => contacts_save contact message
  | CommunicationGetAll status => communication_getAll status
  | CommunicationUpdateStatus recordId status => communication_updateStatus recordId status
  | CommunicationDelete recordId => communication_delete recordId
  | ProjectsGet => projects_get
  | ProjectsSave projects message oldProjects => projects_save projects message oldProjects
  | ProjectsUploadImage file projectName => projects_uploadImage file projectName
  end.

End WithEnv.

(** The endpoint groups, and the canned response documented for each. *)
Inductive Group : Type :=
  | Health
  | SystemInstructions
  | DashboardStats
  | DashboardActivity
  | DashboardWeekly
  | Knowledge
  | Contacts
  | Communication
  | Projects.

Definition group_of (c : Call) : Group :=
  match c with
  | HealthCheck => Health
  | SystemInstructionsGet | SystemInstructionsSave _ _ => SystemInstructions
  | DashboardGetStats => DashboardStats
  | DashboardGetActivity _ => DashboardActivity
  | DashboardGetWeekly => DashboardWeekly
  | KnowledgeGetAll | KnowledgeGetCategories | KnowledgeGet _ | KnowledgeSave _ _ => Knowledge
  | ContactsGet | ContactsSave _ _ => Contacts
  | CommunicationGetAll _ | CommunicationUpdateStatus _ _ | CommunicationDelete _ =>
      Communication
  | ProjectsGet | ProjectsSave _ _ _ | ProjectsUploadImage _ _ => Projects
  end.

Definition canned (g : Group) : Json :=
  match g with
  | Health => JBool true
  | SystemInstructions => success [("content", JStr "")]
  | DashboardStats => success [("stats", JObj [("total_queries", JNum 0)])]
  | DashboardActivity => success [("activity", JArr [])]
  | DashboardWeekly => success [("weekly", JArr [])]
  | Knowledge => success [("categories", JObj [])]
  | Contacts => success [("contact", JObj [("email", JStr ""); ("socials", JObj [])])]
  | Communication => success [("records", JArr []); ("count", JNum 0)]
  | Projects => success [("projects", JArr [])]
  end.

End Api.

(* ===================================================================== *)
(** * The session cache (utils/helpers.js)                                *)
(* ===================================================================== *)

Module SessionCache.

Definition CACHE_PREFIX : string := "cache_".

(** Returns the cached data, or [null] when nothing is stored under the
    key, when the stored text is empty, or when it does not parse. *)
Definition getCached (key : string) (st : Storage) : Json :=
  match sessionStorage st !! (CACHE_PREFIX +:+ key) with
  | None => JNull
  | Some cached =>
      if String.eqb cached "" then JNull
      else
        match JSON.parse cached with
        | Some data => data
        | None => JNull
        end
  end.

Section WithQuota.

Context (refuses : Quota).

(** [setItem] stores the string form of its argument: the text of
    [undefined] when [JSON.stringify] returns that.  A write that storage
    refuses is caught and logged to the console: the call returns, and
    what was stored under the key stays.  Every value of [JsVal] has a
    string form, so that [JSON.stringify] does not throw here. *)
Definition setCached (key : string) (data : JsVal) : M Storage unit :=
  fun st =>
    match session_write refuses (CACHE_PREFIX +:+ key)
            (default "undefined" (JSON.stringify data)) st with
    | (Ok a, st1, es) => (Ok a, st1, es)
    | (Throw error, st1, es) => (Ok tt, st1, es)
    end.

End WithQuota.

Definition clearCached (key : string) : M Storage unit :=
  modify (session_removeItem (CACHE_PREFIX +:+ key)).

Definition clearAllCached : M Storage unit :=
  modify (fun st =>
    mkStorage
      (filter (fun kv => negb (String.prefix CACHE_PREFIX (fst kv))) (sessionStorage st))
      (localStorage st)).

Definition cachedApiCall (refuses : Quota) (cacheKey : string)
    (apiFn : M Storage JsVal) (forceRefresh : bool) : M Storage JsVal :=
  let call :=
    let! data := invoke apiFn in
    setCached refuses cacheKey data;;
    mret data in
  if negb forceRefresh then
    let! cached := gets (getCached cacheKey) in
    match cached with
    | JNull => call
    | _ => mret (JsJson cached)
    end
  else call.

End SessionCache.

(* ===================================================================== *)
(** * context/ToastContext.jsx                                            *)
(* ===================================================================== *)

Module ToastContext.

(** The state of the provider is the list [toasts]; [setToasts(f)]
    replaces it by [f(prev)], and leaves it as it was when [f] throws. *)
Abbreviation Toasts := (list Obj).

Definition str (s : string) : JsVal := JsJson (JStr s).

(** [generated] is the value of
    [Date.now().toString() + Math.random().toString(36).substr(2, 9)]. *)
Definition addToast (generated : string) (toast : Obj) : M Toasts JsVal :=
  let id := or_else (get toast "id") (str generated) in
  let newToast : Obj :=
    spread
      (list_to_map
         [("id", id);
          ("status", or_else (get toast "status") (str "pending"));
          ("progress", or_else (get toast "progress") (JsJson (JNum 0)));
          ("title", or_else (get toast "title") (str ""));
          ("message", or_else (get toast "message") (str ""));
          ("fileName", or_else (get toast "fileName") (str ""));
          ("action", or_else (get toast "action") (str ""));
          ("type", or_else (get toast "type") (str ""));
          ("bulkProgress", or_else (get toast "bulkProgress") (JsJson JNull))])
      toast in
  modify (fun prev => prev ++ [newToast]);;
  mret id.

Definition data_changed (type : string) : Effect :=
  DispatchEvent "data-changed" (JsJson (JObj [("type", JStr type)])).

(** [toast.type || toast.action?.toLowerCase() || ''].  The optional call
    guards against a nullish [action] only: any other value that is not a
    string has no [toLowerCase]. *)
Definition eventType (toast : Obj) : Res JsVal :=
  if truthy (get toast "type") then Ok (get toast "type")
  else
    match get toast "action" with
    | JsUndefined => Ok (str "")
    | JsJson JNull => Ok (str "")
    | JsJson (JStr action) => Ok (or_else (str (toLowerCase action)) (str ""))
    | _ => Throw (ThrownError "TypeError" "toast.action?.toLowerCase is not a function")
    end.

(** [eventType.includes(word)]: a substring test on a string, a membership
    test on an array, and a [TypeError] on anything else. *)
Definition eventType_includes (eventType : JsVal) (word : string) : Res bool :=
  match eventType with
  | JsJson (JStr s) => Ok (includes word s)
  | JsJson (JArr xs) => Ok (List.existsb (fun x => strict_eq (JsJson x) (str word)) xs)
  | _ => Throw (ThrownError "TypeError" "eventType.includes is not a function")
  end.

(** [eventType.includes(a) || eventType.includes(b)] *)
Definition includes_either (eventType : JsVal) (a b : string) : Res bool :=
  match eventType_includes eventType a with
  | Ok true => Ok true
  | Ok false => eventType_includes eventType b
  | Throw t => Throw t
  end.

(** The callback of [prev.map] in [updateToast]: the entry that replaces
    [toast], and the events dispatched on the way. *)
Definition update_entry (id : JsVal) (updates toast : Obj) : Res Obj * list Effect :=
  if strict_eq (get toast "id") id then
    let updatedToast := spread toast updates in
    if strict_eq (get updates "status") (str "complete")
       && negb (strict_eq (get toast "status") (str "complete")) then
      match eventType toast with
      | Throw t => (Throw t, [])
      | Ok eventType =>
          match includes_either eventType "upload" "uploading" with
          | Throw t => (Throw t, [])
          | Ok true => (Ok updatedToast, [data_changed "upload"])
          | Ok false =>
          match includes_either eventType "archive" "archiving" with
          | Throw t => (Throw t, [])
          | Ok true => (Ok updatedToast, [data_changed "archive"])
          | Ok false =>
          match includes_either eventType "restore" "restoring" with
          | Throw t => (Throw t, [])
          | Ok true => (Ok updatedToast, [data_changed "restore"])
          | Ok false =>
          match includes_either eventType "delete" "deleting" with
          | Throw t => (Throw t, [])
          | Ok true => (Ok updatedToast, [data_changed "delete"])
          | Ok false => (Ok updatedToast, [])
          end end end end
      end
    else (Ok updatedToast, [])
  else (Ok toast, []).

(** [prev.map(f)], stopping at the first entry on which [f] throws. *)
Fixpoint map_entries (f : Obj -> Res Obj * list Effect) (prev : Toasts) :
  Res Toasts * list Effect :=
  match prev with
  | [] => (Ok [], [])
  | toast :: rest =>
      match f toast with
      | (Throw t, es) => (Throw t, es)
      | (Ok toast', es) =>
          match map_entries f rest with
          | (Ok rest', es') => (Ok (toast' :: rest'), es ++ es')
          | (Throw t, es') => (Throw t, es ++ es')
          end
      end
  end.

Definition updateToast (id : JsVal) (updates : Obj) : M Toasts unit :=
  fun prev =>
    match map_entries (update_entry id updates) prev with
    | (Ok next, es) => (Ok tt, next, es)
    | (Throw t, es) => (Throw t, prev, es)
    end.

Definition removeToast (id : JsVal) : M Toasts unit :=
  modify (List.filter (fun toast : Obj => negb (strict_eq (get toast "id") id))).

(** The parameter default applies when the argument is [undefined]. *)
Definition or_default (v : JsVal) (d : string) : JsVal :=
  match v with
  | JsUndefined => str d
  | _ => v
  end.

Definition showSuccess (generated : string) (message title : JsVal) : M Toasts unit :=
  addToast generated
    (list_to_map [("status", str "complete"); ("title", or_default title "Success");
                  ("message", message)]);;
  mret tt.

Definition showError (generated : string) (message title : JsVal) : M Toasts unit :=
  addToast generated
    (list_to_map [("status", str "error"); ("title", or_default title "Error");
                  ("message", message)]);;
  mret tt.

(** The listeners for the window events [add-toast] and [update-toast]. *)
Definition handleAddToast (generated : string) (detail : Obj) : M Toasts JsVal :=
  addToast generated detail.

Definition handleUpdateToast (detail : Obj) : M Toasts unit :=
  updateToast (get detail "id") detail.

(** ** Sequences of operations *)

Inductive Op : Type :=
  | Add (generated : string) (toast : Obj)
  | Update (id : JsVal) (updates : Obj)
  | Remove (id : JsVal)
  | ShowSuccess (generated : string) (message title : JsVal)
  | ShowError (generated : string) (message title : JsVal).

(** What the call returns to its caller: the id for [add], nothing for the
    others. *)
Definition step (op : Op) : M Toasts JsVal :=
  match op with
  | Add generated toast => addToast generated toast
  | Update id updates => updateToast id updates;; mret JsUndefined
  | Remove id => removeToast id;; mret JsUndefined
  | ShowSuccess generated message title =>
      showSuccess generated message title;; mret JsUndefined
  | ShowError generated message title =>
      showError generated message title;; mret JsUndefined
  end.

(** The operations applied from left to right, with the values returned. *)
Fixpoint run (ops : list Op) : M Toasts (list JsVal) :=
  match ops with
  | [] => mret []
  | op :: rest =>
      let! r := step op in
      let! rs := run rest in
      mret (r :: rs)
  end.

End ToastContext.


(* ===================================================================== *)
(** * Control flow                                                        *)
(* ===================================================================== *)

Module Control.

(** [try { m } catch (err) { handler(err) }] *)
Definition try_catch {S A} (m : M S A) (handler : Thrown -> M S A) : M S A :=
  fun s =>
    match m s with
    | (Ok a, s1, e1) => (Ok a, s1, e1)
    | (Throw t, s1, e1) => let '(r, s2, e2) := handler t s1 in (r, s2, e1 ++ e2)
    end.

(** [try { m } finally { f }]: [f] runs whatever the outcome of [m], which
    is the outcome of the whole unless [f] throws. *)
Definition finally {S A} (m : M S A) (f : M S unit) : M S A :=
  fun s =>
    let '(r, s1, e1) := m s in
    match f s1 with
    | (Ok _, s2, e2) => (r, s2, e1 ++ e2)
    | (Throw t, s2, e2) => (Throw t, s2, e1 ++ e2)
    end.

(** A computation on one component of a larger state. *)
Definition zoom {S T A} (proj : T -> S) (put : S -> T -> T) (m : M S A) : M T A :=
  fun t => let '(r, s, es) := m (proj t) in (r, put s t, es).

(** [err.message] *)
Definition message_of (err : Thrown) : string :=
  match err with
  | ThrownApiError e => message e
  | ThrownError _ msg => msg
  end.

End Control.

Export Control.

(* ===================================================================== *)
(** * utils/helpers.js                                                    *)
(* ===================================================================== *)

Module Helpers.

(** [classes.filter(Boolean).join(' ')] *)
Definition cn (classes : list JsVal) : string :=
  String.concat " " (List.map to_string (List.filter truthy classes)).

(** ** Files *)

(** [s.lastIndexOf(c)] for a one-character [c]: the position of its last
    occurrence, -1 when there is none. *)
Fixpoint lastIndexOf (c : ascii) (s : string) : Z :=
  match s with
  | EmptyString => -1
  | String a s' =>
      let r := lastIndexOf c s' in
      if Z.leb 0 r then r + 1 else if Ascii.eqb a c then 0 else -1
  end.

Fixpoint drop_chars (n : nat) (s : string) : string :=
  match n, s with
  | O, _ => s
  | S _, EmptyString => EmptyString
  | S n', String _ s' => drop_chars n' s'
  end.

(** [s.substring(start)]: a negative [start] counts as 0, one beyond the
    end gives the empty string. *)
Definition substring (start : Z) (s : string) : string := drop_chars (Z.to_nat start) s.

(** What the code reads of a [File]. *)
Record File : Type := mkFile {
  file_name : string;
  file_size : Z
}.

Definition allowedExtensions : list string :=
  [".pdf"; ".png"; ".jpg"; ".jpeg"; ".txt"; ".webp"; ".md"; ".json"].

Section Formatting.

(** [formatBytes] computes with floating-point logarithms and [toFixed];
    its result is used as a piece of text only, and it is a parameter
    here. *)
Variable formatBytes : Z -> string.

(** [maxSize] is [None] when the argument is omitted. *)
Definition validateFile (file : File) (maxSize : option Z) : Json :=
  let maxSize := default (25 * 1024 * 1024) maxSize in
  let fileExtension :=
    substring (lastIndexOf "." (file_name file)) (toLowerCase (file_name file)) in
  if negb (List.existsb (String.eqb fileExtension) allowedExtensions) then
    JObj [("valid", JBool false); ("error", JStr "File type not supported")]
  else if Z.gtb (file_size file) maxSize then
    JObj [("valid", JBool false);
          ("error", JStr ("File size exceeds " +:+ formatBytes maxSize +:+ " limit"))]
  else JObj [("valid", JBool true)].

End Formatting.

(** ** Relative times *)

Section Clock.

(** The built-in [Date]: [timeOf v] is the time value of [new Date(v)] in
    milliseconds, [None] when the date is invalid; [now] is the time value
    of [new Date()]; [toLocaleDateString] renders a date in the locale of
    the browser.  Time values are whole numbers of milliseconds, small
    enough for the differences and the rounded-down quotients below to be
    computed exactly. *)
Variable timeOf : JsVal -> option Z.
Variable now : Z.
Variable toLocaleDateString : Z -> string.

Definition formatRelativeTime (dateString : JsVal) : string :=
  if negb (truthy dateString) then "N/A"
  else
    match timeOf dateString with
    | None => "N/A"
    | Some date =>
        let diffInSeconds := (now - date) / 1000 in
        if Z.ltb diffInSeconds 60 then "just now"
        else if Z.ltb diffInSeconds 3600 then string_of_Z (diffInSeconds / 60) +:+ "m ago"
        else if Z.ltb diffInSeconds 86400 then string_of_Z (diffInSeconds / 3600) +:+ "h ago"
        else if Z.ltb diffInSeconds 604800 then string_of_Z (diffInSeconds / 86400) +:+ "d ago"
        else toLocaleDateString date
    end.

End Clock.

(** ** Requests with a health check *)

(** What [fetchWithStatus] resolves to: [{ ok: true, response }] or
    [{ ok: false, error, type }]. *)
Inductive FetchStatus : Type :=
  | StatusOk (response : Response)
  | StatusFailed (error type : string).

Section WithEnv.

(** [env] is the page's environment when the request is made, [later] the
    behaviour of the network when the health check follows. *)
Context (env : Env) (later : Request -> FetchResult).

(** [import.meta.env.VITE_API_URL || "http://localhost:8000"] *)
Definition API_BASE_URL : string :=
  match VITE_API_URL env with
  | Some u => if String.eqb u "" then "http://localhost:8000" else u
  | None => "http://localhost:8000"
  end.

Definition checkServerHealth {S} (network : Request -> FetchResult) : M S bool :=
  let request := mkRequest (API_BASE_URL +:+ "/health") "GET" ∅ NoBody in
  emit (Fetch request);;
  match network request with
  | Responded res => mret (ok res)
  | Rejected _ => mret false
  end.

(** [fetch(url, options)]: the method is GET when [options] names none. *)
Definition fetchWithStatus {S} (url : string) (options : Api.Options) : M S FetchStatus :=
  let request :=
    mkRequest url (default "GET" (Api.opt_method options))
      (Api.opt_headers options) (Api.opt_body options) in
  emit (Fetch request);;
  match network env request with
  | Responded res => mret (StatusOk res)
  | Rejected err_message =>
      let! isServerUp := checkServerHealth later in
      if negb isServerUp then
        mret (StatusFailed "Server offline or not communicating" "server_offline")
      else mret (StatusFailed err_message "fetch_error")
  end.

End WithEnv.

End Helpers.

(* ===================================================================== *)
(** * components/UI/ToastContainer.jsx                                    *)
(* ===================================================================== *)

Module ToastContainer.

Import ToastContext.

(** ** ToastItem *)

Definition isComplete (toast : Obj) : bool :=
  strict_eq (get toast "status") (str "complete").

Definition isError (toast : Obj) : bool :=
  strict_eq (get toast "status") (str "error").

Definition isProcessing (toast : Obj) : bool :=
  negb (isComplete toast) && negb (isError toast).

(** [v.toLowerCase()]: only a string has the method. *)
Definition lower (v : JsVal) : Res string :=
  match v with
  | JsJson (JStr s) => Ok (toLowerCase s)
  | _ => Throw (ThrownError "TypeError" "toLowerCase is not a function")
  end.

(** [action.charAt(0).toUpperCase() + action.slice(1)] *)
Definition capitalized (action : JsVal) : Res string :=
  match action with
  | JsJson (JStr (String c rest)) => Ok (String (upper_char c) rest)
  | JsJson (JStr EmptyString) => Ok EmptyString
  | _ => Throw (ThrownError "TypeError" "action.charAt is not a function")
  end.

(** The icons of lucide-react that [getIcon] chooses from. *)
Inductive Icon : Type :=
  | AlertCircle
  | CheckCircle2
  | Trash2
  | RotateCcw
  | Archive
  | Upload.

Definition getIcon (toast : Obj) : Res Icon :=
  let type := get toast "type" in
  if isError toast then Ok AlertCircle
  else if isComplete toast then Ok CheckCircle2
  else
    match lower (or_else (get toast "action") (str "")) with
    | Throw t => Throw t
    | Ok act =>
        if strict_eq type (str "delete") || includes "deleting" act then Ok Trash2
        else if strict_eq type (str "restore") || includes "restoring" act then Ok RotateCcw
        else if strict_eq type (str "archive") || includes "archiving" act then Ok Archive
        else Ok Upload
    end.

(** The heading of the notification. *)
Definition getActionText (toast : Obj) : Res JsVal :=
  let action := get toast "action" in
  let title := get toast "title" in
  let bulkProgress := get toast "bulkProgress" in
  if isError toast then Ok (str "Failed")
  else
    match lower (or_else action (or_else title (str "Processing"))) with
    | Throw t => Throw t
    | Ok act =>
        if isComplete toast then
          if includes "uploading" act then Ok (str "Uploaded")
          else if includes "archiving" act then Ok (str "Archived")
          else if includes "restoring" act then Ok (str "Restored")
          else if includes "deleting" act then Ok (str "Deleted")
          else if includes "saving" act then Ok (str "Saved")
          else Ok (str "Complete")
        else if truthy bulkProgress then
          match (if truthy action then capitalized action else Ok "Processing") with
          | Throw t => Throw t
          | Ok displayAction =>
              match Api.member bulkProgress "current", Api.member bulkProgress "total" with
              | Ok current, Ok total =>
                  Ok (str (displayAction +:+ " " +:+ to_string current +:+ " of " +:+
                           to_string total))
              | Throw t, _ => Throw t
              | _, Throw t => Throw t
              end
          end
        else if truthy action then
          match capitalized action with
          | Throw t => Throw t
          | Ok text => Ok (str text)
          end
        else Ok (or_else title (str "Processing"))
    end.

(** The auto-dismiss effect: for an entry that is complete or failed, a
    timer that calls [onClose(id)] after 2 s on a narrow viewport and 5 s
    on a wide one. *)
Definition dismiss_timer (isMobile : bool) (toast : Obj) : option (Z * JsVal) :=
  if isComplete toast || isError toast then
    Some (if isMobile then 2000 else 5000, get toast "id")
  else None.

(** The timer fires: [onClose] is [removeToast]. *)
Definition dismiss (isMobile : bool) (toast : Obj) : M Toasts unit :=
  match dismiss_timer isMobile toast with
  | Some (_, id) => removeToast id
  | None => mret tt
  end.

End ToastContainer.

(* ===================================================================== *)
(** * pages/CommunicationPage.jsx                                         *)
(* ===================================================================== *)

Module CommunicationPage.

Import ToastContext.

(** The state the page works on: its own ([submissions], [loading],
    [filter]), the queue of the toast provider, and the browser's
    storage. *)
Record State : Type := mkState {
  storage : Storage;
  toasts : Toasts;
  submissions : JsVal;
  loading : bool;
  status_filter : string
}.

Definition on_storage {A} : M Storage A -> M State A :=
  zoom storage (fun s st => mkState s (toasts st) (submissions st) (loading st)
                              (status_filter st)).

Definition on_toasts {A} : M Toasts A -> M State A :=
  zoom toasts (fun q st => mkState (storage st) q (submissions st) (loading st)
                             (status_filter st)).

Definition setSubmissions (v : JsVal) : M State unit :=
  modify (fun st => mkState (storage st) (toasts st) v (loading st) (status_filter st)).

Definition setLoading (b : bool) : M State unit :=
  modify (fun st => mkState (storage st) (toasts st) (submissions st) b (status_filter st)).

Section WithEnv.

Context (env : Env).

(** [generated], [generated'] and [generated''] are the ids generated for
    the notifications, each for the call of [addToast] it is handed to. *)
Definition loadSubmissions (generated : string) : M State unit :=
  setLoading true;;
  finally
    (try_catch
       (let! filter := gets status_filter in
        let statusParam := if String.eqb filter "all" then "" else filter in
        let! response := on_storage (Api.communication_getAll env statusParam) in
        match Api.member response "records" with
        | Throw t => throw t
        | Ok records => setSubmissions (or_else records (JsJson (JArr [])))
        end)
       (fun err =>
          on_toasts (showError generated (str "Failed to load submissions") JsUndefined)))
    (setLoading false).

Definition handleStatusUpdate (generated generated' generated'' : string)
    (id status : string) : M State unit :=
  try_catch
    (on_storage (Api.communication_updateStatus env id status);;
     on_toasts (showSuccess generated (str ("Marked as " +:+ status)) JsUndefined);;
     loadSubmissions generated')
    (fun err =>
       on_toasts (showError generated'' (str ("Failed to mark as " +:+ status)) JsUndefined)).

(** [confirmed] is the answer to the [confirm] dialog. *)
Definition handleDelete (confirmed : bool) (generated generated' generated'' : string)
    (id : string) : M State unit :=
  if negb confirmed then mret tt
  else
    try_catch
      (on_storage (Api.communication_delete env id);;
       on_toasts (showSuccess generated (str "Submission deleted") JsUndefined);;
       loadSubmissions generated')
      (fun err =>
         on_toasts (showError generated'' (str "Failed to delete submission") JsUndefined)).

End WithEnv.

(** [submissions.filter(s => s.status === wanted).length] on an array. *)
Fixpoint count_status (wanted : string) (records : list Json) : Res Z :=
  match records with
  | [] => Ok 0
  | s :: rest =>
      match Api.member (JsJson s) "status" with
      | Throw t => Throw t
      | Ok status =>
          match count_status wanted rest with
          | Throw t => Throw t
          | Ok n => Ok (if strict_eq status (str wanted) then n + 1 else n)
          end
      end
  end.

(** The four counters of the page. *)
Record Stats : Type := mkStats {
  total : Z;
  new : Z;
  done : Z;
  dismissed : Z
}.

(** [submissions] is always an array or another truthy value; only an
    array has [filter]. *)
Definition getStats (submissions : JsVal) : Res Stats :=
  match submissions with
  | JsJson (JArr records) =>
      match count_status "new" records, count_status "done" records,
            count_status "dismissed" records with
      | Ok n, Ok d, Ok x => Ok (mkStats (Z.of_nat (List.length records)) n d x)
      | Throw t, _, _ => Throw t
      | _, Throw t, _ => Throw t
      | _, _, Throw t => Throw t
      end
  | _ => Throw (ThrownError "TypeError" "submissions.filter is not a function")
  end.

End CommunicationPage.

(* ===================================================================== *)
(** * The knowledge base page                                             *)
(* ===================================================================== *)

Module KnowledgeBasePage.

Import ToastContext.

Record State : Type := mkState {
  storage : Storage;
  toasts : Toasts;
  sectionContent : Obj;
  loading : bool
}.

Definition on_storage {A} : M Storage A -> M State A :=
  zoom storage (fun s st => mkState s (toasts st) (sectionContent st) (loading st)).

Definition on_toasts {A} : M Toasts A -> M State A :=
  zoom toasts (fun q st => mkState (storage st) q (sectionContent st) (loading st)).

Definition setLoading (b : bool) : M State unit :=
  modify (fun st => mkState (storage st) (toasts st) (sectionContent st) b).

(** [setSectionContent(prev => f(prev))] *)
Definition setSectionContent (f : Obj -> Obj) : M State unit :=
  modify (fun st => mkState (storage st) (toasts st) (f (sectionContent st)) (loading st)).

Definition DEFAULT_CONTENT : Obj :=
  list_to_map [("about-me", str ""); ("tech-stack", str ""); ("projects", str "");
               ("contacts", str ""); ("miscellaneous", str "")].

(** The object [api] that services/api.js exports has the members [auth],
    [health], [systemInstructions], [dashboard], [knowledge], [contacts],
    [communication] and [projects].  The page calls methods of
    [api.chatbotKnowledge], which is [undefined]: reading the method
    throws, before anything is sent. *)
Definition api_chatbotKnowledge (method : string) : M Storage JsVal :=
  match Api.member JsUndefined method with
  | Throw t => throw t
  | Ok f => mret f
  end.

(** [Object.entries(v)] for a truthy [v], in an order that the loop below
    does not depend on: the members of an object, the elements of an array
    and the characters of a string under their indices. *)
Definition entries (v : JsVal) : list (string * Json) :=
  match v with
  | JsJson (JObj members) => members
  | JsJson (JArr xs) => imap (fun i x => (string_of_Z (Z.of_nat i), x)) xs
  | JsJson (JStr s) =>
      imap (fun i c => (string_of_Z (Z.of_nat i), JStr (String c EmptyString)))
        (list_ascii_of_string s)
  | _ => []
  end.

(** [content[key] = v] on a plain object: the name [__proto__] sets the
    prototype and creates no property. *)
Definition assign (key : string) (v : JsVal) (content : Obj) : Obj :=
  if String.eqb key "__proto__" then content else <[key := v]> content.

(** The loop [for (const [key, value] of ...) content[key] = value.content || ''] *)
Fixpoint collect (items : list (string * Json)) (content : Obj) : Res Obj :=
  match items with
  | [] => Ok content
  | (key, value) :: rest =>
      match Api.member (JsJson value) "content" with
      | Throw t => Throw t
      | Ok c => collect rest (assign key (or_else c (str "")) content)
      end
  end.

(** [err.message || fallback] *)
Definition message_or (err : Thrown) (fallback : string) : string :=
  if String.eqb (message_of err) "" then fallback else message_of err.

Definition loadAllCategories (refuses : Quota) (generated : string) (forceRefresh : bool) :
  M State unit :=
  setLoading true;;
  finally
    (try_catch
       ((if forceRefresh then on_storage (SessionCache.clearCached "knowledge_base_all")
         else mret tt);;
        let! data :=
          on_storage (SessionCache.cachedApiCall refuses "knowledge_base_all"
                        (api_chatbotKnowledge "getAll") forceRefresh) in
        match Api.member data "status" with
        | Throw t => throw t
        | Ok status =>
            if strict_eq status (str "success") then
              match Api.member data "categories" with
              | Throw t => throw t
              | Ok categories =>
                  if truthy categories then
                    match collect (entries categories) ∅ with
                    | Throw t => throw t
                    | Ok content => setSectionContent (fun prev => spread prev content)
                    end
                  else mret tt
              end
            else mret tt
        end)
       (fun err =>
          on_toasts
            (addToast generated
               (list_to_map
                  [("action", str "Error"); ("fileName", str "Knowledge Base");
                   ("status", str "error");
                   ("message", str (message_or err "Failed to load knowledge base"))]));;
          mret tt))
    (setLoading false).

Definition handleSaveSection (generated generated' : string) (id newContent : string) :
  M State unit :=
  try_catch
    (on_storage (api_chatbotKnowledge "save");;
     on_storage (SessionCache.clearCached "knowledge_base_all");;
     setSectionContent (fun prev => <[id := str newContent]> prev);;
     on_toasts
       (addToast generated
          (list_to_map
             [("action", str "Saved"); ("fileName", str id); ("status", str "complete");
              ("message", str "Section updated successfully")]));;
     mret tt)
    (fun err =>
       on_toasts
         (addToast generated'
            (list_to_map
               [("action", str "Error"); ("fileName", str id); ("status", str "error");
                ("message", str (message_or err "Failed to save section"))]));;
       throw err).

End KnowledgeBasePage.

(* ===================================================================== *)
(** * pages/UserSettings.jsx                                              *)
(* ===================================================================== *)

Module UserSettings.

Import ToastContext.

(** White space as [trim] sees it, among the 8-bit code units. *)
Definition is_space (c : ascii) : bool :=
  List.existsb (Nat.eqb (nat_of_ascii c)) [9; 10; 11; 12; 13; 32; 160]%nat.

Fixpoint trimStart (s : string) : string :=
  match s with
  | EmptyString => EmptyString
  | String c s' => if is_space c then trimStart s' else s
  end.

Fixpoint trimEnd (s : string) : string :=
  match s with
  | EmptyString => EmptyString
  | String c s' =>
      match trimEnd s' with
      | EmptyString => if is_space c then EmptyString else String c EmptyString
      | rest => String c rest
      end
  end.

(** [s.trim()] *)
Definition trim (s : string) : string := trimEnd (trimStart s).

(** The form data and the errors are objects whose properties hold
    strings; [errors] may hold [undefined] where an error was cleared. *)
Record State : Type := mkState {
  toasts : Toasts;
  formData : gmap string string;
  errors : Obj;
  isLoading : bool;
  showPasswordForm : bool
}.

Definition emptyForm : gmap string string :=
  list_to_map [("currentPassword", ""); ("newPassword", ""); ("confirmPassword", "")].

(** [!formData[field] || formData[field].trim() === ''] *)
Definition blank (formData : gmap string string) (field : string) : bool :=
  match formData !! field with
  | None => true
  | Some v => String.eqb v "" || String.eqb (trim v) ""
  end.

(** [a === b] for two properties of the form data. *)
Definition same (a b : option string) : bool :=
  match a, b with
  | Some x, Some y => String.eqb x y
  | None, None => true
  | _, _ => false
  end.

(** The checks of [handlePasswordUpdate], in their order. *)
Definition validate (formData : gmap string string) : Obj :=
  let newErrors : Obj := ∅ in
  let newErrors :=
    if blank formData "currentPassword" then
      <["currentPassword" := str "Current password is required"]> newErrors
    else newErrors in
  let newErrors :=
    if blank formData "newPassword" then
      <["newPassword" := str "New password is required"]> newErrors
    else if Nat.ltb (String.length (default "" (formData !! "newPassword"))) 6 then
      <["newPassword" := str "Password must be at least 6 characters"]> newErrors
    else newErrors in
  let newErrors :=
    if blank formData "confirmPassword" then
      <["confirmPassword" := str "Please confirm your password"]> newErrors
    else if negb (same (formData !! "newPassword") (formData !! "confirmPassword")) then
      <["confirmPassword" := str "Passwords do not match"]> newErrors
    else newErrors in
  newErrors.

Definition on_toasts {A} : M Toasts A -> M State A :=
  zoom toasts (fun q st => mkState q (formData st) (errors st) (isLoading st)
                             (showPasswordForm st)).

Definition setFormData (f : gmap string string) : M State unit :=
  modify (fun st => mkState (toasts st) f (errors st) (isLoading st) (showPasswordForm st)).

Definition setErrors (e : Obj) : M State unit :=
  modify (fun st => mkState (toasts st) (formData st) e (isLoading st) (showPasswordForm st)).

Definition setIsLoading (b : bool) : M State unit :=
  modify (fun st => mkState (toasts st) (formData st) (errors st) b (showPasswordForm st)).

Definition setShowPasswordForm (b : bool) : M State unit :=
  modify (fun st => mkState (toasts st) (formData st) (errors st) (isLoading st) b).

Definition handlePasswordUpdate (generated generated' : string) : M State unit :=
  let! form := gets formData in
  let newErrors := validate form in
  if negb (Nat.eqb (size newErrors) 0) then setErrors newErrors
  else
    setIsLoading true;;
    finally
      (try_catch
         (emit (SetTimeout 1000 1000);;
          on_toasts (showSuccess generated (str "Password updated successfully") JsUndefined);;
          setShowPasswordForm false;;
          setFormData emptyForm;;
          setErrors ∅)
         (fun error =>
            on_toasts
              (showError generated'
                 (str (if String.eqb (message_of error) ""
                       then "Failed to update password. Please try again."
                       else message_of error))
                 JsUndefined)))
      (setIsLoading false).

Definition handleCancelPasswordChange : M State unit :=
  setShowPasswordForm false;;
  setFormData emptyForm;;
  setErrors ∅.

End UserSettings.

(* ===================================================================== *)
(** * The application context                                             *)
(* ===================================================================== *)

Module AppContext.

(** The list [modals] of the provider. *)
Abbreviation Modals := (list Obj).

(** [now] is the value of [Date.now()]. *)
Definition showModal (now : Z) (modal : Obj) : M Modals JsVal :=
  let id := JsJson (JNum now) in
  modify (fun prev => prev ++ [spread modal (list_to_map [("id", id)])]);;
  mret id.

Definition closeModal (id : JsVal) : M Modals unit :=
  modify (List.filter (fun m : Obj => negb (strict_eq (get m "id") id))).

End AppContext.

(* ===================================================================== *)
(** * Vocabulary of the statements                                        *)
(* ===================================================================== *)

Import Api SessionCache ToastContext.

(** The three components of the result of a computation. *)
Definition outcome {S A} (x : Res A * S * list Effect) : Res A := fst (fst x).
Definition state_after {S A} (x : Res A * S * list Effect) : S := snd (fst x).
Definition effects_of {S A} (x : Res A * S * list Effect) : list Effect := snd x.

(** A network call, at the top level or inside an invocation. *)
Fixpoint is_fetch (e : Effect) : bool :=
  match e with
  | Fetch _ => true
  | Invoke inner => List.existsb is_fetch inner
  | _ => false
  end.

Definition is_wait (e : Effect) : bool :=
  match e with
  | SetTimeout _ _ => true
  | _ => false
  end.

(** ** Storage states and responses *)

(** A token kept in persistent storage only, as after a browser restart. *)
Definition remembered (token : string) : Storage :=
  mkStorage ∅ {[ TOKEN_STORAGE_KEY := token ]}.

(** A token and the user info kept in tab-scoped storage only. *)
Definition signed_in (token : string) : Storage :=
  mkStorage {[ TOKEN_STORAGE_KEY := token; "admin_user_info" := "{}" ]} ∅.


Definition text_of (j : Json) : string := string_of_list_ascii (JSON.print j).

(** A 401 response of the backend, with its [detail] message. *)
Definition unauthorized : Response :=
  mkResponse 401 ∅ (text_of (JObj [("detail", JStr "Token expired")])).




(** ** Demo mode *)

(** The request path of a call; the health check goes around [apiRequest]. *)
Definition path_of (c : Call) : string :=
  match c with
  | HealthCheck => "/api/v1/health"
  | SystemInstructionsGet => "/api/v1/system-instructions"
  | SystemInstructionsSave _ _ => "/api/v1/system-instructions/save"
  | DashboardGetStats => "/api/v1/dashboard/stats"
  | DashboardGetActivity limit =>
      "/api/v1/dashboard/activity?limit=" +:+
      to_string (match limit with JsUndefined => JsJson (JNum 10) | _ => limit end)
  | DashboardGetWeekly => "/api/v1/dashboard/weekly"
  | KnowledgeGetAll => "/api/v1/knowledge"
  | KnowledgeGetCategories => "/api/v1/knowledge/categories"
  | KnowledgeGet category => "/api/v1/knowledge/" +:+ encodeURIComponent category
  | KnowledgeSave category _ =>
      "/api/v1/knowledge/" +:+ encodeURIComponent category +:+ "/save"
  | ContactsGet => "/api/v1/contacts"
  | ContactsSave _ _ => "/api/v1/contacts/save"
  | CommunicationGetAll status =>
      if String.eqb status "" then "/api/v1/communication"
      else "/api/v1/communication?status=" +:+ status
  | CommunicationUpdateStatus recordId _ =>
      "/api/v1/communication/" +:+ recordId +:+ "/status"
  | CommunicationDelete recordId => "/api/v1/communication/" +:+ recordId
  | ProjectsGet => "/api/v1/projects"
  | ProjectsSave _ _ _ => "/api/v1/projects/save"
  | ProjectsUploadImage _ _ => "/api/v1/projects/upload-image"
  end.

(** The path fragments that select a canned response, in the order in
    which they are tried. *)
Definition fragments : list (string * Group) :=
  [("/dashboard/stats", DashboardStats);
   ("/dashboard/activity", DashboardActivity);
   ("/dashboard/weekly", DashboardWeekly);
   ("/knowledge", Knowledge);
   ("/system-instructions", SystemInstructions);
   ("/projects", Projects);
   ("/contacts", Contacts);
   ("/communication", Communication)].

(** The response selected by the first fragment that occurs in the path. *)
Definition first_match (path : string) : Json :=
  match List.find (fun f => includes (fst f) path) fragments with
  | Some (_, g) => canned g
  | None => success [("data", JArr [])]
  end.

(** Calls whose path holds no free text of the caller: fixed paths,
    knowledge categories (URI-encoded), a numeric or omitted [limit], and
    a status filter that is empty or one of the three documented values. *)
Definition settled (c : Call) : bool :=
  match c with
  | DashboardGetActivity JsUndefined => true
  | DashboardGetActivity (JsJson (JNum _)) => true
  | DashboardGetActivity _ => false
  | CommunicationGetAll status =>
      List.existsb (String.eqb status) [""; "new"; "done"; "dismissed"]
  | CommunicationUpdateStatus _ _ => false
  | CommunicationDelete _ => false
  | _ => true
  end.

(** Demo-mode isolation as stated for every endpoint of every group: no
    network call, the canned response of the group, after a wait. *)
Definition demo_isolated (env : Env) (c : Call) (st : Storage) : Prop :=
  let x := perform env c st in
  List.existsb is_fetch (effects_of x) = false /\
  outcome x = Ok (JsJson (canned (group_of c))) /\
  List.existsb is_wait (effects_of x) = true.

Definition demo_state : Storage := signed_in "TEST_TOKEN_DEMO_MODE".

Definition offline : Env := mkEnv None (fun _ => Rejected "Failed to fetch").

(** A backend that answers every request with [unauthorized]. *)
Definition rejecting : Env := mkEnv None (fun _ => Responded unauthorized).

(** The text holds no slash. *)
Fixpoint slash_free (s : string) : bool :=
  match s with
  | EmptyString => true
  | String c s' => negb (Ascii.eqb c "/") && slash_free s'
  end.

(** ** The notification queue *)

(** The number of entries of the queue whose id is [id]. *)
Definition count_id (id : JsVal) (q : Toasts) : nat :=
  List.length (List.filter (fun toast : Obj => strict_eq (get toast "id") id) q).

(** At most one entry per id. *)
Definition unique_ids (q : Toasts) : Prop := forall id, (count_id id q <= 1)%nat.

(** The documented defaults of an entry; the id defaults to a generated
    one. *)
Definition defaults (generated : string) : Obj :=
  list_to_map
    [("id", str generated); ("status", str "pending"); ("progress", JsJson (JNum 0));
     ("title", str ""); ("message", str ""); ("fileName", str "");
     ("action", str ""); ("type", str ""); ("bulkProgress", JsJson JNull)].

(** The operations as the specification words them: [add] appends the
    entry with every unset field at its default and returns the id of that
    entry, [update] merges the partial fields into the entries with the
    id, the given fields winning, and [remove] deletes those entries. *)
Definition spec_entry (generated : string) (toast : Obj) : Obj :=
  toast ∪ defaults generated.

Definition spec_add (generated : string) (toast : Obj) (q : Toasts) : Toasts * JsVal :=
  (q ++ [spec_entry generated toast], get (spec_entry generated toast) "id").

Definition spec_update (id : JsVal) (updates : Obj) (q : Toasts) : Toasts :=
  List.map (fun entry : Obj =>
              if strict_eq (get entry "id") id then updates ∪ entry else entry) q.

Definition spec_remove (id : JsVal) (q : Toasts) : Toasts :=
  List.filter (fun entry : Obj => negb (strict_eq (get entry "id") id)) q.

(** The categories in the order in which they are tried, each with the
    words that select it, and the category of a label: the first one with
    a word the label contains. *)
Definition keywords : list (string * list string) :=
  [("upload", ["upload"; "uploading"]);
   ("archive", ["archive"; "archiving"]);
   ("restore", ["restore"; "restoring"]);
   ("delete", ["delete"; "deleting"])].

Definition category_of (label : string) : option string :=
  option_map fst
    (List.find (fun kw => List.existsb (fun w => includes w label) (snd kw)) keywords).

Definition broadcasts (c : option string) : list Effect :=
  match c with
  | Some k => [data_changed k]
  | None => []
  end.

(** The merge takes the status from a value other than [complete] to
    [complete]. *)
Definition completes (updates toast : Obj) : bool :=
  strict_eq (get (spread toast updates) "status") (str "complete")
  && negb (strict_eq (get toast "status") (str "complete")).

(** A descriptive field read as text: a string, or nothing when the field
    is unset. *)
Definition text (v : JsVal) : option string :=
  match v with
  | JsUndefined => Some EmptyString
  | JsJson JNull => Some EmptyString
  | JsJson (JStr s) => Some s
  | _ => None
  end.

(** The text that is searched for a keyword: the type, or the lower-cased
    action when there is no type. *)
Definition label (type action : string) : string :=
  if String.eqb type "" then toLowerCase action else type.

(** The value a call returned ([undefined] when it threw). *)
Definition returned {S} (x : Res JsVal * S * list Effect) : JsVal :=
  match outcome x with
  | Ok v => v
  | Throw _ => JsUndefined
  end.

(** Scenario A: a pending entry is added without a type and completed by
    an update that supplies the type [upload]. *)
Definition scenario_A : Res unit * Toasts * list Effect :=
  let added :=
    addToast "X" (list_to_map [("title", str "Upload"); ("status", str "pending")]) [] in
  updateToast (returned added)
    (list_to_map [("status", str "complete"); ("type", str "upload")])
    (state_after added).

(** The same, with the type given when the entry is added. *)
Definition scenario_A_typed : Res unit * Toasts * list Effect :=
  let added :=
    addToast "X"
      (list_to_map [("title", str "Upload"); ("status", str "pending");
                    ("type", str "upload")]) [] in
  updateToast (returned added)
    (list_to_map [("status", str "complete")])
    (state_after added).

(** ** Reachable queues *)

(** The id of the entry that [add] appends. *)
Definition entry_id (generated : string) (toast : Obj) : JsVal :=
  match toast !! "id" with
  | Some id => id
  | None => str generated
  end.

(** An operation that keeps ids apart: an [add] whose entry takes an id
    that is not in the queue (supplied or generated), an [update] that
    does not rename the entry it addresses. *)
Definition keeps_ids_apart (q : Toasts) (op : Op) : Prop :=
  match op with
  | Add generated toast => count_id (entry_id generated toast) q = 0%nat
  | Update id updates => updates !! "id" = None \/ updates !! "id" = Some id
  | Remove _ => True
  | ShowSuccess generated _ _ => count_id (str generated) q = 0%nat
  | ShowError generated _ _ => count_id (str generated) q = 0%nat
  end.

(** The queues produced from the empty queue by such operations. *)
Inductive reachable : Toasts -> Prop :=
  | reachable_empty : reachable []
  | reachable_step q op :
      reachable q -> keeps_ids_apart q op -> reachable (state_after (step op q)).

(** An entry added with the action text of an archive operation and no
    type, then completed. *)
Definition scenario_archiving : Res unit * Toasts * list Effect :=
  let added :=
    addToast "Y" (list_to_map [("action", str "Archiving"); ("status", str "pending")]) [] in
  updateToast (returned added)
    (list_to_map [("status", str "complete")])
    (state_after added).

(** The four keywords as the claim lists them. *)
Definition stated_keywords : list string := ["upload"; "archive"; "restore"; "delete"].

(** ** JSON values and the cache *)

Fixpoint distinct (keys : list string) : bool :=
  match keys with
  | [] => true
  | k :: rest => negb (List.existsb (String.eqb k) rest) && distinct rest
  end.

(** A JSON-serialisable value: the keys of every object are distinct. *)
Fixpoint json_wf (j : Json) : bool :=
  match j with
  | JArr xs => List.forallb json_wf xs
  | JObj ms =>
      distinct (List.map fst ms) && List.forallb (fun kv => json_wf (snd kv)) ms
  | _ => true
  end.

(** A bound on the nesting work of the parser on the text of a value. *)
Fixpoint weight (j : Json) : nat :=
  match j with
  | JArr xs => S (List.fold_right (fun x n => S (weight x + n)) O xs)
  | JObj ms => S (List.fold_right (fun kv n => S (weight (snd kv) + n)) O ms)
  | _ => 1
  end.

(** The text does not go on with a decimal digit. *)
Definition no_digit_ahead (l : list ascii) : Prop :=
  match l with
  | [] => True
  | c :: _ => JSON.digit c = None
  end.

(** A producer that returns the given value and has no effect. *)
Definition returning (v : JsVal) : M Storage JsVal := mret v.

(** A producer that fails, as a request does when the network is down. *)
Definition failing : M Storage JsVal :=
  throw (ThrownApiError (mkApiError "Network error" 0 JsUndefined)).

Definition empty_storage : Storage := mkStorage ∅ ∅.

(** A browser whose storage takes every write, and one whose storage
    refuses every write, as it does once the quota is used up. *)
Definition roomy : Quota := fun _ _ _ => false.

(** A browser whose storage takes a value of up to [n] characters. *)
Definition capped (n : nat) : Quota := fun _ _ v => Nat.ltb n (String.length v).

(** The characters with which a JSON text can begin, white space apart. *)
Definition begins_json (c : ascii) : bool :=
  Ascii.eqb c JSON.dquote ||
  List.existsb (Ascii.eqb c) (JSON.chars "{[-0123456789tfn").

(** A text that is not JSON whatever follows its first character: it is
    empty or white space only, or begins, white space apart, with a
    character that opens no JSON value. *)
Definition not_json (text : string) : bool :=
  match JSON.skip_ws (JSON.chars text) with
  | [] => true
  | c :: _ => negb (begins_json c)
  end.

(** The cache holds nothing it can return under the key: nothing is
    stored, or the stored text is empty, is not JSON, or is the text of
    [null]. *)
Definition nothing_cached (key : string) (st : Storage) : Prop :=
  match sessionStorage st !! (SessionCache.CACHE_PREFIX +:+ key) with
  | None => True
  | Some text => text = "" \/ not_json text = true \/ JSON.parse text = Some JNull
  end.

(** Storage takes the write by which the cache stores the value under the
    key. *)
Definition accepts (refuses : Quota) (key : string) (v : JsVal) (st : Storage) : Prop :=
  refuses st (SessionCache.CACHE_PREFIX +:+ key) (default "undefined" (JSON.stringify v))
  = false.


(** The text of the elements of an array and of the members of an object,
    as [JSON.print] lays them out. *)
Fixpoint print_elements (l : list Json) : list ascii :=
  match l with
  | [] => []
  | x :: l' =>
      JSON.print x ++ match l' with [] => [] | _ :: _ => ","%char :: print_elements l' end
  end.

Fixpoint print_members (l : list (string * Json)) : list ascii :=
  match l with
  | [] => []
  | (k, v) :: l' =>
      JSON.print_string k ++ ":"%char :: JSON.print v ++
      match l' with [] => [] | _ :: _ => ","%char :: print_members l' end
  end.

(** The first character of the text of a value: not white space, and none
    of the closing brackets. *)
Definition opens_value (c : ascii) : bool :=
  negb (JSON.is_ws c) && negb (Ascii.eqb c "]") && negb (Ascii.eqb c "}").

(** The first character of the text of a number. *)
Definition opens_number (c : ascii) : bool :=
  match JSON.digit c with
  | Some _ => true
  | None => Ascii.eqb c "-"
  end.

(** The round trip of one value, in the form the nested induction needs:
    the text of the value, followed by any text that does not go on with a
    digit, parses to the value and leaves that text. *)
Definition round_trips (j : Json) : Prop :=
  json_wf j = true ->
  forall fuel rest,
    (weight j <= fuel)%nat -> no_digit_ahead rest ->
    JSON.parse_value fuel (JSON.print j ++ rest) = Some (j, rest).

(** What a call does once the cache is passed over: the producer is
    invoked once, and its result is stored unless it threw. *)
Definition fetch_and_store (refuses : Quota) (key : string) (producer : M Storage JsVal)
    (st : Storage) : Res JsVal * Storage * list Effect :=
  match producer st with
  | (Ok data, st1, es) =>
      (Ok data, state_after (SessionCache.setCached refuses key data st1), [Invoke es])
  | (Throw t, st1, es) => (Throw t, st1, [Invoke es])
  end.


(** ** Sequences of queue operations, as specified *)

(** The type and the action of the object are text. *)
Definition textual (o : Obj) : Prop :=
  text (get o "type") <> None /\ text (get o "action") <> None.

(** The argument of [add] either has no id or has a truthy one. *)
Definition id_absent_or_truthy (toast : Obj) : Prop :=
  toast !! "id" = None \/ truthy (get toast "id") = true.

Definition well_formed (op : Op) : Prop :=
  match op with
  | Add _ toast => textual toast /\ id_absent_or_truthy toast
  | Update _ updates => textual updates
  | _ => True
  end.

(** The argument [showSuccess] and [showError] hand to [add]. *)
Definition shown (status title_default : string) (message title : JsVal) : Obj :=
  list_to_map [("status", str status); ("title", or_default title title_default);
               ("message", message)].

(** One operation, and a sequence of operations applied from left to
    right: the queue that results and the values returned. *)
Definition spec_step (op : Op) (q : Toasts) : Toasts * JsVal :=
  match op with
  | Add generated toast => spec_add generated toast q
  | Update id updates => (spec_update id updates q, JsUndefined)
  | Remove id => (spec_remove id q, JsUndefined)
  | ShowSuccess generated message title =>
      (fst (spec_add generated (shown "complete" "Success" message title) q), JsUndefined)
  | ShowError generated message title =>
      (fst (spec_add generated (shown "error" "Error" message title) q), JsUndefined)
  end.

Fixpoint spec_run (ops : list Op) (q : Toasts) : Toasts * list JsVal :=
  match ops with
  | [] => (q, [])
  | op :: rest =>
      let '(q1, r) := spec_step op q in
      let '(q2, rs) := spec_run rest q1 in
      (q2, r :: rs)
  end.

(** Induction over values, with the hypothesis for every element of an
    array and every member of an object. *)
Section JsonInduction.

Variable P : Json -> Prop.
Hypothesis HNull : P JNull.
Hypothesis HBool : forall b, P (JBool b).
Hypothesis HNum : forall n, P (JNum n).
Hypothesis HStr : forall s, P (JStr s).
Hypothesis HArr : forall xs, List.Forall P xs -> P (JArr xs).
Hypothesis HObj : forall ms, List.Forall (fun kv => P (snd kv)) ms -> P (JObj ms).

Fixpoint Json_nested_ind (j : Json) : P j :=
  match j with
  | JNull => HNull
  | JBool b => HBool b
  | JNum n => HNum n
  | JStr s => HStr s
  | JArr xs =>
      HArr xs
        ((fix all (l : list Json) : List.Forall P l :=
            match l with
            | [] => @List.Forall_nil _ P
            | x :: l' => @List.Forall_cons _ P x l' (Json_nested_ind x) (all l')
            end) xs)
  | JObj ms =>
      HObj ms
        ((fix all (l : list (string * Json)) : List.Forall (fun kv => P (snd kv)) l :=
            match l with
            | [] => @List.Forall_nil _ _
            | kv :: l' =>
                @List.Forall_cons _ _ kv l' (Json_nested_ind (snd kv)) (all l')
            end) ms)
  end.

End JsonInduction.

(* ===================================================================== *)
(** * Vocabulary of the further statements                                *)
(* ===================================================================== *)

(** The requests issued at the top level of a trace, in order. *)
Definition requests (es : list Effect) : list Request :=
  List.flat_map (fun e => match e with Fetch r => [r] | _ => [] end) es.

(** ** Requests of the API client *)

(** The request [r] is the one to send for [endpoint] and [options] when
    the token resolved is [token]: the URL is the base followed by the
    endpoint, the method is the upper-cased method of the options (GET
    when they name none), the body is theirs; the bearer token, when there
    is one, is the [Authorization] header, whatever the caller supplied;
    the content type is JSON unless the body is form data, and then it is
    the caller's; every other header is the caller's. *)
Definition well_built (base : string) (token : option string) (endpoint : string)
    (options : Options) (r : Request) : Prop :=
  req_url r = base +:+ endpoint /\
  req_method r =
    toUpperCase (match opt_method options with
                 | Some m => if String.eqb m "" then "GET" else m
                 | None => "GET"
                 end) /\
  req_body r = opt_body options /\
  req_headers r !! "Authorization" =
    match token with
    | Some t => if String.eqb t "" then opt_headers options !! "Authorization"
                else Some ("Bearer " +:+ t)
    | None => opt_headers options !! "Authorization"
    end /\
  req_headers r !! "Content-Type" =
    match opt_body options with
    | FormData _ => opt_headers options !! "Content-Type"
    | _ => Some "application/json"
    end /\
  forall k, k <> "Authorization" -> k <> "Content-Type" ->
            req_headers r !! k = opt_headers options !! k.

(** The typed error that stands for a failure of the network. *)
Definition network_error (msg : string) (e : ApiError) : Prop :=
  status e = 0 /\
  message e = (if String.eqb msg "" then "Network error" else msg) /\
  isNetworkError e = true /\ isAuthError e = false /\ isServerError e = false.

(** A network that is down: every request is rejected with [msg]. *)
Definition down (msg : string) (env : Env) : Prop :=
  forall r, network env r = Rejected msg.




(** ** The notification queue, further *)

(** The ids of the entries of the queue, in order. *)
Definition ids (q : Toasts) : list JsVal := List.map (fun toast : Obj => get toast "id") q.

(** A value that [===] compares by value: [undefined], [null], a boolean,
    a number or a string. *)
Definition primitive (v : JsVal) : Prop := strict_eq v v = true.

(** ** Text *)

(** An ASCII character: a code below 128.  On these [toLowerCase] and
    [toUpperCase] change the letters A-Z and a-z and nothing else, and
    keep the length of the text. *)
Definition ascii_char (c : ascii) : bool := Nat.ltb (nat_of_ascii c) 128.

(** A text of ASCII characters only. *)
Definition ascii_text (s : string) : bool :=
  List.forallb ascii_char (list_ascii_of_string s).

(** ** Files *)

(** The lower-cased name ends in one of the allowed extensions. *)
Definition has_allowed_extension (name : string) : Prop :=
  exists base ext,
    List.In ext Helpers.allowedExtensions /\ toLowerCase name = base +:+ ext.

(** The size limit in force. *)
Definition size_limit (maxSize : option Z) : Z := default (25 * 1024 * 1024) maxSize.

(** The text holds no dot. *)
Definition dotless (s : string) : Prop := Helpers.lastIndexOf "." s = -1.

(** ** The notifications on screen *)

(** The headings of a notification that is complete. *)
Definition past_tenses : list string :=
  ["Uploaded"; "Archived"; "Restored"; "Deleted"; "Saved"; "Complete"].

(** The delay of the auto-dismiss timer, in milliseconds. *)
Definition dismiss_delay (isMobile : bool) : Z := if isMobile then 2000 else 5000.

(** The two convenience producers. *)
Inductive Producer : Type :=
  | Success
  | Failure.

Definition produce (p : Producer) : string -> JsVal -> JsVal -> M Toasts unit :=
  match p with
  | Success => showSuccess
  | Failure => showError
  end.

(** ** Pages *)

(** The entry holds the given texts in the given fields. *)
Definition holds (entry : Obj) (fields : list (string * string)) : Prop :=
  List.Forall (fun kv => get entry (fst kv) = str (snd kv)) fields.

(** The records that a call of the communication list delivered: none when
    the call threw, or returned a value that has no properties to read. *)
Definition records_of (call : Res JsVal * Storage * list Effect) : option JsVal :=
  match outcome call with
  | Ok response =>
      match member response "records" with
      | Ok records => Some records
      | Throw _ => None
      end
  | Throw _ => None
  end.

(** The status that the page asks the backend for. *)
Definition statusParam (st : CommunicationPage.State) : string :=
  if String.eqb (CommunicationPage.status_filter st) "all" then ""
  else CommunicationPage.status_filter st.

(** The record has the status. *)
Definition has_status (wanted : string) (record : Json) : bool :=
  match member (JsJson record) "status" with
  | Ok status => strict_eq status (str wanted)
  | Throw _ => false
  end.

(** A change of a record is reported: the handler [x] does not throw; when
    the call [call] of the backend threw, nothing is reloaded and one
    error notification with the text [failed] is appended; when it
    returned, a success notification with the text [succeeded] is
    appended, the list is reloaded, the loading flag ends down, and the
    only other notification that can follow is the one of a failed
    reload. *)
Definition reported (st : CommunicationPage.State)
    (call : Res JsVal * Storage * list Effect)
    (x : Res unit * CommunicationPage.State * list Effect)
    (generated generated' generated'' succeeded failed : string) : Prop :=
  outcome x = Ok tt /\
  match outcome call with
  | Throw _ =>
      effects_of x = effects_of call /\
      CommunicationPage.submissions (state_after x) = CommunicationPage.submissions st /\
      CommunicationPage.loading (state_after x) = CommunicationPage.loading st /\
      exists entry,
        CommunicationPage.toasts (state_after x) = CommunicationPage.toasts st ++ [entry] /\
        holds entry [("id", generated''); ("status", "error"); ("title", "Error");
                     ("message", failed)]
  | Ok _ =>
      CommunicationPage.loading (state_after x) = false /\
      exists entry rest,
        CommunicationPage.toasts (state_after x) =
          CommunicationPage.toasts st ++ entry :: rest /\
        holds entry [("id", generated); ("status", "complete"); ("title", "Success");
                     ("message", succeeded)] /\
        (rest = [] \/
         exists entry',
           rest = [entry'] /\
           holds entry' [("id", generated'); ("status", "error"); ("title", "Error");
                         ("message", "Failed to load submissions")])
  end.

(** The cache key of the knowledge base page. *)
Definition knowledge_key : string := "knowledge_base_all".

(** The storage on which the page consults the cache: the entry of the
    page is cleared first when the refresh is forced. *)
Definition consulted (forceRefresh : bool) (st : KnowledgeBasePage.State) : Storage :=
  if forceRefresh
  then state_after (clearCached knowledge_key (KnowledgeBasePage.storage st))
  else KnowledgeBasePage.storage st.

(** ** The password form *)

(** The text is empty or holds white space only. *)
Fixpoint only_spaces (s : string) : bool :=
  match s with
  | EmptyString => true
  | String c s' => UserSettings.is_space c && only_spaces s'
  end.

(** The form can be submitted: the current password is given, the new one
    is given and has at least six characters, and the confirmation is the
    new password again. *)
Definition acceptable (form : gmap string string) : Prop :=
  exists current new,
    form !! "currentPassword" = Some current /\ only_spaces current = false /\
    form !! "newPassword" = Some new /\ only_spaces new = false /\
    (6 <= String.length new)%nat /\
    form !! "confirmPassword" = Some new.

(* ===================================================================== *)
(** * Properties of the API client                                        *)
(* ===================================================================== *)

Import Api.

(** ** Error classification *)

(** C6.  For an API error with any status: [isAuthError] holds exactly for
    401 and 403, [isServerError] exactly from 500 up, [isNetworkError]
    exactly for 0, and no two of the three hold together; 401, 503 and 0
    fall in the three classes respectively. *)
Theorem ApiError_classification (e : ApiError) :
  (isAuthError e = true <-> status e = 401 \/ status e = 403) /\
  (isServerError e = true <-> status e >= 500) /\
  (isNetworkError e = true <-> status e = 0) /\
  (isAuthError e && isServerError e = false) /\
  (isAuthError e && isNetworkError e = false) /\
  (isServerError e && isNetworkError e = false) /\
  (status e = 401 -> isAuthError e = true) /\
  (status e = 503 -> isServerError e = true) /\
  (status e = 0 -> isNetworkError e = true).
Proof.
  unfold isAuthError, isServerError, isNetworkError.
  destruct e as [m s d]; simpl.
  rewrite orb_true_iff, !Z.eqb_eq, Z.geb_le.
  repeat split; lia.
Qed.

(** ** Running computations *)

Ltac run_m :=
  unfold mbind, M_bind, mret, M_ret, Js.bind, Js.ret, modify, emit, gets, throw,
    outcome, state_after, effects_of; simpl.


Lemma getToken_no_session st :
  sessionStorage st !! TOKEN_STORAGE_KEY = None ->
  getToken st = localStorage st !! TOKEN_STORAGE_KEY.
Proof. intros H. unfold getToken. now rewrite H. Qed.

Lemma present_Some t : t <> "" -> present (Some t) = true.
Proof. intros Ht. simpl. now destruct (String.eqb_spec t ""). Qed.

(** ** Logout *)

Lemma logout_run st :
  authApi_logout st =
  (Ok (JsJson (JObj [("status", JStr "success")])),
   mkStorage (delete "admin_user_info" (delete TOKEN_STORAGE_KEY (sessionStorage st)))
             (delete "admin_session" (localStorage st)),
   []).
Proof. reflexivity. Qed.

(** Logout issues no network call and empties the tab-scoped token. *)
Lemma logout_clears_session st :
  effects_of (authApi_logout st) = [] /\
  sessionStorage (state_after (authApi_logout st)) !! TOKEN_STORAGE_KEY = None /\
  sessionStorage (state_after (authApi_logout st)) !! "admin_user_info" = None.
Proof.
  rewrite logout_run. unfold effects_of, state_after. simpl.
  repeat split.
  - rewrite lookup_delete_ne by discriminate. apply lookup_delete_eq.
  - apply lookup_delete_eq.
Qed.

(** With no token in persistent storage, nobody is logged in afterwards. *)
Lemma logout_session_only st :
  localStorage st !! TOKEN_STORAGE_KEY = None ->
  authApi_isLoggedIn (state_after (authApi_logout st)) = false.
Proof.
  intros H. rewrite logout_run. unfold state_after, authApi_isLoggedIn. simpl.
  rewrite getToken_no_session; simpl.
  - rewrite lookup_delete_ne by discriminate. now rewrite H.
  - rewrite lookup_delete_ne by discriminate. apply lookup_delete_eq.
Qed.

(** A token in persistent storage survives logout and is resolved again. *)
Lemma logout_persistent st t :
  localStorage st !! TOKEN_STORAGE_KEY = Some t -> t <> "" ->
  getToken (state_after (authApi_logout st)) = Some t /\
  authApi_isLoggedIn (state_after (authApi_logout st)) = true.
Proof.
  intros H Ht. rewrite logout_run. unfold state_after, authApi_isLoggedIn. simpl.
  assert (E : getToken
                (mkStorage
                   (delete "admin_user_info"
                      (delete TOKEN_STORAGE_KEY (sessionStorage st)))
                   (delete "admin_session" (localStorage st))) = Some t).
  { rewrite getToken_no_session; simpl.
    - rewrite lookup_delete_ne by discriminate. exact H.
    - rewrite lookup_delete_ne by discriminate. apply lookup_delete_eq. }
  rewrite E. split; [reflexivity | now apply present_Some].
Qed.

(** C7.  The code at the failing input: with the token held in persistent
    storage, [logout()] succeeds without any effect on the network, empties
    the tab-scoped entries, and leaves the persistent token in place, so
    that [isLoggedIn()] is still true afterwards. *)
Theorem logout_keeps_remembered_token :
  let x := authApi_logout (remembered "jwt") in
  outcome x = Ok (JsJson (JObj [("status", JStr "success")])) /\
  effects_of x = [] /\
  sessionStorage (state_after x) !! TOKEN_STORAGE_KEY = None /\
  localStorage (state_after x) !! TOKEN_STORAGE_KEY = Some "jwt" /\
  getToken (state_after x) = Some "jwt" /\
  authApi_isLoggedIn (state_after x) = true.
Proof. vm_compute. repeat split; reflexivity. Qed.

(** ** Token refresh *)


Lemma handleTokenRefresh_none st response :
  present (headers_get response "X-New-Token") = false ->
  handleTokenRefresh response st = (Ok tt, st, []).
Proof. intros H. unfold handleTokenRefresh. now rewrite H. Qed.




(** ** Responses with status 401 *)

Lemma ok_401 response : resp_status response = 401 -> ok response = false.
Proof. intros H. unfold ok. now rewrite H. Qed.

(** What the 401 branch does for every state and every 401 response: the
    tab-scoped token and user info are removed, [auth:expired] is the one
    event dispatched, persistent storage is not touched, and the error
    thrown is the typed one with status 401 unless the body is the JSON
    text [null]. *)
Lemma handleResponse_401 st response :
  resp_status response = 401 ->
  let x := handleResponse response st in
  effects_of x = [DispatchEvent "auth:expired" (JsJson JNull)] /\
  sessionStorage (state_after x) !! TOKEN_STORAGE_KEY = None /\
  sessionStorage (state_after x) !! "admin_user_info" = None /\
  localStorage (state_after x) = localStorage st /\
  (JSON.parse (resp_body response) <> Some JNull ->
   exists msg d, outcome x = Throw (ThrownApiError (mkApiError msg 401 d))).
Proof.
  intros H x. subst x. unfold handleResponse, handleTokenRefresh.
  rewrite (ok_401 _ H), H.
  destruct (present (headers_get response "X-New-Token")); run_m;
    (destruct (detail_of (default (JObj []) (JSON.parse (resp_body response)))) eqn:D;
     simpl; repeat split;
     try (rewrite lookup_delete_ne by discriminate; apply lookup_delete_eq);
     try apply lookup_delete_eq;
     [ intros _; eauto
     | intros Hb; exfalso;
       destruct (JSON.parse (resp_body response)) as [[]|]; simpl in D;
       try discriminate; now apply Hb ]).
Qed.

(** C2.  The code at the failing input: the token is held in both storage
    areas and a request is answered with 401.  The client removes the
    tab-scoped token and user info, dispatches [auth:expired] and throws
    the typed error with status 401; the persistent token is left in
    place, so that [isLoggedIn()] is still true afterwards. *)
Theorem expired_session_keeps_remembered_token :
  let st0 :=
    mkStorage {[ TOKEN_STORAGE_KEY := "jwt"; "admin_user_info" := "{}" ]}
              {[ TOKEN_STORAGE_KEY := "jwt" ]} in
  let x := projects_get rejecting st0 in
  outcome x =
    Throw (ThrownApiError
             (mkApiError "Token expired" 401
                (JsJson (JObj [("detail", JStr "Token expired")])))) /\
  List.filter (fun e => negb (is_fetch e)) (effects_of x) =
    [DispatchEvent "auth:expired" (JsJson JNull)] /\
  sessionStorage (state_after x) !! TOKEN_STORAGE_KEY = None /\
  sessionStorage (state_after x) !! "admin_user_info" = None /\
  getToken (state_after x) = Some "jwt" /\
  authApi_isLoggedIn (state_after x) = true.
Proof. vm_compute. repeat split; reflexivity. Qed.


(** ** Substring tests on request paths *)

Lemma includes_cons n c s :
  includes n (String c s) = String.prefix n (String c s) || includes n s.
Proof. reflexivity. Qed.

Lemma prefix_nil s : String.prefix EmptyString s = true.
Proof. now destruct s. Qed.

Lemma prefix_cons_eq a n s :
  String.prefix (String a n) (String a s) = String.prefix n s.
Proof. simpl. destruct (ascii_dec a a); [reflexivity | contradiction]. Qed.

Lemma prefix_cons_ne a b n s :
  a <> b -> String.prefix (String a n) (String b s) = false.
Proof. intros H. simpl. destruct (ascii_dec a b); [contradiction | reflexivity]. Qed.

Lemma slash_free_cons c s :
  slash_free (String c s) = true -> c <> "/"%char /\ slash_free s = true.
Proof.
  simpl. intros H. apply andb_true_iff in H as [H1 H2]. split; [|exact H2].
  intros ->. discriminate H1.
Qed.

(** A fragment that starts with a slash does not start inside text that
    holds none. *)
Lemma includes_skip n s t :
  slash_free s = true ->
  includes (String "/" n) (s +:+ t) = includes (String "/" n) t.
Proof.
  induction s as [|c s IH]; intros H; [reflexivity|].
  apply slash_free_cons in H as [Hc Hs].
  change (String c s +:+ t) with (String c (s +:+ t)).
  rewrite includes_cons, prefix_cons_ne by congruence.
  now rewrite IH.
Qed.

Lemma includes_slash_free n s :
  slash_free s = true -> includes (String "/" n) s = false.
Proof.
  induction s as [|c s IH]; intros H; [reflexivity|].
  apply slash_free_cons in H as [Hc Hs].
  rewrite includes_cons, prefix_cons_ne by congruence.
  now rewrite IH.
Qed.

(** Matching [a/b] against slash-free text followed by nothing or by a
    slash: the text has to be [a] itself. *)
Lemma prefix_segment a b s t :
  slash_free a = true -> slash_free s = true ->
  (t = EmptyString \/ exists t', t = String "/" t') ->
  String.prefix (a +:+ String "/" b) (s +:+ t) =
  String.eqb a s && String.prefix (String "/" b) t.
Proof.
  intros Ha Hs Ht. revert s Hs.
  induction a as [|x a IH]; intros s Hs.
  - destruct s as [|c s]; [reflexivity|].
    apply slash_free_cons in Hs as [Hc _].
    change (String.prefix (String "/" b) (String c (s +:+ t)) = false).
    apply prefix_cons_ne. congruence.
  - apply slash_free_cons in Ha as [Hx Ha].
    destruct s as [|c s].
    + change (String.prefix (String x (a +:+ String "/" b)) t = false).
      destruct Ht as [-> | [t' ->]]; [reflexivity|].
      now apply prefix_cons_ne.
    + apply slash_free_cons in Hs as [Hc Hs].
      change (String.prefix (String x (a +:+ String "/" b)) (String c (s +:+ t))
              = String.eqb (String x a) (String c s) && String.prefix (String "/" b) t).
      simpl String.eqb.
      destruct (Ascii.eqb_spec x c) as [->|Hne].
      * rewrite prefix_cons_eq. now apply IH.
      * now rewrite prefix_cons_ne.
Qed.

Lemma append_empty_r s : s +:+ EmptyString = s.
Proof.
  induction s as [|c s IH]; [reflexivity|].
  change (String c (s +:+ EmptyString) = String c s). now rewrite IH.
Qed.

Lemma slash_free_encodeURIComponent s : slash_free (encodeURIComponent s) = true.
Proof.
  induction s as [|c s IH]; [reflexivity|].
  simpl. destruct (uri_unreserved c) eqn:U.
  - simpl. rewrite IH, andb_true_r.
    destruct (Ascii.eqb_spec c "/") as [->|]; [discriminate U | reflexivity].
  - cbn [slash_free]. rewrite IH, !andb_true_r.
    clear. destruct c as [[] [] [] [] [] [] [] []]; reflexivity.
Qed.

Lemma slash_free_uint d : slash_free (NilEmpty.string_of_uint d) = true.
Proof. induction d; simpl; auto. Qed.

Lemma slash_free_string_of_Z n : slash_free (string_of_Z n) = true.
Proof.
  unfold string_of_Z. destruct (Z.to_int n); simpl; apply slash_free_uint.
Qed.

Lemma append_cons c s t : String c s +:+ t = String c (s +:+ t).
Proof. reflexivity. Qed.

Lemma append_nil t : EmptyString +:+ t = t.
Proof. reflexivity. Qed.

(** Substring tests against text whose head is a literal. *)
Ltac crunch_includes :=
  repeat first
    [ rewrite prefix_cons_eq
    | rewrite prefix_cons_ne by discriminate
    | rewrite prefix_nil
    | rewrite includes_cons
    | rewrite orb_false_l
    | rewrite orb_true_l ].

(** ** Demo mode *)

Lemma getMockResponse_run endpoint st :
  getMockResponse endpoint st =
  (Ok (JsJson (first_match endpoint)), st, [SetTimeout 200 500]).
Proof.
  unfold getMockResponse, first_match, fragments. run_m.
  repeat (match goal with
          | |- context [includes ?n endpoint] => destruct (includes n endpoint)
          end; try reflexivity).
Qed.

Lemma apiRequest_demo env endpoint options st :
  isDemoMode st = true ->
  apiRequest env endpoint options st =
  (Ok (JsJson (first_match endpoint)), st, [SetTimeout 200 500]).
Proof.
  intros H. unfold apiRequest. run_m. rewrite H, getMockResponse_run. reflexivity.
Qed.

Lemma healthApi_check_demo env st :
  isDemoMode st = true -> healthApi_check env st = (Ok true, st, []).
Proof. intros H. unfold healthApi_check. run_m. now rewrite H. Qed.

Lemma perform_demo env c st :
  isDemoMode st = true -> c <> HealthCheck ->
  perform env c st =
  (Ok (JsJson (first_match (path_of c))), st, [SetTimeout 200 500]).
Proof.
  intros H Hc.
  destruct c; try contradiction; simpl;
    unfold systemInstructionsApi_get, systemInstructionsApi_save, dashboard_getStats,
      dashboard_getActivity, dashboard_getWeekly, knowledge_getAll,
      knowledge_getCategories, knowledge_get, knowledge_save, contacts_get,
      contacts_save, communication_getAll, communication_updateStatus,
      communication_delete, projects_get, projects_save, projects_uploadImage;
    rewrite apiRequest_demo by exact H; try reflexivity.
  match goal with
  | |- context [String.eqb ?s EmptyString] => destruct (String.eqb s EmptyString)
  end; reflexivity.
Qed.

Lemma first_match_activity s :
  slash_free s = true ->
  first_match ("/api/v1/dashboard/activity?limit=" +:+ s) = canned DashboardActivity.
Proof.
  intros Hs. unfold first_match, fragments. cbn [List.find fst].
  rewrite !append_cons, append_nil.
  crunch_includes.
  rewrite includes_slash_free by exact Hs. reflexivity.
Qed.

Lemma first_match_knowledge enc suffix :
  slash_free enc = true ->
  (suffix = EmptyString \/ suffix = "/save") ->
  first_match ("/api/v1/knowledge/" +:+ enc +:+ suffix) = canned Knowledge.
Proof.
  intros He Hsuf.
  assert (Hseg : forall x,
             String.prefix (String "/" x) suffix = false ->
             includes (String "/" x) suffix = false ->
             String.prefix ("dashboard" +:+ String "/" x) (enc +:+ suffix)
             || includes ("/dashboard/" +:+ x) (enc +:+ suffix) = false).
  { intros x Hp Hi.
    rewrite prefix_segment; [| reflexivity | exact He |].
    - change ("/dashboard/" +:+ x) with (String "/" ("dashboard/" +:+ x)).
      rewrite includes_skip by exact He.
      rewrite Hp, andb_false_r. simpl.
      destruct Hsuf as [-> | ->]; reflexivity.
    - destruct Hsuf as [-> | ->]; [now left | right; now eexists]. }
  unfold first_match, fragments. cbn [List.find fst].
  rewrite !append_cons, append_nil.
  crunch_includes.
  change (String.prefix "dashboard/stats" (enc +:+ suffix))
    with (String.prefix ("dashboard" +:+ String "/" "stats") (enc +:+ suffix)).
  change (includes "/dashboard/stats" (enc +:+ suffix))
    with (includes ("/dashboard/" +:+ "stats") (enc +:+ suffix)).
  rewrite (Hseg "stats") by (destruct Hsuf as [-> | ->]; reflexivity).
  change (String.prefix "dashboard/activity" (enc +:+ suffix))
    with (String.prefix ("dashboard" +:+ String "/" "activity") (enc +:+ suffix)).
  change (includes "/dashboard/activity" (enc +:+ suffix))
    with (includes ("/dashboard/" +:+ "activity") (enc +:+ suffix)).
  rewrite (Hseg "activity") by (destruct Hsuf as [-> | ->]; reflexivity).
  change (String.prefix "dashboard/weekly" (enc +:+ suffix))
    with (String.prefix ("dashboard" +:+ String "/" "weekly") (enc +:+ suffix)).
  change (includes "/dashboard/weekly" (enc +:+ suffix))
    with (includes ("/dashboard/" +:+ "weekly") (enc +:+ suffix)).
  rewrite (Hseg "weekly") by (destruct Hsuf as [-> | ->]; reflexivity).
  reflexivity.
Qed.

Lemma first_match_settled c :
  c <> HealthCheck -> settled c = true ->
  first_match (path_of c) = canned (group_of c).
Proof.
  intros Hc Hs. destruct c; try contradiction; try reflexivity.
  - (* dashboard activity *)
    destruct limit as [|[]]; try discriminate Hs; [reflexivity|].
    apply first_match_activity, slash_free_string_of_Z.
  - (* knowledge, by category *)
    cbn [path_of group_of].
    rewrite <- (append_empty_r (encodeURIComponent category)).
    apply first_match_knowledge; [apply slash_free_encodeURIComponent | now left].
  - (* knowledge save *)
    cbn [path_of group_of].
    apply first_match_knowledge; [apply slash_free_encodeURIComponent | now right].
  - (* communication list *)
    simpl in Hs. rewrite !orb_true_iff, !String.eqb_eq in Hs.
    destruct Hs as [-> | [-> | [-> | [-> | Hf]]]];
      [reflexivity | reflexivity | reflexivity | reflexivity | discriminate Hf].
  - discriminate Hs.
  - discriminate Hs.
Qed.

Lemma isDemoMode_sentinel st :
  getToken st = Some "TEST_TOKEN_DEMO_MODE" -> isDemoMode st = true.
Proof. intros H. unfold isDemoMode. now rewrite H. Qed.

(** C4, as stated, fails twice in demo mode: the health check returns at
    once, with no wait; and deleting the communication record whose id is
    the word knowledge returns the canned response of the knowledge group,
    because its path contains that fragment. *)
Lemma demo_isolation_fails :
  ~ demo_isolated offline HealthCheck demo_state /\
  ~ demo_isolated offline (CommunicationDelete "knowledge") demo_state.
Proof.
  split; intros (H1 & H2 & H3).
  - vm_compute in H3. discriminate H3.
  - vm_compute in H2. discriminate H2.
Qed.

(** C4, amended.  When the resolved token is the demo sentinel, no call of
    any endpoint group reaches the network or changes storage.  The health
    check returns true at once, with no wait.  Every other call waits once
    (between 200 and 500 ms) and returns the canned response selected by
    the first of the fragments of [fragments] that occurs in its request
    path.  For the calls of [settled] (fixed paths, knowledge calls with
    any category, dashboard activity with a numeric or omitted limit, the
    communication list with a documented status) this is the canned
    response of the group the call belongs to. *)
Theorem demo_mode_isolation env c st :
  getToken st = Some "TEST_TOKEN_DEMO_MODE" ->
  let x := perform env c st in
  state_after x = st /\
  List.existsb is_fetch (effects_of x) = false /\
  (c = HealthCheck ->
   outcome x = Ok (JsJson (JBool true)) /\ effects_of x = []) /\
  (c <> HealthCheck ->
   outcome x = Ok (JsJson (first_match (path_of c))) /\
   effects_of x = [SetTimeout 200 500]) /\
  (settled c = true -> outcome x = Ok (JsJson (canned (group_of c)))).
Proof.
  intros Ht x. apply isDemoMode_sentinel in Ht.
  assert (Hh : perform env HealthCheck st = (Ok (JsJson (JBool true)), st, [])).
  { simpl. run_m. now rewrite healthApi_check_demo. }
  assert (Hd : c = HealthCheck \/ c <> HealthCheck)
    by (destruct c; (now left) || (right; discriminate)).
  subst x. destruct Hd as [-> | Hc].
  - rewrite Hh. unfold state_after, effects_of, outcome. simpl.
    split; [reflexivity|]. split; [reflexivity|]. split; [now intros _|].
    split; [intros Hne; now contradiction Hne | now intros _].
  - rewrite (perform_demo env c st Ht Hc).
    unfold state_after, effects_of, outcome. simpl.
    split; [reflexivity|]. split; [reflexivity|]. split; [intros ->; now contradiction Hc|].
    split; [now intros _|].
    intros Hs. now rewrite (first_match_settled c Hc Hs).
Qed.

Lemma demo_mode_isolation_witness :
  let x := perform offline (KnowledgeGet "about me") demo_state in
  state_after x = demo_state /\
  List.existsb is_fetch (effects_of x) = false /\
  outcome x = Ok (JsJson (canned Knowledge)).
Proof.
  pose proof (demo_mode_isolation offline (KnowledgeGet "about me") demo_state eq_refl)
    as (H1 & H2 & _ & _ & H5).
  split; [exact H1 | split; [exact H2 | exact (H5 eq_refl)]].
Defined.

(** ** Session teardown when the token is tab-scoped *)



(** X3.  When persistent storage holds no token, [logout()] ends the
    session without touching the network: it succeeds, has no effect but
    on storage, and [isLoggedIn()] is false afterwards. *)
Theorem logout_ends_tab_session st :
  localStorage st !! TOKEN_STORAGE_KEY = None ->
  let x := authApi_logout st in
  outcome x = Ok (JsJson (JObj [("status", JStr "success")])) /\
  effects_of x = [] /\
  getToken (state_after x) = None /\
  authApi_isLoggedIn (state_after x) = false.
Proof.
  intros H x. subst x.
  pose proof (logout_session_only st H) as L.
  destruct (logout_clears_session st) as (E & S & _).
  split; [now rewrite logout_run|]. split; [exact E|]. split; [|exact L].
  rewrite getToken_no_session by exact S.
  rewrite logout_run. unfold state_after. simpl.
  rewrite lookup_delete_ne by discriminate. exact H.
Qed.

Lemma logout_ends_tab_session_witness :
  let x := authApi_logout (signed_in "jwt") in
  getToken (state_after x) = None /\ authApi_isLoggedIn (state_after x) = false.
Proof.
  pose proof (logout_ends_tab_session (signed_in "jwt") eq_refl) as H.
  destruct H as (_ & _ & H3 & H4).
  split; [exact H3 | exact H4].
Defined.

(* ===================================================================== *)
(** * Properties of the notification queue                                *)
(* ===================================================================== *)

(** ** Values and merges *)

Lemma strict_eq_true a b : strict_eq a b = true -> a = b.
Proof.
  destruct a as [|[]], b as [|[]]; simpl; intros H; try discriminate H; try reflexivity.
  - apply eqb_prop in H. now subst.
  - apply Z.eqb_eq in H. now subst.
  - apply String.eqb_eq in H. now subst.
Qed.

(** Last write wins, field by field. *)
Lemma get_spread (a b : Obj) k :
  get (spread a b) k = match b !! k with Some v => v | None => get a k end.
Proof.
  unfold get, spread. rewrite lookup_union.
  destruct (b !! k), (a !! k); reflexivity.
Qed.

Lemma spread_spread (a b c : Obj) : spread (spread a b) c = spread a (spread b c).
Proof. unfold spread. apply (assoc_L (∪)). Qed.

(** ** add *)

(** The entry built by [addToast] is the argument completed by the
    defaults: a field of the argument wins whatever its value, and the
    guards [toast.f || default] only ever supply the default of a field
    the argument does not have. *)
Lemma entry_defaults generated (toast : Obj) :
  spread
    (list_to_map
       [("id", or_else (get toast "id") (str generated));
        ("status", or_else (get toast "status") (str "pending"));
        ("progress", or_else (get toast "progress") (JsJson (JNum 0)));
        ("title", or_else (get toast "title") (str ""));
        ("message", or_else (get toast "message") (str ""));
        ("fileName", or_else (get toast "fileName") (str ""));
        ("action", or_else (get toast "action") (str ""));
        ("type", or_else (get toast "type") (str ""));
        ("bulkProgress", or_else (get toast "bulkProgress") (JsJson JNull))])
    toast
  = spec_entry generated toast.
Proof.
  unfold spread, spec_entry, defaults. apply map_eq. intros k.
  rewrite !lookup_union.
  destruct (toast !! k) as [v|] eqn:E.
  - now rewrite !union_Some_l.
  - rewrite !(left_id_L None (∪)). simpl list_to_map. rewrite !lookup_insert.
    repeat case_decide; subst; unfold get; rewrite ?E; reflexivity.
Qed.

Lemma addToast_run generated (toast : Obj) q :
  addToast generated toast q =
  (Ok (or_else (get toast "id") (str generated)), q ++ [spec_entry generated toast], []).
Proof. unfold addToast. cbv zeta. rewrite entry_defaults. reflexivity. Qed.

(** [add] returns the id of the entry it appends whenever the argument
    carries no id or a truthy one. *)
Lemma addToast_returns_entry_id generated (toast : Obj) q :
  toast !! "id" = None \/ truthy (get toast "id") = true ->
  returned (addToast generated toast q) = get (spec_entry generated toast) "id".
Proof.
  intros H. rewrite addToast_run. unfold returned, outcome, spec_entry. simpl.
  change (toast ∪ defaults generated) with (spread (defaults generated) toast).
  rewrite get_spread. unfold or_else, get.
  destruct (toast !! "id") as [v|] eqn:E.
  - destruct H as [H|H]; [discriminate H|]. unfold get in H. rewrite E in H.
    simpl in *. now rewrite H.
  - reflexivity.
Qed.

Lemma addToast_matches_spec generated (toast : Obj) q :
  toast !! "id" = None \/ truthy (get toast "id") = true ->
  (state_after (addToast generated toast q), returned (addToast generated toast q)) =
  spec_add generated toast q.
Proof.
  intros H. rewrite (addToast_returns_entry_id _ _ _ H), addToast_run. reflexivity.
Qed.


(** ** update and remove *)

Ltac break_match :=
  match goal with
  | H : context [match ?x with _ => _ end] |- _ => destruct x eqn:?
  | |- context [match ?x with _ => _ end] => destruct x eqn:?
  end.

Lemma count_id_cons id (toast : Obj) q :
  count_id id (toast :: q) =
  ((if strict_eq (get toast "id") id then 1 else 0) + count_id id q)%nat.
Proof. unfold count_id. simpl. now destruct (strict_eq (get toast "id") id). Qed.

Lemma count_id_app id q1 q2 :
  count_id id (q1 ++ q2) = (count_id id q1 + count_id id q2)%nat.
Proof. unfold count_id. now rewrite List.filter_app, List.length_app. Qed.

Lemma count_id_zero_cons id (toast : Obj) q :
  count_id id (toast :: q) = 0%nat ->
  strict_eq (get toast "id") id = false /\ count_id id q = 0%nat.
Proof.
  rewrite count_id_cons. destruct (strict_eq (get toast "id") id); [discriminate|].
  now split.
Qed.

Lemma update_entry_other id updates (toast : Obj) :
  strict_eq (get toast "id") id = false -> update_entry id updates toast = (Ok toast, []).
Proof. intros H. unfold update_entry. now rewrite H. Qed.

(** Whenever the callback returns, it returns the merged entry for an
    entry with the id and the entry itself otherwise. *)
Lemma update_entry_ok id updates (toast toast' : Obj) es :
  update_entry id updates toast = (Ok toast', es) ->
  toast' = if strict_eq (get toast "id") id then spread toast updates else toast.
Proof.
  unfold update_entry. intros H.
  repeat break_match; congruence.
Qed.

Lemma map_entries_absent id updates q :
  count_id id q = 0%nat -> map_entries (update_entry id updates) q = (Ok q, []).
Proof.
  induction q as [|toast q IH]; intros H; [reflexivity|].
  apply count_id_zero_cons in H as [H1 H2].
  simpl. now rewrite (update_entry_other _ _ _ H1), (IH H2).
Qed.

(** [update] on an id that is not in the queue changes nothing, dispatches
    nothing and does not throw. *)
Lemma updateToast_absent id updates q :
  count_id id q = 0%nat -> updateToast id updates q = (Ok tt, q, []).
Proof. intros H. unfold updateToast. now rewrite map_entries_absent. Qed.

(** C1.  The code at the failing input: the argument of [add] has an [id]
    property that holds [undefined].  The call returns the generated id,
    the entry it appends has [undefined] as its id, and an update
    addressed to the returned id finds no entry: the queue stays as it
    was and the title is not changed. *)
Theorem add_returns_an_id_the_entry_does_not_have :
  let toast : Obj := list_to_map [("id", JsUndefined); ("title", str "Upload")] in
  let added := addToast "g1" toast [] in
  returned added = str "g1" /\
  List.map (fun entry : Obj => get entry "id") (state_after added) = [JsUndefined] /\
  returned added <> get (spec_entry "g1" toast) "id" /\
  state_after (updateToast (returned added) (list_to_map [("title", str "Done")])
                 (state_after added))
  = state_after added.
Proof.
  cbv zeta.
  split; [vm_compute; reflexivity|].
  split; [vm_compute; reflexivity|].
  split; [vm_compute; discriminate|].
  rewrite updateToast_absent; [reflexivity | vm_compute; reflexivity].
Qed.

Lemma removeToast_run id q : removeToast id q = (Ok tt, spec_remove id q, []).
Proof. reflexivity. Qed.

(** [remove] on an id that is not in the queue changes nothing. *)
Lemma removeToast_absent id q :
  count_id id q = 0%nat -> removeToast id q = (Ok tt, q, []).
Proof.
  intros H. rewrite removeToast_run. do 2 f_equal. unfold spec_remove.
  induction q as [|toast q IH]; [reflexivity|].
  apply count_id_zero_cons in H as [H1 H2].
  simpl. rewrite H1. simpl. now rewrite (IH H2).
Qed.

Lemma map_entries_spec id updates q q' es :
  map_entries (update_entry id updates) q = (Ok q', es) -> q' = spec_update id updates q.
Proof.
  revert q' es. induction q as [|toast q IH]; intros q' es H; simpl in H.
  - now inversion H.
  - destruct (update_entry id updates toast) as [[toast'|t] es1] eqn:E; [|discriminate H].
    destruct (map_entries (update_entry id updates) q) as [[rest|t] es2] eqn:E2;
      [|discriminate H].
    inversion H; subst. simpl. rewrite (IH _ _ eq_refl).
    now rewrite (update_entry_ok _ _ _ _ _ E).
Qed.

(** Whenever [update] returns, the queue is the one the specification
    describes; when it throws, the queue is left as it was. *)
Lemma updateToast_spec id updates q :
  (outcome (updateToast id updates q) = Ok tt /\
   state_after (updateToast id updates q) = spec_update id updates q) \/
  ((exists t, outcome (updateToast id updates q) = Throw t) /\
   state_after (updateToast id updates q) = q).
Proof.
  unfold updateToast.
  destruct (map_entries (update_entry id updates) q) as [[q'|t] es] eqn:E.
  - left. split; [reflexivity|]. apply (map_entries_spec _ _ _ _ _ E).
  - right. split; [now exists t | reflexivity].
Qed.

(** Two updates of one entry in a row amount to one update with the later
    fields laid over the earlier ones. *)
Lemma spec_update_twice id u1 u2 q :
  u1 !! "id" = None ->
  spec_update id u2 (spec_update id u1 q) = spec_update id (spread u1 u2) q.
Proof.
  intros Hid. unfold spec_update. rewrite List.map_map. apply List.map_ext.
  intros entry. destruct (strict_eq (get entry "id") id) eqn:E.
  - assert (E' : get (u1 ∪ entry) "id" = get entry "id").
    { change (u1 ∪ entry) with (spread entry u1). now rewrite get_spread, Hid. }
    rewrite E', E. unfold spread. apply (assoc_L (∪)).
  - now rewrite E.
Qed.

(** ** The broadcast of a completed operation *)

Lemma includes_either_text s a b :
  includes_either (str s) a b = Ok (includes a s || includes b s).
Proof. unfold includes_either. simpl. now destruct (includes a s). Qed.

(** The code tests the status the update carries; this is the same as
    testing the status after the merge. *)
Lemma completes_iff (updates toast : Obj) :
  completes updates toast =
  strict_eq (get updates "status") (str "complete")
  && negb (strict_eq (get toast "status") (str "complete")).
Proof.
  unfold completes. rewrite get_spread.
  change (get updates "status") with (default JsUndefined (updates !! "status")).
  destruct (updates !! "status") as [v|]; simpl; [reflexivity|].
  now destruct (strict_eq (get toast "status") (str "complete")).
Qed.

Lemma eventType_text (toast : Obj) ty ac :
  text (get toast "type") = Some ty -> text (get toast "action") = Some ac ->
  eventType toast = Ok (str (label ty ac)).
Proof.
  unfold eventType, label. intros Ht Ha.
  assert (Hact : match get toast "action" with
                 | JsUndefined => Ok (str "")
                 | JsJson JNull => Ok (str "")
                 | JsJson (JStr action) => Ok (or_else (str (toLowerCase action)) (str ""))
                 | _ => Throw (ThrownError "TypeError"
                                 "toast.action?.toLowerCase is not a function")
                 end = Ok (str (toLowerCase ac))).
  { destruct (get toast "action") as [|[]]; simpl in Ha; inversion Ha; subst;
      try reflexivity.
    unfold or_else. simpl. now destruct (String.eqb_spec (toLowerCase ac) ""); [rewrite e|]. }
  destruct (get toast "type") as [|[]]; simpl in Ht; inversion Ht; subst; simpl;
    try exact Hact.
  destruct (String.eqb_spec ty ""); simpl; [exact Hact | reflexivity].
Qed.

(** The callback on an entry with the id whose type and action are text:
    the entry is merged, and one [data-changed] event is dispatched,
    tagged with the category of the entry as it was before the merge, when
    the merge completes the entry and a keyword matches. *)
Lemma update_entry_text id updates (toast : Obj) ty ac :
  strict_eq (get toast "id") id = true ->
  text (get toast "type") = Some ty -> text (get toast "action") = Some ac ->
  update_entry id updates toast =
  (Ok (spread toast updates),
   if completes updates toast then broadcasts (category_of (label ty ac)) else []).
Proof.
  intros Hid Ht Ha. unfold update_entry. rewrite Hid, <- completes_iff.
  destruct (completes updates toast); [|reflexivity].
  rewrite (eventType_text _ _ _ Ht Ha), !includes_either_text.
  unfold category_of, keywords. cbn [List.find List.existsb snd].
  rewrite !orb_false_r.
  repeat (match goal with
          | |- context [includes ?a ?s || includes ?b ?s] =>
              destruct (includes a s || includes b s)
          end; try reflexivity).
Qed.

(** C5, as stated, fails.  In scenario A the update completes the entry
    and supplies the type [upload], and nothing is broadcast: the code
    reads the type the entry had before the merge.  And a broadcast is
    made although none of the four keywords occurs: an entry whose action
    is Archiving is tagged [archive] on completion. *)
Lemma scenario_A_no_broadcast :
  (List.map (fun entry : Obj => (get entry "status", get entry "type"))
     (state_after scenario_A) = [(str "complete", str "upload")] /\
   effects_of scenario_A = [] /\
   effects_of scenario_A <> [data_changed "upload"]) /\
  (effects_of scenario_archiving = [data_changed "archive"] /\
   List.existsb (fun k => includes k (toLowerCase "Archiving")) stated_keywords = false).
Proof.
  vm_compute. repeat split; try reflexivity. discriminate.
Qed.

(** C5, amended.  [update(id, partialUpdate)] on a queue that holds one
    entry with the id, whose type and action are text: the entry is
    replaced by the merge, in place.  If the merge takes the status from a
    value other than complete to complete, and the type the entry had
    before the merge (or, when that is empty, its lower-cased action)
    contains upload, uploading, archive, archiving, restore, restoring,
    delete or deleting, exactly one [data-changed] event is dispatched,
    tagged with the first category (upload, archive, restore, delete) that
    has a word in the text; otherwise no event is dispatched. *)
Theorem update_broadcasts_category id updates (toast : Obj) ty ac pre post :
  strict_eq (get toast "id") id = true ->
  text (get toast "type") = Some ty ->
  text (get toast "action") = Some ac ->
  count_id id pre = 0%nat ->
  count_id id post = 0%nat ->
  updateToast id updates (pre ++ toast :: post) =
  (Ok tt,
   pre ++ spread toast updates :: post,
   if completes updates toast then broadcasts (category_of (label ty ac)) else []).
Proof.
  intros Hid Ht Ha Hpre Hpost. unfold updateToast.
  assert (E : map_entries (update_entry id updates) (pre ++ toast :: post) =
              (Ok (pre ++ spread toast updates :: post),
               if completes updates toast
               then broadcasts (category_of (label ty ac)) else [])).
  { induction pre as [|p pre IH].
    - simpl. rewrite (update_entry_text _ _ _ _ _ Hid Ht Ha).
      rewrite (map_entries_absent _ _ _ Hpost). now rewrite app_nil_r.
    - apply count_id_zero_cons in Hpre as [Hp Hpre].
      simpl. rewrite (update_entry_other _ _ _ Hp), (IH Hpre). reflexivity. }
  now rewrite E.
Qed.

(** Scenario A with the type given when the entry is added: the update
    that completes the entry broadcasts [upload]. *)
Lemma update_broadcasts_category_witness :
  let entry : Obj :=
    spec_entry "X"
      (list_to_map [("title", str "Upload"); ("status", str "pending");
                    ("type", str "upload")]) in
  let updates : Obj := list_to_map [("status", str "complete")] in
  updateToast (str "X") updates [entry] =
  (Ok tt, [spread entry updates], [data_changed "upload"]).
Proof.
  intros entry updates.
  exact (update_broadcasts_category (str "X") updates entry "upload" "" [] []
           eq_refl eq_refl eq_refl eq_refl eq_refl).
Defined.

Lemma scenario_A_typed_broadcasts :
  List.map (fun entry : Obj => get entry "status") (state_after scenario_A_typed)
  = [str "complete"] /\
  effects_of scenario_A_typed = [data_changed "upload"].
Proof. vm_compute. split; reflexivity. Qed.

(** ** One entry per id *)

Lemma state_after_then {S A B} (m : M S A) (b : B) (s : S) :
  state_after ((m ;; mret b) s) = state_after (m s).
Proof.
  unfold mbind, M_bind, mret, M_ret, Js.bind, Js.ret, state_after.
  destruct (m s) as [[[a|t] s1] e1]; reflexivity.
Qed.

Lemma get_spec_entry_id generated (toast : Obj) :
  get (spec_entry generated toast) "id" = entry_id generated toast.
Proof.
  unfold spec_entry, entry_id.
  change (toast ∪ defaults generated) with (spread (defaults generated) toast).
  rewrite get_spread. now destruct (toast !! "id").
Qed.

(** Appending an entry whose id is not in the queue keeps ids apart. *)
Lemma unique_ids_snoc q (entry : Obj) :
  unique_ids q -> count_id (get entry "id") q = 0%nat -> unique_ids (q ++ [entry]).
Proof.
  intros Hq Hfresh id. rewrite count_id_app, count_id_cons.
  destruct (strict_eq (get entry "id") id) eqn:E.
  - apply strict_eq_true in E. subst id. rewrite Hfresh. reflexivity.
  - specialize (Hq id). unfold count_id at 2. simpl. lia.
Qed.

Lemma count_id_remove id id' q : (count_id id (spec_remove id' q) <= count_id id q)%nat.
Proof.
  unfold spec_remove. induction q as [|toast q IH]; [reflexivity|].
  simpl. destruct (strict_eq (get toast "id") id'); simpl;
    rewrite ?count_id_cons; lia.
Qed.

(** An update that does not rename the entries it addresses leaves the
    number of entries of every id as it was. *)
Lemma count_id_update id id' updates q :
  updates !! "id" = None \/ updates !! "id" = Some id' ->
  count_id id (spec_update id' updates q) = count_id id q.
Proof.
  intros Hu. unfold spec_update. induction q as [|toast q IH]; [reflexivity|].
  simpl. rewrite !count_id_cons, IH. f_equal.
  destruct (strict_eq (get toast "id") id') eqn:E; [|reflexivity].
  change (updates ∪ toast) with (spread toast updates). rewrite get_spread.
  destruct Hu as [-> | ->]; [reflexivity|].
  apply strict_eq_true in E. now rewrite E.
Qed.

Lemma step_keeps_ids_apart q op :
  unique_ids q -> keeps_ids_apart q op -> unique_ids (state_after (step op q)).
Proof.
  intros Hq Hop. destruct op as [g toast | id updates | id | g m t | g m t]; simpl in *.
  - rewrite addToast_run. unfold state_after. simpl.
    apply unique_ids_snoc; [exact Hq | now rewrite get_spec_entry_id].
  - rewrite state_after_then.
    destruct (updateToast_spec id updates q) as [[_ ->] | [_ ->]]; [|exact Hq].
    intros i. rewrite (count_id_update _ _ _ _ Hop). apply Hq.
  - rewrite state_after_then, removeToast_run. unfold state_after. simpl.
    intros i. etransitivity; [apply count_id_remove | apply Hq].
  - rewrite state_after_then. unfold showSuccess. rewrite state_after_then, addToast_run.
    unfold state_after. simpl.
    apply unique_ids_snoc; [exact Hq|].
    rewrite get_spec_entry_id. exact Hop.
  - rewrite state_after_then. unfold showError. rewrite state_after_then, addToast_run.
    unfold state_after. simpl.
    apply unique_ids_snoc; [exact Hq|].
    rewrite get_spec_entry_id. exact Hop.
Qed.

(** C9, as stated, fails: two [add] calls that supply the same id leave
    two entries with that id in the queue. *)
Lemma duplicate_id_after_two_adds :
  let q :=
    state_after
      (run [Add "g1" (list_to_map [("id", str "a"); ("title", str "first")]);
            Add "g2" (list_to_map [("id", str "a"); ("title", str "second")])] []) in
  count_id (str "a") q = 2%nat /\ ~ unique_ids q.
Proof.
  assert (H : count_id (str "a")
                (state_after
                   (run [Add "g1" (list_to_map [("id", str "a"); ("title", str "first")]);
                         Add "g2" (list_to_map [("id", str "a"); ("title", str "second")])]
                      [])) = 2%nat) by (vm_compute; reflexivity).
  split; [exact H|]. intros U. specialize (U (str "a")). rewrite H in U. lia.
Qed.

(** C9, amended.  In every queue produced from the empty queue by [add],
    [update], [remove], [showSuccess] and [showError] operations in which
    each added entry takes an id that is not in the queue at that time
    (supplied or generated) and no update carries an id other than the one
    it addresses, there is at most one entry per id; and, in any such
    queue, an update on an id that is not in it changes nothing, creates
    no entry, dispatches nothing and does not throw. *)
Theorem reachable_unique_ids q :
  reachable q ->
  unique_ids q /\
  forall id updates,
    count_id id q = 0%nat -> updateToast id updates q = (Ok tt, q, []).
Proof.
  intros H. split.
  - induction H as [|q op _ IH Hop].
    + intros id. unfold count_id. simpl. lia.
    + now apply step_keeps_ids_apart.
  - intros id updates. apply updateToast_absent.
Qed.

Lemma reachable_unique_ids_witness :
  let q :=
    state_after
      (step (Update (str "a") (list_to_map [("status", str "complete")]))
         (state_after
            (step (Add "g1" (list_to_map [("id", str "a"); ("title", str "first")]))
               []))) in
  unique_ids q /\
  updateToast (str "b") (list_to_map [("status", str "complete")]) q = (Ok tt, q, []).
Proof.
  intros q.
  assert (R : reachable q).
  { apply reachable_step; [apply reachable_step; [apply reachable_empty|]|].
    - reflexivity.
    - left. reflexivity. }
  destruct (reachable_unique_ids q R) as [U A].
  split; [exact U | apply A; reflexivity].
Defined.

(* ===================================================================== *)
(** * The JSON round trip                                                 *)
(* ===================================================================== *)

Import JSON.

(** ** Numbers *)

Lemma nzhead_no_leading_zero d :
  match nzhead d with D0 _ => False | _ => True end.
Proof. induction d; simpl; auto. Qed.

Lemma to_uint_head p :
  match Pos.to_uint p with Nil => False | D0 _ => False | _ => True end.
Proof.
  assert (E : unorm (Pos.to_uint p) = Pos.to_uint p).
  { rewrite <- DecimalPos.Unsigned.to_of, DecimalPos.Unsigned.of_to. reflexivity. }
  pose proof (DecimalPos.Unsigned.to_uint_nonzero p) as Hz.
  pose proof (DecimalPos.Unsigned.to_uint_nonnil p) as Hn.
  pose proof (nzhead_no_leading_zero (Pos.to_uint p)) as Hh.
  unfold unorm in E. destruct (nzhead (Pos.to_uint p)) eqn:N;
    try (rewrite <- E; exact I); try contradiction.
  now rewrite <- E in Hz.
Qed.

Lemma read_digits_print_uint d rest :
  no_digit_ahead rest -> read_digits (print_uint d ++ rest) = (d, rest).
Proof.
  intros H. induction d; simpl;
    try (rewrite IHd; reflexivity).
  destruct rest as [|c r]; [reflexivity|]. simpl in *. now rewrite H.
Qed.

Lemma parse_number_print n rest :
  no_digit_ahead rest -> parse_number (print_number n ++ rest) = Some (n, rest).
Proof.
  intros H. unfold print_number, parse_number.
  pose proof (DecimalZ.of_to n) as Hof.
  destruct n as [|p|p]; simpl Z.to_int in *.
  - simpl. destruct rest as [|c r]; [reflexivity|]. simpl in *. now rewrite H.
  - pose proof (to_uint_head p) as Hh.
    destruct (Pos.to_uint p) as [|u|u|u|u|u|u|u|u|u|u] eqn:E; try contradiction;
      simpl app; cbv beta iota;
      match goal with
      | |- context [Ascii.eqb ?c "-"] => change (Ascii.eqb c "-") with false
      end; cbv iota;
      match goal with
      | |- context [read_digits (?c :: print_uint u ++ rest)] =>
          match type of Hof with
          | Z.of_int (Pos ?d) = _ =>
              change (c :: print_uint u ++ rest) with (print_uint d ++ rest)
          end
      end;
      rewrite (read_digits_print_uint _ _ H); cbv iota; now rewrite Hof.
  - pose proof (to_uint_head p) as Hh.
    destruct (Pos.to_uint p) as [|u|u|u|u|u|u|u|u|u|u] eqn:E; try contradiction;
      simpl app; cbv beta iota;
      change (Ascii.eqb "-" "-") with true; cbv iota;
      match goal with
      | |- context [read_digits (?c :: print_uint u ++ rest)] =>
          match type of Hof with
          | Z.of_int (Neg ?d) = _ =>
              change (c :: print_uint u ++ rest) with (print_uint d ++ rest)
          end
      end;
      rewrite (read_digits_print_uint _ _ H); cbv iota; now rewrite Hof.
Qed.

(** ** Strings *)

Lemma parse_quote_char c r :
  parse_string_body (quote_char c ++ r) = push c (parse_string_body r).
Proof. destruct c as [[] [] [] [] [] [] [] []]; reflexivity. Qed.

Lemma parse_string_print s rest :
  parse_string_body (quote_chars s ++ dquote :: rest) = Some (s, rest).
Proof.
  induction s as [|c s IH]; [reflexivity|].
  simpl quote_chars. rewrite <- app_assoc, parse_quote_char, IH. reflexivity.
Qed.

(** ** Values *)

Lemma print_array xs : print (JArr xs) = "["%char :: print_elements xs ++ ["]"%char].
Proof. reflexivity. Qed.

Lemma print_object ms : print (JObj ms) = "{"%char :: print_members ms ++ ["}"%char].
Proof. reflexivity. Qed.

Lemma opens_number_dispatch c :
  opens_number c = true ->
  is_ws c = false /\ Ascii.eqb c "n" = false /\ Ascii.eqb c "t" = false /\
  Ascii.eqb c "f" = false /\ Ascii.eqb c dquote = false /\
  Ascii.eqb c "[" = false /\ Ascii.eqb c "{" = false /\ opens_value c = true.
Proof.
  destruct c as [[] [] [] [] [] [] [] []]; intros H; try discriminate H;
    repeat split; reflexivity.
Qed.

Lemma print_number_head n :
  exists c l, print_number n = c :: l /\ opens_number c = true.
Proof.
  unfold print_number. destruct n as [|p|p]; simpl Z.to_int.
  - now exists "0"%char, [].
  - pose proof (to_uint_head p) as Hh.
    destruct (Pos.to_uint p); try contradiction; simpl; eauto.
  - exists "-"%char. eexists. split; reflexivity.
Qed.

Lemma print_head j : exists c l, print j = c :: l /\ opens_value c = true.
Proof.
  destruct j as [|[]|n|s|xs|ms]; try (eexists; eexists; split; reflexivity).
  destruct (print_number_head n) as (c & l & E & H).
  exists c, l. split; [exact E|]. now apply opens_number_dispatch in H.
Qed.

Lemma skip_ws_opens c l : opens_value c = true -> skip_ws (c :: l) = c :: l.
Proof.
  unfold opens_value. intros H. simpl.
  destruct (is_ws c); [discriminate H | reflexivity].
Qed.

Lemma opens_not_bracket c :
  opens_value c = true -> Ascii.eqb c "]" = false /\ Ascii.eqb c "}" = false.
Proof.
  unfold opens_value. intros H.
  destruct (is_ws c), (Ascii.eqb c "]"), (Ascii.eqb c "}"); try discriminate H.
  now split.
Qed.

Lemma parse_value_number fuel n rest :
  no_digit_ahead rest ->
  parse_value (S fuel) (print_number n ++ rest) = Some (JNum n, rest).
Proof.
  intros H. pose proof (parse_number_print n rest H) as P.
  destruct (print_number_head n) as (c & l & E & Hc).
  apply opens_number_dispatch in Hc as (W & N1 & N2 & N3 & N4 & N5 & N6 & _).
  rewrite E in *. simpl app in *. cbn [parse_value]. simpl skip_ws. rewrite W.
  rewrite N1, N2, N3, N4, N5, N6, P. reflexivity.
Qed.

Lemma parse_elements_print xs :
  List.Forall round_trips xs -> List.forallb json_wf xs = true -> xs <> [] ->
  forall fuel rest,
    (List.fold_right (fun x n => S (weight x + n)) O xs <= fuel)%nat ->
    parse_elements fuel (print_elements xs ++ "]"%char :: rest) = Some (xs, rest).
Proof.
  induction xs as [|x xs IH]; [contradiction|].
  intros HF Hwf _ fuel rest Hfuel.
  inversion HF as [|? ? Hx HF']; subst.
  simpl in Hwf. apply andb_true_iff in Hwf as [Hwx Hwf].
  simpl in Hfuel. destruct fuel as [|fuel]; [lia|].
  cbn [parse_elements print_elements]. rewrite <- app_assoc.
  destruct xs as [|y ys].
  - change ([] ++ "]"%char :: rest) with ("]"%char :: rest).
    rewrite (Hx Hwx fuel ("]"%char :: rest)); [reflexivity | simpl in *; lia | reflexivity].
  - change ((","%char :: print_elements (y :: ys)) ++ "]"%char :: rest)
      with (","%char :: print_elements (y :: ys) ++ "]"%char :: rest).
    rewrite (Hx Hwx fuel); [| simpl in *; lia | reflexivity].
    change (skip_ws (","%char :: print_elements (y :: ys) ++ "]"%char :: rest))
      with (","%char :: print_elements (y :: ys) ++ "]"%char :: rest).
    cbv iota beta. change (Ascii.eqb "," ",") with true. cbv iota.
    rewrite (IH HF' Hwf ltac:(discriminate) fuel rest); [reflexivity | simpl in *; lia].
Qed.

Lemma find_key_absent k (ms : list (string * Json)) :
  List.existsb (String.eqb k) (List.map fst ms) = false ->
  List.find (fun kv => String.eqb (fst kv) k) ms = None.
Proof.
  induction ms as [|[k' v] ms IH]; [reflexivity|].
  simpl. intros H. apply orb_false_iff in H as [H1 H2].
  rewrite String.eqb_sym, H1. now apply IH.
Qed.

Lemma add_member_fresh k v ms :
  List.existsb (String.eqb k) (List.map fst ms) = false ->
  add_member k v ms = (k, v) :: ms.
Proof. intros H. unfold add_member. now rewrite find_key_absent. Qed.

Lemma print_member_text k v tail rest :
  (print_string k ++ ":"%char :: print v ++ tail) ++ rest =
  dquote :: quote_chars k ++ dquote :: ":"%char :: print v ++ tail ++ rest.
Proof.
  unfold print_string. simpl. rewrite <- !app_assoc. simpl.
  rewrite <- !app_assoc. reflexivity.
Qed.

Lemma parse_members_print ms :
  List.Forall (fun kv => round_trips (snd kv)) ms ->
  distinct (List.map fst ms) = true ->
  List.forallb (fun kv => json_wf (snd kv)) ms = true ->
  ms <> [] ->
  forall fuel rest,
    (List.fold_right (fun kv n => S (weight (snd kv) + n)) O ms <= fuel)%nat ->
    parse_members fuel (print_members ms ++ "}"%char :: rest) = Some (ms, rest).
Proof.
  induction ms as [|[k v] ms IH]; [contradiction|].
  intros HF Hd Hwf _ fuel rest Hfuel.
  inversion HF as [|? ? Hv HF']; subst. simpl in Hv.
  simpl in Hd. apply andb_true_iff in Hd as [Hk Hd]. apply negb_true_iff in Hk.
  simpl in Hwf. apply andb_true_iff in Hwf as [Hwv Hwf].
  simpl in Hfuel. destruct fuel as [|fuel]; [lia|].
  cbn [print_members]. rewrite print_member_text.
  cbn [parse_members].
  change (skip_ws (dquote :: ?l)) with (dquote :: l).
  cbv iota beta. change (Ascii.eqb dquote dquote) with true. cbv iota.
  rewrite parse_string_print.
  change (skip_ws (":"%char :: ?l)) with (":"%char :: l).
  cbv iota beta. change (Ascii.eqb ":" ":") with true. cbv iota.
  destruct ms as [|m ms'].
  - change ([] ++ "}"%char :: rest) with ("}"%char :: rest).
    rewrite (Hv Hwv fuel ("}"%char :: rest)); [reflexivity | simpl in *; lia | reflexivity].
  - change ((","%char :: print_members (m :: ms')) ++ "}"%char :: rest)
      with (","%char :: print_members (m :: ms') ++ "}"%char :: rest).
    rewrite (Hv Hwv fuel); [| simpl in *; lia | reflexivity].
    change (skip_ws (","%char :: ?l)) with (","%char :: l).
    cbv iota beta. change (Ascii.eqb "," ",") with true. cbv iota.
    rewrite (IH HF' Hd Hwf ltac:(discriminate) fuel rest); [| simpl in *; lia].
    now rewrite (add_member_fresh _ _ _ Hk).
Qed.

(** The text of a serialisable value parses back to the value. *)
Lemma print_round_trips j : round_trips j.
Proof.
  induction j as [| b | n | s | xs IH | ms IH] using Json_nested_ind;
    intros Hwf fuel rest Hfuel Hrest; (destruct fuel as [|fuel]; [simpl in Hfuel; lia|]).
  - reflexivity.
  - destruct b; reflexivity.
  - now apply parse_value_number.
  - change (print (JStr s) ++ rest) with (dquote :: (quote_chars s ++ [dquote]) ++ rest).
    rewrite <- app_assoc. cbn [parse_value].
    change (skip_ws (dquote :: ?l)) with (dquote :: l).
    cbv iota beta.
    change (Ascii.eqb dquote "n") with false. change (Ascii.eqb dquote "t") with false.
    change (Ascii.eqb dquote "f") with false. change (Ascii.eqb dquote dquote) with true.
    cbv iota. change ([dquote] ++ rest) with (dquote :: rest).
    now rewrite parse_string_print.
  - rewrite print_array.
    change (("["%char :: print_elements xs ++ ["]"%char]) ++ rest)
      with ("["%char :: (print_elements xs ++ ["]"%char]) ++ rest).
    rewrite <- app_assoc. change (["]"%char] ++ rest) with ("]"%char :: rest).
    cbn [parse_value].
    change (skip_ws ("["%char :: ?l)) with ("["%char :: l).
    cbv iota beta.
    change (Ascii.eqb "[" "n") with false. change (Ascii.eqb "[" "t") with false.
    change (Ascii.eqb "[" "f") with false. change (Ascii.eqb "[" dquote) with false.
    change (Ascii.eqb "[" "[") with true. cbv iota.
    destruct xs as [|x xs]; [reflexivity|].
    destruct (print_head x) as (c & l & E & Hc).
    assert (E' : print_elements (x :: xs) ++ "]"%char :: rest =
                 c :: l ++ match xs with [] => [] | _ :: _ => ","%char :: print_elements xs end
                        ++ "]"%char :: rest).
    { cbn [print_elements]. rewrite E, <- !app_assoc. reflexivity. }
    rewrite E', (skip_ws_opens _ _ Hc). cbv iota beta.
    destruct (opens_not_bracket _ Hc) as [-> _]. rewrite <- E'.
    rewrite (parse_elements_print (x :: xs) IH Hwf ltac:(discriminate) fuel rest);
      [reflexivity | simpl in *; lia].
  - rewrite print_object.
    change (("{"%char :: print_members ms ++ ["}"%char]) ++ rest)
      with ("{"%char :: (print_members ms ++ ["}"%char]) ++ rest).
    rewrite <- app_assoc. change (["}"%char] ++ rest) with ("}"%char :: rest).
    cbn [parse_value].
    change (skip_ws ("{"%char :: ?l)) with ("{"%char :: l).
    cbv iota beta.
    change (Ascii.eqb "{" "n") with false. change (Ascii.eqb "{" "t") with false.
    change (Ascii.eqb "{" "f") with false. change (Ascii.eqb "{" dquote) with false.
    change (Ascii.eqb "{" "[") with false. change (Ascii.eqb "{" "{") with true.
    cbv iota.
    destruct ms as [|[k v] ms]; [reflexivity|].
    simpl in Hwf. apply andb_true_iff in Hwf as [Hd Hwf].
    assert (E' : print_members ((k, v) :: ms) ++ "}"%char :: rest =
                 dquote :: quote_chars k ++ dquote :: ":"%char :: print v ++
                 match ms with [] => [] | _ :: _ => ","%char :: print_members ms end
                 ++ "}"%char :: rest).
    { cbn [print_members]. now rewrite print_member_text. }
    rewrite E'. change (skip_ws (dquote :: ?l)) with (dquote :: l).
    cbv iota beta. change (Ascii.eqb dquote "}") with false. cbv iota.
    rewrite <- E'.
    rewrite (parse_members_print ((k, v) :: ms) IH Hd Hwf ltac:(discriminate) fuel rest);
      [reflexivity | simpl in *; lia].
Qed.

(** The parser is given fuel for the whole text; the text of a value is at
    least as long as the value is heavy. *)
Lemma weight_elements xs :
  List.Forall (fun x => (weight x <= List.length (print x))%nat) xs ->
  (List.fold_right (fun x n => S (weight x + n)) O xs
   <= List.length (print_elements xs) + 1)%nat.
Proof.
  induction 1 as [|x xs Hx _ IH]; [simpl; lia|].
  cbn [List.fold_right print_elements]. rewrite List.length_app.
  destruct xs as [|y ys]; [simpl; lia|].
  remember (print_elements (y :: ys)) as text.
  remember (List.fold_right (fun x n => S (weight x + n)) O (y :: ys)) as w.
  clear Heqtext Heqw. simpl List.length. lia.
Qed.

Lemma weight_members (ms : list (string * Json)) :
  List.Forall (fun kv => (weight (snd kv) <= List.length (print (snd kv)))%nat) ms ->
  (List.fold_right (fun kv n => S (weight (snd kv) + n)) O ms
   <= List.length (print_members ms) + 1)%nat.
Proof.
  induction 1 as [|[k v] ms Hv _ IH]; [simpl; lia|].
  cbn [List.fold_right print_members snd] in *.
  destruct ms as [|m ms'].
  - clear IH. simpl List.fold_right.
    repeat (rewrite List.length_app; simpl List.length). lia.
  - remember (print_members (m :: ms')) as text.
    remember (List.fold_right (fun kv n => S (weight (snd kv) + n)) O (m :: ms')) as w.
    clear Heqtext Heqw.
    repeat (rewrite List.length_app; simpl List.length). lia.
Qed.

Lemma weight_le_length j : (weight j <= List.length (print j))%nat.
Proof.
  induction j as [| b | n | s | xs IH | ms IH] using Json_nested_ind.
  - simpl. lia.
  - destruct b; simpl; lia.
  - destruct (print_number_head n) as (c & l & E & _).
    change (print (JNum n)) with (print_number n). rewrite E. simpl. lia.
  - simpl. lia.
  - rewrite print_array. cbn [weight List.length]. rewrite List.length_app.
    pose proof (weight_elements xs IH). simpl. lia.
  - rewrite print_object. cbn [weight List.length]. rewrite List.length_app.
    pose proof (weight_members ms IH). simpl. lia.
Qed.

(** [JSON.parse(JSON.stringify(j))] is [j], for every serialisable [j]. *)
Lemma parse_stringify j :
  json_wf j = true -> JSON.parse (string_of_list_ascii (print j)) = Some j.
Proof.
  intros Hwf. unfold parse, chars. rewrite list_ascii_of_string_of_list_ascii.
  pose proof (print_round_trips j Hwf (S (List.length (print j))) []) as H.
  rewrite app_nil_r in H. rewrite H; [reflexivity | | exact I].
  pose proof (weight_le_length j). lia.
Qed.

(** The text of a value is never empty. *)
Lemma stringify_nonempty j : string_of_list_ascii (print j) <> EmptyString.
Proof.
  destruct (print_head j) as (c & l & E & _). rewrite E. discriminate.
Qed.
(* ===================================================================== *)
(** * Properties of the session cache                                     *)
(* ===================================================================== *)

Import SessionCache.

Lemma setCached_run refuses key (v : JsVal) st :
  setCached refuses key v st =
  (Ok tt,
   if refuses st (CACHE_PREFIX +:+ key) (default "undefined" (JSON.stringify v))
   then st
   else session_setItem (CACHE_PREFIX +:+ key) (default "undefined" (JSON.stringify v)) st,
   []).
Proof.
  unfold setCached, session_write.
  now destruct (refuses st _ _).
Qed.

Lemma setCached_accepted refuses key (v : JsVal) st :
  accepts refuses key v st ->
  setCached refuses key v st =
  (Ok tt,
   session_setItem (CACHE_PREFIX +:+ key) (default "undefined" (JSON.stringify v)) st,
   []).
Proof. intros H. rewrite setCached_run. unfold accepts in H. now rewrite H. Qed.

Lemma setCached_refused refuses key (v : JsVal) st :
  ~ accepts refuses key v st -> setCached refuses key v st = (Ok tt, st, []).
Proof.
  intros H. rewrite setCached_run. unfold accepts in H.
  destruct (refuses st _ _); [reflexivity | now contradiction H].
Qed.

Lemma clearCached_run key st :
  clearCached key st = (Ok tt, session_removeItem (CACHE_PREFIX +:+ key) st, []).
Proof. reflexivity. Qed.

Lemma getCached_setCached refuses key (j : Json) st :
  json_wf j = true -> accepts refuses key (JsJson j) st ->
  getCached key (state_after (setCached refuses key (JsJson j) st)) = j.
Proof.
  intros Hwf Hacc. rewrite setCached_accepted by exact Hacc.
  unfold state_after, getCached. simpl.
  rewrite lookup_insert_eq.
  destruct (String.eqb_spec (string_of_list_ascii (JSON.print j)) "") as [E|_].
  - now apply stringify_nonempty in E.
  - now rewrite parse_stringify.
Qed.

Lemma getCached_clearCached key st :
  getCached key (state_after (clearCached key st)) = JNull.
Proof.
  rewrite clearCached_run. unfold state_after, getCached. simpl.
  now rewrite lookup_delete_eq.
Qed.

(** A text that opens no JSON value does not parse. *)
Lemma begins_json_false c :
  begins_json c = false ->
  Ascii.eqb c "n" = false /\ Ascii.eqb c "t" = false /\ Ascii.eqb c "f" = false /\
  Ascii.eqb c JSON.dquote = false /\ Ascii.eqb c "[" = false /\ Ascii.eqb c "{" = false /\
  Ascii.eqb c "-" = false /\ JSON.digit c = None.
Proof.
  destruct c as [[] [] [] [] [] [] [] []]; intros H; vm_compute in H; try discriminate H;
    vm_compute; repeat split.
Qed.

Lemma not_json_parse text : not_json text = true -> JSON.parse text = None.
Proof.
  unfold not_json, JSON.parse. intros H.
  cbn [JSON.parse_value].
  destruct (JSON.skip_ws (JSON.chars text)) as [|c r]; [reflexivity|].
  apply negb_true_iff in H.
  destruct (begins_json_false c H) as (E1 & E2 & E3 & E4 & E5 & E6 & E7 & E8).
  rewrite E1, E2, E3, E4, E5, E6.
  unfold JSON.parse_number. rewrite E7. cbn [JSON.read_digits]. now rewrite E8.
Qed.

Lemma nothing_cached_getCached key st : nothing_cached key st -> getCached key st = JNull.
Proof.
  unfold nothing_cached, getCached.
  destruct (sessionStorage st !! (CACHE_PREFIX +:+ key)) as [text|]; [|reflexivity].
  intros [-> | [H | H]]; [reflexivity| |].
  - rewrite (not_json_parse _ H). now destruct (String.eqb text "").
  - rewrite H. now destruct (String.eqb text "").
Qed.

Lemma nothing_cached_clearCached key st :
  nothing_cached key (state_after (clearCached key st)).
Proof.
  rewrite clearCached_run. unfold state_after, nothing_cached. simpl.
  now rewrite lookup_delete_eq.
Qed.




(** The edge values one by one. *)
Lemma cache_round_trip_edges refuses key st (v : Json) :
  List.In v [JNull; JBool false; JNum 0; JStr ""; JArr []; JObj []] ->
  accepts refuses key (JsJson v) st ->
  getCached key (state_after (setCached refuses key (JsJson v) st)) = v.
Proof.
  intros H. apply getCached_setCached.
  repeat (destruct H as [<- | H]; [reflexivity|]). destruct H.
Qed.

(** ** Read-through *)

Lemma cachedApiCall_force refuses key producer st :
  cachedApiCall refuses key producer true st = fetch_and_store refuses key producer st.
Proof.
  unfold cachedApiCall, fetch_and_store, invoke. run_m.
  destruct (producer st) as [[[data|t] st1] es]; [|reflexivity].
  rewrite setCached_run. reflexivity.
Qed.

Lemma cachedApiCall_miss refuses key producer st :
  getCached key st = JNull ->
  cachedApiCall refuses key producer false st = fetch_and_store refuses key producer st.
Proof.
  intros H. unfold cachedApiCall, fetch_and_store, invoke. run_m. rewrite H.
  destruct (producer st) as [[[data|t] st1] es]; [|reflexivity].
  rewrite setCached_run. reflexivity.
Qed.

Lemma cachedApiCall_hit refuses key producer st :
  getCached key st <> JNull ->
  cachedApiCall refuses key producer false st = (Ok (JsJson (getCached key st)), st, []).
Proof.
  intros H. unfold cachedApiCall. run_m.
  destruct (getCached key st); try reflexivity. contradiction.
Qed.

Lemma invocations_fetch_and_store refuses key producer st :
  invocations (effects_of (fetch_and_store refuses key producer st)) = 1%nat.
Proof.
  unfold fetch_and_store. destruct (producer st) as [[[data|t] st1] es]; reflexivity.
Qed.




(* ===================================================================== *)
(** * Sequences of queue operations                                       *)
(* ===================================================================== *)

Lemma textual_spread (entry updates : Obj) :
  textual entry -> textual updates -> textual (spread entry updates).
Proof.
  unfold textual. intros [Ht Ha] [Ht' Ha']. rewrite !get_spread.
  unfold get in Ht', Ha'.
  destruct (updates !! "type"), (updates !! "action"); simpl in *; auto.
Qed.

Lemma textual_defaults generated : textual (defaults generated).
Proof. split; discriminate. Qed.

Lemma textual_spec_entry generated (toast : Obj) :
  textual toast -> textual (spec_entry generated toast).
Proof. intros H. apply (textual_spread (defaults generated) toast); [apply textual_defaults | exact H]. Qed.

Lemma textual_shown st d message title : textual (shown st d message title).
Proof. split; discriminate. Qed.

(** On a queue whose entries have text for type and action, the callback
    of [update] never throws, and [map] runs to the end. *)
Lemma map_entries_textual id updates q :
  List.Forall textual q ->
  exists es, map_entries (update_entry id updates) q = (Ok (spec_update id updates q), es).
Proof.
  induction 1 as [|toast q [Ht Ha] _ [es IH]]; [now exists []|].
  simpl. destruct (strict_eq (get toast "id") id) eqn:E.
  - destruct (text (get toast "type")) as [ty|] eqn:Ety; [|contradiction].
    destruct (text (get toast "action")) as [ac|] eqn:Eac; [|contradiction].
    rewrite (update_entry_text _ _ _ _ _ E Ety Eac), IH. eauto.
  - rewrite (update_entry_other _ _ _ E), IH. eauto.
Qed.

Lemma Forall_textual_update id updates q :
  List.Forall textual q -> textual updates -> List.Forall textual (spec_update id updates q).
Proof.
  intros Hq Hu. unfold spec_update. apply List.Forall_map.
  eapply List.Forall_impl; [|exact Hq]. intros entry He.
  destruct (strict_eq (get entry "id") id); [|exact He].
  now apply (textual_spread entry updates).
Qed.

Lemma Forall_textual_remove id q :
  List.Forall textual q -> List.Forall textual (spec_remove id q).
Proof.
  intros Hq. unfold spec_remove. apply List.Forall_forall. intros entry Hin.
  apply List.filter_In in Hin as [Hin _].
  now apply (proj1 (List.Forall_forall _ _) Hq).
Qed.

Lemma Forall_textual_snoc q (entry : Obj) :
  List.Forall textual q -> textual entry -> List.Forall textual (q ++ [entry]).
Proof. intros Hq He. apply List.Forall_app. split; [exact Hq | now constructor]. Qed.

Lemma showSuccess_run g m t q :
  showSuccess g m t q =
  (Ok tt, q ++ [spec_entry g (shown "complete" "Success" m t)], []).
Proof.
  unfold showSuccess, mbind, M_bind, Js.bind. fold (shown "complete" "Success" m t).
  now rewrite addToast_run.
Qed.

Lemma showError_run g m t q :
  showError g m t q = (Ok tt, q ++ [spec_entry g (shown "error" "Error" m t)], []).
Proof.
  unfold showError, mbind, M_bind, Js.bind. fold (shown "error" "Error" m t).
  now rewrite addToast_run.
Qed.

Lemma step_matches_spec op q :
  List.Forall textual q -> well_formed op ->
  (exists es, step op q = (Ok (snd (spec_step op q)), fst (spec_step op q), es)) /\
  List.Forall textual (fst (spec_step op q)).
Proof.
  intros Hq Hop. destruct op as [g toast | id updates | id | g m t | g m t]; simpl in *.
  - destruct Hop as [Ht Hid]. split.
    + exists []. rewrite addToast_run.
      pose proof (addToast_returns_entry_id g toast q Hid) as R.
      rewrite addToast_run in R. unfold returned, outcome in R. simpl in R.
      unfold spec_add. simpl. now rewrite R.
    + apply Forall_textual_snoc; [exact Hq | now apply textual_spec_entry].
  - split; [|now apply Forall_textual_update].
    destruct (map_entries_textual id updates q Hq) as [es E].
    exists (es ++ []). unfold updateToast. run_m. now rewrite E.
  - split; [now exists [] | now apply Forall_textual_remove].
  - split.
    + exists []. unfold mbind, M_bind, Js.bind. now rewrite showSuccess_run.
    + apply Forall_textual_snoc; [exact Hq | apply textual_spec_entry, textual_shown].
  - split.
    + exists []. unfold mbind, M_bind, Js.bind. now rewrite showError_run.
    + apply Forall_textual_snoc; [exact Hq | apply textual_spec_entry, textual_shown].
Qed.

(** X1.  For every finite sequence of add, update, remove, showSuccess and
    showError operations whose entries and updates have text (or nothing)
    for type and action, and whose add arguments carry no id or a truthy
    one, on a queue of such entries: no operation throws, the resulting
    list of entries is the result of applying the operations from left to
    right as specified (add appends the argument completed by the
    defaults, update lays the given fields over the entries with the id,
    remove deletes them), and every add returns the id of the entry it
    appended. *)
Theorem run_matches_spec ops q :
  List.Forall textual q -> List.Forall well_formed ops ->
  outcome (run ops q) = Ok (snd (spec_run ops q)) /\
  state_after (run ops q) = fst (spec_run ops q).
Proof.
  intros Hq Hops. revert q Hq.
  induction Hops as [|op ops Hop _ IH]; intros q Hq; [now split|].
  destruct (step_matches_spec op q Hq Hop) as [[es E] Hq1].
  specialize (IH _ Hq1).
  cbn [run spec_run]. run_m. rewrite E.
  destruct (spec_step op q) as [q1 r]. simpl in *.
  destruct (run ops q1) as [[[rs|t] q2] es2]; unfold outcome, state_after in IH;
    simpl in IH; destruct IH as [IH1 IH2]; [|discriminate IH1].
  destruct (spec_run ops q1) as [q2' rs']. simpl in *.
  inversion IH1; subst. now split.
Qed.

Lemma run_matches_spec_witness :
  let ops :=
    [Add "g1" (list_to_map [("title", str "Upload"); ("type", str "upload")]);
     Update (str "g1") (list_to_map [("progress", JsJson (JNum 50))]);
     Update (str "g1") (list_to_map [("status", str "complete")]);
     Update (str "nobody") (list_to_map [("status", str "error")]);
     ShowError "g2" (str "Failed to load") JsUndefined;
     Remove (str "g1")] in
  outcome (run ops []) = Ok (snd (spec_run ops [])) /\
  state_after (run ops []) = fst (spec_run ops []).
Proof.
  intros ops. apply (run_matches_spec ops []); [constructor|].
  repeat constructor; simpl; try discriminate; try (left; reflexivity).
Defined.

(* ===================================================================== *)
(** * Further properties of the API client                                *)
(* ===================================================================== *)

(** ** What a response does to storage and to the trace *)

Lemma handleTokenRefresh_local st response :
  localStorage (state_after (handleTokenRefresh response st)) = localStorage st.
Proof.
  unfold handleTokenRefresh.
  destruct (present (headers_get response "X-New-Token")); reflexivity.
Qed.

Lemma handleTokenRefresh_effects st response :
  effects_of (handleTokenRefresh response st) = [] /\
  outcome (handleTokenRefresh response st) = Ok tt.
Proof.
  unfold handleTokenRefresh.
  destruct (present (headers_get response "X-New-Token")); split; reflexivity.
Qed.

(** A response that is not a failure: the body, parsed, is returned. *)
Lemma handleResponse_ok st response :
  ok response = true ->
  handleResponse response st =
  (match JSON.parse (resp_body response) with
   | Some j => Ok (JsJson j)
   | None => Throw (ThrownError "SyntaxError" "Unexpected token in JSON")
   end,
   state_after (handleTokenRefresh response st), []).
Proof.
  intros H. unfold handleResponse, handleTokenRefresh. rewrite H.
  destruct (present (headers_get response "X-New-Token")); run_m;
    destruct (JSON.parse (resp_body response)); reflexivity.
Qed.

(** A failure other than 401. *)
Lemma handleResponse_failure st response :
  ok response = false -> resp_status response <> 401 ->
  handleResponse response st =
  (match detail_of (default (JObj []) (JSON.parse (resp_body response))) with
   | Throw t => Throw t
   | Ok detail =>
       Throw (ThrownApiError
                (mkApiError
                   (to_string
                      (or_else detail (JStr ("HTTP " +:+ string_of_Z (resp_status response)))))
                   (resp_status response)
                   (default (JObj []) (JSON.parse (resp_body response)))))
   end,
   state_after (handleTokenRefresh response st), []).
Proof.
  intros H Hs. unfold handleResponse, handleTokenRefresh. rewrite H.
  apply Z.eqb_neq in Hs. rewrite Hs.
  destruct (present (headers_get response "X-New-Token")); run_m;
    destruct (detail_of _); reflexivity.
Qed.

(** No response makes the client issue a request, or write persistent
    storage. *)
Lemma handleResponse_quiet st response :
  requests (effects_of (handleResponse response st)) = [] /\
  List.filter is_fetch (effects_of (handleResponse response st)) = [] /\
  localStorage (state_after (handleResponse response st)) = localStorage st.
Proof.
  destruct (ok response) eqn:Hok.
  - rewrite handleResponse_ok by assumption. unfold effects_of, state_after. simpl.
    repeat split. apply handleTokenRefresh_local.
  - destruct (Z.eq_dec (resp_status response) 401) as [H|H].
    + destruct (handleResponse_401 st response H) as (E & _ & _ & L & _).
      rewrite E. repeat split. exact L.
    + rewrite handleResponse_failure by assumption. unfold effects_of, state_after. simpl.
      repeat split. apply handleTokenRefresh_local.
Qed.

(** ** Requests outside demo mode *)

(** Outside demo mode one request goes out, built from the endpoint, the
    options and the resolved token; what follows is up to the answer. *)
Lemma apiRequest_live env endpoint options st :
  isDemoMode st = false ->
  exists r,
    well_built (API_BASE_URL env) (getToken st) endpoint options r /\
    apiRequest env endpoint options st =
    match network env r with
    | Responded response =>
        let '(res, st', es) := handleResponse response st in (res, st', Fetch r :: es)
    | Rejected msg =>
        (Throw (ThrownApiError
                  (mkApiError (if String.eqb msg "" then "Network error" else msg) 0
                     (JsJson (JObj [("originalError", JObj [("message", JStr msg)])])))),
         st, [Fetch r])
    end.
Proof.
  intros Hd. unfold apiRequest. run_m. rewrite Hd.
  match goal with |- context [network env ?R] => exists R end. split.
  2: { destruct (network env _) as [response|msg]; [|reflexivity].
       destruct (handleResponse response st) as [[res st'] es]. destruct res; reflexivity. }
  unfold well_built. simpl.
  split; [reflexivity|]. split.
  { destruct (opt_method options) as [m|]; simpl; [|reflexivity].
    now destruct (String.eqb m ""). }
  split; [reflexivity|].
  assert (Hauth : forall h : gmap string string,
             (if present (getToken st)
              then <["Authorization" := "Bearer " +:+ default "" (getToken st)]> h
              else h) !! "Authorization" =
             match getToken st with
             | Some t => if String.eqb t "" then h !! "Authorization"
                         else Some ("Bearer " +:+ t)
             | None => h !! "Authorization"
             end).
  { intros h. destruct (getToken st) as [t|]; simpl; [|reflexivity].
    destruct (String.eqb t ""); simpl; [reflexivity|]. apply lookup_insert_eq. }
  assert (Hother : forall (h : gmap string string) k, k <> "Authorization" ->
             (if present (getToken st)
              then <["Authorization" := "Bearer " +:+ default "" (getToken st)]> h
              else h) !! k = h !! k).
  { intros h k Hk. destruct (present (getToken st)); [|reflexivity].
    now rewrite lookup_insert_ne. }
  destruct (opt_body options); simpl.
  - split; [now rewrite lookup_insert_ne by discriminate|].
    split; [apply lookup_insert_eq|].
    intros k H1 H2. rewrite lookup_insert_ne by congruence. now apply Hother.
  - split; [now rewrite lookup_insert_ne by discriminate|].
    split; [apply lookup_insert_eq|].
    intros k H1 H2. rewrite lookup_insert_ne by congruence. now apply Hother.
  - split; [apply Hauth|]. split; [now apply Hother|].
    intros k H1 H2. now apply Hother.
Qed.

Lemma apiRequest_down env msg endpoint options st :
  isDemoMode st = false -> down msg env ->
  exists r e,
    apiRequest env endpoint options st = (Throw (ThrownApiError e), st, [Fetch r]) /\
    network_error msg e.
Proof.
  intros Hd Hdown.
  destruct (apiRequest_live env endpoint options st Hd) as (r & _ & E).
  rewrite (Hdown r) in E. exists r. eexists. split; [exact E|].
  unfold network_error, isNetworkError, isAuthError, isServerError. simpl.
  repeat split.
Qed.

(** Every call of an endpoint group but the health check is one call of
    [apiRequest] on the path of the call, with no headers of its own. *)
Lemma perform_apiRequest env c :
  c <> HealthCheck ->
  exists options,
    perform env c = apiRequest env (path_of c) options /\ opt_headers options = ∅.
Proof.
  intros Hc.
  destruct c; try contradiction; simpl;
    unfold systemInstructionsApi_get, systemInstructionsApi_save, dashboard_getStats,
      dashboard_getActivity, dashboard_getWeekly, knowledge_getAll,
      knowledge_getCategories, knowledge_get, knowledge_save, contacts_get,
      contacts_save, communication_getAll, communication_updateStatus,
      communication_delete, projects_get, projects_save, projects_uploadImage;
    try (eexists; split; [reflexivity | reflexivity]).
  match goal with
  | |- context [String.eqb ?s EmptyString] => destruct (String.eqb s EmptyString)
  end; simpl; eexists; split; reflexivity.
Qed.

Lemma apiRequest_local env endpoint options st :
  localStorage (state_after (apiRequest env endpoint options st)) = localStorage st.
Proof.
  destruct (isDemoMode st) eqn:Hd.
  - now rewrite apiRequest_demo.
  - destruct (apiRequest_live env endpoint options st Hd) as (r & _ & E). rewrite E.
    destruct (network env r) as [response|msg]; [|reflexivity].
    destruct (handleResponse_quiet st response) as (_ & _ & L).
    destruct (handleResponse response st) as [[res st'] es]. exact L.
Qed.

Lemma healthApi_check_live env st :
  isDemoMode st = false ->
  exists r,
    healthApi_check env st =
    (Ok (match network env r with Responded response => ok response | Rejected _ => false end),
     st, [Fetch r]).
Proof.
  intros Hd. unfold healthApi_check. run_m. rewrite Hd.
  match goal with |- context [network env ?R] => exists R end.
  destruct (network env _); reflexivity.
Qed.

(** ** When the network is down *)

(** X4.  When the client is not in demo mode and the network rejects every
    request with the message [msg]: every call of an endpoint group other
    than the health check issues one request, leaves storage as it was and
    throws the typed error with status 0, whose message is [msg] (the text
    Network error when [msg] is empty) and which [isNetworkError]
    recognises while [isAuthError] and [isServerError] do not; the health
    check issues one request and returns false. *)
Theorem network_failure_is_typed env msg c st :
  isDemoMode st = false -> down msg env ->
  let x := perform env c st in
  state_after x = st /\
  List.length (requests (effects_of x)) = 1%nat /\
  (c = HealthCheck -> outcome x = Ok (JsJson (JBool false))) /\
  (c <> HealthCheck ->
   exists e, outcome x = Throw (ThrownApiError e) /\ network_error msg e).
Proof.
  intros Hd Hdown x. subst x.
  assert (Hcase : c = HealthCheck \/ c <> HealthCheck)
    by (destruct c; (now left) || (right; discriminate)).
  destruct Hcase as [->|Hc].
  - simpl. destruct (healthApi_check_live env st Hd) as (r & E).
    run_m. rewrite E, (Hdown r). simpl.
    split; [reflexivity|]. split; [reflexivity|]. split; [reflexivity|].
    intros H; now contradiction H.
  - destruct (perform_apiRequest env c Hc) as (options & E & _). rewrite E.
    destruct (apiRequest_down env msg (path_of c) options st Hd Hdown) as (r & e & E' & He).
    rewrite E'. unfold state_after, effects_of, outcome. simpl.
    split; [reflexivity|]. split; [reflexivity|]. split; [intros H; now contradiction Hc|].
    intros _. now exists e.
Qed.

Lemma network_failure_is_typed_witness :
  let x := perform offline ProjectsGet (signed_in "jwt") in
  state_after x = signed_in "jwt" /\
  exists e, outcome x = Throw (ThrownApiError e) /\ network_error "Failed to fetch" e.
Proof.
  pose proof (network_failure_is_typed offline "Failed to fetch" ProjectsGet (signed_in "jwt")
                eq_refl (fun _ => eq_refl)) as H.
  destruct H as (H1 & _ & _ & H4).
  split; [exact H1 | apply H4; discriminate].
Defined.

(** ** The request that goes out *)

(** X5.  Outside demo mode [apiRequest] issues exactly one request, and
    that request is well built: base URL followed by the endpoint, the
    method in upper case (GET by default), the caller's body; the resolved
    token as [Authorization: Bearer], overriding a header of that name
    supplied by the caller; [Content-Type: application/json] unless the
    body is form data, in which case no content type is set by the
    client; every other header as the caller supplied it. *)
Theorem request_is_well_built env endpoint options st :
  isDemoMode st = false ->
  exists r,
    requests (effects_of (apiRequest env endpoint options st)) = [r] /\
    well_built (API_BASE_URL env) (getToken st) endpoint options r.
Proof.
  intros Hd.
  destruct (apiRequest_live env endpoint options st Hd) as (r & W & E).
  exists r. split; [|exact W]. rewrite E.
  destruct (network env r) as [response|msg]; [|reflexivity].
  destruct (handleResponse_quiet st response) as (Q & _).
  destruct (handleResponse response st) as [[res st'] es].
  unfold effects_of in *. simpl in *. now rewrite Q.
Qed.

Lemma request_is_well_built_witness :
  exists r,
    requests (effects_of (projects_uploadImage offline "logo.png" "site" (signed_in "jwt")))
    = [r] /\
    req_headers r !! "Authorization" = Some "Bearer jwt" /\
    req_headers r !! "Content-Type" = None.
Proof.
  destruct (request_is_well_built offline "/api/v1/projects/upload-image"
              (post (FormData [("file", "logo.png"); ("projectName", "site")]))
              (signed_in "jwt") eq_refl) as (r & H & W).
  exists r. split; [exact H|].
  destruct W as (_ & _ & _ & A & C & _). split; [exact A | exact C].
Defined.

(** ** Responses *)





(** ** Login *)






(** X9.  While the demo token is the one resolved, [login] reaches no
    backend and stores nothing: after the wait of demo mode it returns the
    default canned response, which carries no token, and the demo token
    stays the one resolved. *)
Theorem login_in_demo_mode_is_inert env username password st :
  isDemoMode st = true ->
  authApi_login env username password st =
  (Ok (JsJson (success [("data", JArr [])])), st, [SetTimeout 200 500]).
Proof.
  intros Hd. unfold authApi_login. unfold Js.bind at 1.
  rewrite apiRequest_demo by exact Hd. reflexivity.
Qed.

Lemma login_in_demo_mode_is_inert_witness :
  state_after (authApi_login offline "admin" "secret" demo_state) = demo_state /\
  isDemoMode (state_after (authApi_login offline "admin" "secret" demo_state)) = true.
Proof.
  rewrite (login_in_demo_mode_is_inert offline "admin" "secret" demo_state eq_refl).
  split; reflexivity.
Defined.

(** ** Persistent storage *)

Lemma login_local env username password st :
  localStorage (state_after (authApi_login env username password st)) = localStorage st.
Proof.
  pose proof (apiRequest_local env "/api/v1/auth/login"
                (mkOptions (Some "POST") ∅
                   (json_body [("username", JStr username); ("password", JStr password)]))
                st) as L.
  unfold authApi_login. unfold Js.bind at 1.
  destruct (apiRequest env _ _ st) as [[[result|t] st1] es]; [|exact L].
  unfold state_after in L. simpl in L.
  destruct (member result "status") as [status|t]; [|exact L].
  destruct (strict_eq status (JStr "success")); [|exact L].
  destruct (member result "token") as [token|t]; [|exact L].
  destruct (truthy token); [|exact L].
  destruct (member result "user") as [user|t]; [|exact L].
  destruct (truthy user); exact L.
Qed.

(** X10.  No function of the client writes the token that is held in
    persistent storage: every call of every endpoint group, [login], the
    handling of every response (token renewal and the 401 teardown
    included) leave persistent storage as it was, and [logout] leaves the
    token in it as it was. *)
Theorem persistent_token_is_never_written env st :
  (forall c, localStorage (state_after (perform env c st)) = localStorage st) /\
  (forall username password,
     localStorage (state_after (authApi_login env username password st)) = localStorage st) /\
  (forall response,
     localStorage (state_after (handleResponse response st)) = localStorage st) /\
  localStorage (state_after (authApi_logout st)) !! TOKEN_STORAGE_KEY =
  localStorage st !! TOKEN_STORAGE_KEY.
Proof.
  split; [|split; [|split]].
  - intros c.
    assert (Hcase : c = HealthCheck \/ c <> HealthCheck)
      by (destruct c; (now left) || (right; discriminate)).
    destruct Hcase as [->|Hc].
    + simpl. destruct (isDemoMode st) eqn:Hd.
      * run_m. now rewrite healthApi_check_demo.
      * destruct (healthApi_check_live env st Hd) as (r & E). run_m. now rewrite E.
    + destruct (perform_apiRequest env c Hc) as (options & E & _). rewrite E.
      apply apiRequest_local.
  - intros. apply login_local.
  - intros response. apply handleResponse_quiet.
  - rewrite logout_run. unfold state_after. simpl.
    now rewrite lookup_delete_ne by discriminate.
Qed.

(** ** The health check *)

(** X30.  The health check never throws and never touches storage.  In
    demo mode it returns true without any effect.  Otherwise it issues
    exactly one request, a GET of the health endpoint under the base URL
    that carries no header, so that the stored token is not sent with it,
    and returns true exactly when that request is answered with a status
    from 200 to 299: a rejection gives false, not an error. *)
Theorem health_check_is_unauthenticated env st :
  let x := healthApi_check env st in
  state_after x = st /\
  exists up,
    outcome x = Ok up /\
    (isDemoMode st = true -> up = true /\ effects_of x = []) /\
    (isDemoMode st = false ->
     exists r,
       effects_of x = [Fetch r] /\
       req_url r = API_BASE_URL env +:+ "/api/v1/health" /\
       req_method r = "GET" /\
       req_headers r = ∅ /\
       req_body r = NoBody /\
       (up = true <-> exists response, network env r = Responded response /\ ok response = true)).
Proof.
  intros x. subst x. unfold healthApi_check. run_m.
  destruct (isDemoMode st) eqn:Hd; simpl.
  - split; [reflexivity|]. exists true. split; [reflexivity|].
    split; [now intros _ | discriminate].
  - destruct (network env _) as [response|msg] eqn:N; simpl;
      (split; [reflexivity|]); eexists; (split; [reflexivity|]);
      (split; [discriminate|]); intros _; eexists; (split; [reflexivity|]);
      (split; [reflexivity|]); (split; [reflexivity|]); (split; [reflexivity|]);
      (split; [reflexivity|]); rewrite N.
    + split.
      * intros H. exists response. now split.
      * intros (response' & E & H). now injection E as ->.
    + split; [discriminate|]. intros (response' & E & _). discriminate E.
Qed.

(* ===================================================================== *)
(** * Further properties of the session cache                             *)
(* ===================================================================== *)

(** ** Keys *)

Lemma prefix_append p s : String.prefix p (p +:+ s) = true.
Proof.
  induction p as [|c p IH]; [apply prefix_nil|].
  rewrite append_cons. now rewrite prefix_cons_eq.
Qed.

Lemma append_inj_l p s t : p +:+ s = p +:+ t -> s = t.
Proof.
  induction p as [|c p IH]; [now rewrite !append_nil|].
  rewrite !append_cons. intros H. injection H as H. now apply IH.
Qed.

(** No cache key is the key of the token or of the user info. *)
Lemma cache_key_not_token key : CACHE_PREFIX +:+ key <> TOKEN_STORAGE_KEY.
Proof. unfold CACHE_PREFIX. rewrite append_cons. discriminate. Qed.

Lemma cache_key_not_user_info key : CACHE_PREFIX +:+ key <> "admin_user_info".
Proof. unfold CACHE_PREFIX. rewrite append_cons. discriminate. Qed.

Lemma getToken_ext st st' :
  sessionStorage st' !! TOKEN_STORAGE_KEY = sessionStorage st !! TOKEN_STORAGE_KEY ->
  localStorage st' = localStorage st ->
  getToken st' = getToken st.
Proof. intros H L. unfold getToken. now rewrite H, L. Qed.

Lemma getCached_ext key st st' :
  sessionStorage st' !! (CACHE_PREFIX +:+ key) = sessionStorage st !! (CACHE_PREFIX +:+ key) ->
  getCached key st' = getCached key st.
Proof. intros H. unfold getCached. now rewrite H. Qed.

Lemma clearAllCached_lookup st k :
  sessionStorage (state_after (clearAllCached st)) !! k =
  if String.prefix CACHE_PREFIX k then None else sessionStorage st !! k.
Proof.
  unfold clearAllCached, state_after, modify. simpl.
  destruct (String.prefix CACHE_PREFIX k) eqn:P.
  - apply map_lookup_filter_None. right. intros x _. simpl. rewrite P. simpl. tauto.
  - destruct (sessionStorage st !! k) as [x|] eqn:L.
    + apply map_lookup_filter_Some. split; [exact L|]. simpl. now rewrite P.
    + apply map_lookup_filter_None. now left.
Qed.

(** ** Clearing the whole cache *)

(** X11.  [clearAllCached] never fails and has no effect but on tab-scoped
    storage: afterwards every cache key reads as absent, every entry of
    tab-scoped storage whose key does not start with the cache prefix is
    as it was, the token and the user info among them, and persistent
    storage is as it was; so the token resolved and [isLoggedIn()] do not
    change. *)
Theorem clearAllCached_clears_the_cache_only st :
  let x := clearAllCached st in
  outcome x = Ok tt /\
  effects_of x = [] /\
  (forall key, getCached key (state_after x) = JNull) /\
  (forall k, String.prefix CACHE_PREFIX k = false ->
             sessionStorage (state_after x) !! k = sessionStorage st !! k) /\
  sessionStorage (state_after x) !! "admin_user_info" = sessionStorage st !! "admin_user_info" /\
  localStorage (state_after x) = localStorage st /\
  getToken (state_after x) = getToken st /\
  authApi_isLoggedIn (state_after x) = authApi_isLoggedIn st.
Proof.
  intros x. subst x.
  assert (Ht : getToken (state_after (clearAllCached st)) = getToken st).
  { apply getToken_ext; [|reflexivity]. now rewrite clearAllCached_lookup. }
  split; [reflexivity|]. split; [reflexivity|]. split.
  { intros key. unfold getCached. now rewrite clearAllCached_lookup, prefix_append. }
  split; [intros k P; now rewrite clearAllCached_lookup, P|].
  split; [now rewrite clearAllCached_lookup|].
  split; [reflexivity|]. split; [exact Ht|].
  unfold authApi_isLoggedIn. now rewrite Ht.
Qed.

(** ** One key at a time *)

(** X12.  Writing or clearing the cache under one key leaves every other
    cache key as it reads, and leaves the token resolved, the user info
    and persistent storage as they were, whether storage takes the write
    or refuses it. *)
Theorem cache_keys_are_independent refuses key key' (v : JsVal) st :
  key <> key' ->
  let written := state_after (setCached refuses key v st) in
  let cleared := state_after (clearCached key st) in
  getCached key' written = getCached key' st /\
  getCached key' cleared = getCached key' st /\
  getToken written = getToken st /\
  getToken cleared = getToken st /\
  sessionStorage written !! "admin_user_info" = sessionStorage st !! "admin_user_info" /\
  sessionStorage cleared !! "admin_user_info" = sessionStorage st !! "admin_user_info" /\
  localStorage written = localStorage st /\
  localStorage cleared = localStorage st.
Proof.
  intros Hk written cleared. subst written cleared.
  rewrite setCached_run, clearCached_run. unfold state_after. cbn [fst snd].
  assert (Hne : CACHE_PREFIX +:+ key <> CACHE_PREFIX +:+ key')
    by (intros E; apply Hk; now apply append_inj_l in E).
  pose proof (cache_key_not_token key) as Ht.
  pose proof (cache_key_not_user_info key) as Hu.
  destruct (refuses st _ _); simpl.
  - split; [reflexivity|].
    split; [apply getCached_ext; simpl; now rewrite lookup_delete_ne|].
    split; [reflexivity|].
    split; [apply getToken_ext; simpl; [now rewrite lookup_delete_ne|reflexivity]|].
    split; [reflexivity|].
    split; [now rewrite lookup_delete_ne|].
    split; reflexivity.
  - split; [apply getCached_ext; simpl; now rewrite lookup_insert_ne|].
    split; [apply getCached_ext; simpl; now rewrite lookup_delete_ne|].
    split; [apply getToken_ext; simpl; [now rewrite lookup_insert_ne|reflexivity]|].
    split; [apply getToken_ext; simpl; [now rewrite lookup_delete_ne|reflexivity]|].
    split; [now rewrite lookup_insert_ne|].
    split; [now rewrite lookup_delete_ne|].
    split; reflexivity.
Qed.

Lemma cache_keys_are_independent_witness :
  let st :=
    state_after (setCached roomy "projects" (JsJson (JArr [JNum 1])) (signed_in "jwt")) in
  getCached "projects" (state_after (clearCached "contacts" st)) = JArr [JNum 1] /\
  getToken (state_after (setCached roomy "contacts" (JsJson JNull) st)) = Some "jwt".
Proof.
  intros st.
  pose proof (cache_keys_are_independent roomy "contacts" "projects" (JsJson JNull) st
                ltac:(discriminate)) as H.
  destruct H as (_ & H2 & H3 & _).
  split; [exact H2 | exact H3].
Defined.

(** ** Read-through: failures and refreshes *)

(** X13.  When the producer is consulted (the refresh is forced, or the
    cache holds nothing it can return under the key: nothing stored, the
    empty text, text that begins with no JSON value, or the text of null)
    and throws, the read-through call throws the very same error after
    that one invocation and writes nothing: storage is as the producer
    left it, and the failure is not cached, so that the next call without
    forced refresh consults its producer again if the cache still holds
    nothing under the key. *)
Theorem producer_failure_is_not_cached refuses key producer producer2 forceRefresh st t st1 es :
  producer st = (Throw t, st1, es) ->
  forceRefresh = true \/ nothing_cached key st ->
  let x := cachedApiCall refuses key producer forceRefresh st in
  outcome x = Throw t /\
  state_after x = st1 /\
  effects_of x = [Invoke es] /\
  (nothing_cached key st1 ->
   invocations (effects_of (cachedApiCall refuses key producer2 false (state_after x)))
   = 1%nat).
Proof.
  intros Hp Hcase x.
  assert (E : x = (Throw t, st1, [Invoke es])).
  { subst x. destruct forceRefresh.
    - rewrite cachedApiCall_force. unfold fetch_and_store. now rewrite Hp.
    - destruct Hcase as [Hf | Hmiss]; [discriminate Hf|].
      rewrite cachedApiCall_miss by now apply nothing_cached_getCached.
      unfold fetch_and_store. now rewrite Hp. }
  rewrite E. unfold outcome, state_after. cbn [fst snd].
  split; [reflexivity|]. split; [reflexivity|]. split; [reflexivity|].
  intros Hmiss. rewrite cachedApiCall_miss by now apply nothing_cached_getCached.
  apply invocations_fetch_and_store.
Qed.

Lemma producer_failure_is_not_cached_witness :
  let x := cachedApiCall roomy "projects" failing false empty_storage in
  outcome x = Throw (ThrownApiError (mkApiError "Network error" 0 JsUndefined)) /\
  state_after x = empty_storage.
Proof.
  assert (Hn : nothing_cached "projects" empty_storage) by (vm_compute; exact I).
  pose proof (producer_failure_is_not_cached roomy "projects" failing failing false
                empty_storage
                (ThrownApiError (mkApiError "Network error" 0 JsUndefined)) empty_storage []
                eq_refl (or_intror Hn)) as H.
  destruct H as (H1 & H2 & _).
  split; [exact H1 | exact H2].
Defined.

(** X14.  When the producer is consulted (the refresh is forced, or the
    cache holds nothing it can return under the key: nothing stored, the
    empty text, text that begins with no JSON value, or the text of null)
    and returns a JSON-serialisable value, the read-through call invokes
    it once and returns the value.  When storage takes the write, the
    value is left stored under the key in place of whatever was there;
    when storage refuses it, storage is as the producer left it.  Either
    way every other cache key and the token resolved are as the producer
    left them. *)
Theorem refresh_replaces_the_entry refuses key key' producer forceRefresh st (j : Json) st1 es :
  producer st = (Ok (JsJson j), st1, es) -> json_wf j = true ->
  forceRefresh = true \/ nothing_cached key st ->
  let x := cachedApiCall refuses key producer forceRefresh st in
  outcome x = Ok (JsJson j) /\
  effects_of x = [Invoke es] /\
  (accepts refuses key (JsJson j) st1 -> getCached key (state_after x) = j) /\
  (~ accepts refuses key (JsJson j) st1 -> state_after x = st1) /\
  (key' <> key -> getCached key' (state_after x) = getCached key' st1) /\
  getToken (state_after x) = getToken st1.
Proof.
  intros Hp Hwf Hcase x.
  assert (E : x = (Ok (JsJson j), state_after (setCached refuses key (JsJson j) st1),
                   [Invoke es])).
  { subst x. destruct forceRefresh.
    - rewrite cachedApiCall_force. unfold fetch_and_store. now rewrite Hp.
    - destruct Hcase as [Hf | Hmiss]; [discriminate Hf|].
      rewrite cachedApiCall_miss by now apply nothing_cached_getCached.
      unfold fetch_and_store. now rewrite Hp. }
  rewrite E. unfold outcome, effects_of. cbn [fst snd].
  split; [reflexivity|]. split; [reflexivity|].
  change (state_after (Ok (JsJson j), state_after (setCached refuses key (JsJson j) st1),
                       [Invoke es]))
    with (state_after (setCached refuses key (JsJson j) st1)).
  split; [intros Hacc; now apply getCached_setCached|].
  split; [intros Hacc; now rewrite setCached_refused|].
  rewrite setCached_run. unfold state_after. cbn [fst snd].
  destruct (refuses st1 _ _); [split; reflexivity|].
  split.
  - intros Hk. apply getCached_ext. simpl. rewrite lookup_insert_ne; [reflexivity|].
    intros E'. apply Hk. symmetry. now apply append_inj_l in E'.
  - apply getToken_ext; [|reflexivity]. simpl.
    rewrite lookup_insert_ne; [reflexivity|apply cache_key_not_token].
Qed.

Lemma refresh_replaces_the_entry_witness :
  let stale := mkStorage {[ "cache_projects" := "undefined" ]} ∅ in
  let x := cachedApiCall (capped 100) "projects" (returning (JsJson (JArr []))) false stale in
  outcome x = Ok (JsJson (JArr [])) /\ getCached "projects" (state_after x) = JArr [].
Proof.
  intros stale x.
  assert (Hn : nothing_cached "projects" stale) by (vm_compute; right; left; reflexivity).
  assert (Hacc : accepts (capped 100) "projects" (JsJson (JArr [])) stale)
    by (vm_compute; reflexivity).
  pose proof (refresh_replaces_the_entry (capped 100) "projects" "contacts"
                (returning (JsJson (JArr []))) false stale (JArr []) stale []
                eq_refl eq_refl (or_intror Hn)) as H.
  destruct H as (H1 & _ & H3 & _).
  split; [exact H1 | exact (H3 Hacc)].
Defined.

(* ===================================================================== *)
(** * Further properties of the notification queue                        *)
(* ===================================================================== *)

(** ** Updates *)

Lemma spread_idem (a b : Obj) : spread (spread a b) b = spread a b.
Proof. unfold spread. rewrite (assoc_L (∪)). now rewrite (idemp_L (∪)). Qed.

Lemma get_complete (o : Obj) :
  strict_eq (get o "status") (str "complete") = true -> o !! "status" = Some (str "complete").
Proof.
  intros H. apply strict_eq_true in H. unfold get in H.
  destruct (o !! "status"); simpl in H; [now subst | discriminate H].
Qed.

(** What the callback of [update] dispatches: nothing for an entry it does
    not address, and at most one [data-changed] event, of one of the four
    categories, for one it does. *)
Lemma update_entry_effects id updates (toast : Obj) :
  (List.length (snd (update_entry id updates toast)) <=
   if strict_eq (get toast "id") id then 1 else 0)%nat /\
  forall e, List.In e (snd (update_entry id updates toast)) ->
            exists category, List.In category stated_keywords /\ e = data_changed category.
Proof.
  unfold update_entry, stated_keywords.
  destruct (strict_eq (get toast "id") id); [|split; [simpl; lia | intros e []]].
  repeat break_match; simpl; (split; [lia|]); intros e He;
    repeat (destruct He as [<- | He]; [eexists; split; [|reflexivity]; simpl; tauto|]);
    destruct He.
Qed.

(** An update that does not set the status to [complete] merges and does
    nothing else, on any entry. *)
Lemma update_entry_plain id updates (toast : Obj) :
  strict_eq (get updates "status") (str "complete") = false ->
  update_entry id updates toast =
  (Ok (if strict_eq (get toast "id") id then spread toast updates else toast), []).
Proof.
  intros H. unfold update_entry. rewrite H. simpl.
  now destruct (strict_eq (get toast "id") id).
Qed.

(** Once the callback has returned an entry, the same update applied to
    that entry returns it again and dispatches nothing. *)
Lemma update_entry_again id updates (toast toast' : Obj) es :
  update_entry id updates toast = (Ok toast', es) ->
  update_entry id updates toast' = (Ok toast', []).
Proof.
  intros H. pose proof (update_entry_ok _ _ _ _ _ H) as E.
  destruct (strict_eq (get toast "id") id) eqn:Hid.
  - subst toast'. unfold update_entry.
    destruct (strict_eq (get (spread toast updates) "id") id); [|reflexivity].
    rewrite spread_idem.
    destruct (strict_eq (get updates "status") (str "complete")) eqn:Hs; [|reflexivity].
    apply get_complete in Hs.
    rewrite get_spread, Hs. simpl. reflexivity.
  - subst toast'. now apply update_entry_other.
Qed.

Lemma map_entries_again id updates q q' es :
  map_entries (update_entry id updates) q = (Ok q', es) ->
  map_entries (update_entry id updates) q' = (Ok q', []).
Proof.
  revert q' es. induction q as [|toast q IH]; intros q' es H.
  - simpl in H. injection H as <- <-. reflexivity.
  - simpl in H.
    destruct (update_entry id updates toast) as [[toast'|t] es1] eqn:E1; [|discriminate H].
    destruct (map_entries (update_entry id updates) q) as [[rest|t] es2] eqn:E2;
      [|discriminate H].
    injection H as <- <-. simpl.
    now rewrite (update_entry_again _ _ _ _ _ E1), (IH _ _ eq_refl).
Qed.

Lemma map_entries_effects id updates q :
  (List.length (snd (map_entries (update_entry id updates) q)) <= count_id id q)%nat /\
  forall e, List.In e (snd (map_entries (update_entry id updates) q)) ->
            exists category, List.In category stated_keywords /\ e = data_changed category.
Proof.
  induction q as [|toast q [IH1 IH2]]; [split; [simpl; lia | intros e []]|].
  destruct (update_entry_effects id updates toast) as [H1 H2].
  rewrite count_id_cons. simpl.
  destruct (update_entry id updates toast) as [[toast'|t] es1]; simpl in *.
  - destruct (map_entries (update_entry id updates) q) as [[rest|t] es2]; simpl in *;
      (split; [rewrite List.length_app; lia|]);
      intros e He; apply List.in_app_or in He as [He|He]; auto.
  - split; [lia | exact H2].
Qed.

Lemma map_entries_plain id updates q :
  strict_eq (get updates "status") (str "complete") = false ->
  map_entries (update_entry id updates) q = (Ok (spec_update id updates q), []).
Proof.
  intros H. induction q as [|toast q IH]; [reflexivity|].
  simpl. rewrite (update_entry_plain _ _ _ H), IH. reflexivity.
Qed.

(** X15.  An update that has returned changes nothing and dispatches
    nothing when it is applied again: the queue is the same after the
    second call as after the first, and no second [data-changed] event is
    broadcast for an entry that is already complete. *)
Theorem update_again_changes_nothing id updates q :
  outcome (updateToast id updates q) = Ok tt ->
  updateToast id updates (state_after (updateToast id updates q)) =
  (Ok tt, state_after (updateToast id updates q), []).
Proof.
  unfold updateToast, outcome, state_after.
  destruct (map_entries (update_entry id updates) q) as [[next|t] es] eqn:E; simpl;
    [|discriminate].
  intros _. now rewrite (map_entries_again _ _ _ _ _ E).
Qed.

Lemma update_again_changes_nothing_witness :
  let q := state_after (addToast "a" (list_to_map [("type", str "upload")]) []) in
  let done := list_to_map [("status", str "complete")] in
  effects_of (updateToast (str "a") done q) = [data_changed "upload"] /\
  effects_of (updateToast (str "a") done (state_after (updateToast (str "a") done q))) = [].
Proof.
  intros q done. split; [vm_compute; reflexivity|].
  now rewrite (update_again_changes_nothing (str "a") done q eq_refl).
Defined.

(** X16.  Whatever the queue and the arguments, [update] dispatches
    nothing but [data-changed] events, each tagged with one of the four
    categories upload, archive, restore and delete, and no more of them
    than there are entries with the id it addresses; and an update that
    does not set the status to [complete] dispatches nothing and cannot
    throw, whatever the entries hold: it only merges its fields into the
    entries with the id. *)
Theorem update_broadcasts_are_bounded id updates q :
  let x := updateToast id updates q in
  (List.length (effects_of x) <= count_id id q)%nat /\
  (forall e, List.In e (effects_of x) ->
             exists category, List.In category stated_keywords /\ e = data_changed category) /\
  (strict_eq (get updates "status") (str "complete") = false ->
   x = (Ok tt, spec_update id updates q, [])).
Proof.
  intros x. subst x.
  destruct (map_entries_effects id updates q) as [H1 H2].
  unfold updateToast, effects_of.
  split; [|split].
  - destruct (map_entries (update_entry id updates) q) as [[next|t] es]; exact H1.
  - destruct (map_entries (update_entry id updates) q) as [[next|t] es]; exact H2.
  - intros H. now rewrite (map_entries_plain _ _ _ H).
Qed.

(** ** The listener for update events *)

Lemma ids_spec_update id updates q :
  updates !! "id" = None \/ get updates "id" = id ->
  ids (spec_update id updates q) = ids q.
Proof.
  intros H. unfold ids, spec_update. rewrite List.map_map. apply List.map_ext.
  intros toast. destruct (strict_eq (get toast "id") id) eqn:E; [|reflexivity].
  apply strict_eq_true in E.
  change (updates ∪ toast) with (spread toast updates). rewrite get_spread.
  destruct (updates !! "id") as [v|] eqn:L; [|reflexivity].
  destruct H as [H|H]; [discriminate H|]. unfold get in H. rewrite L in H. simpl in H.
  congruence.
Qed.

(** X17.  An [update-toast] event never renames, adds or removes an entry:
    whatever its payload and whatever the queue, the ids of the entries
    are the same, in the same order, after the listener has run, so that
    a queue with at most one entry per id stays one. *)
Theorem update_event_keeps_the_ids detail q :
  ids (state_after (handleUpdateToast detail q)) = ids q /\
  (unique_ids q -> unique_ids (state_after (handleUpdateToast detail q))).
Proof.
  assert (H : ids (state_after (handleUpdateToast detail q)) = ids q).
  { unfold handleUpdateToast, updateToast, state_after.
    destruct (map_entries (update_entry (get detail "id") detail) q) as [[next|t] es] eqn:E;
      [|reflexivity].
    simpl. rewrite (map_entries_spec _ _ _ _ _ E).
    apply ids_spec_update. destruct (detail !! "id"); [now right | now left]. }
  split; [exact H|].
  assert (C : forall id q1 q2, ids q1 = ids q2 -> count_id id q1 = count_id id q2).
  { intros id q1. induction q1 as [|a q1 IH]; intros [|b q2] E; try discriminate E;
      [reflexivity|].
    unfold ids in E. simpl in E. injection E as E1 E2.
    rewrite !count_id_cons, E1. f_equal. now apply IH. }
  intros U id. rewrite (C id _ _ H). apply U.
Qed.

(** ** add followed by remove *)

Lemma spec_remove_absent id q : count_id id q = 0%nat -> spec_remove id q = q.
Proof.
  intros H. pose proof (removeToast_absent id q H) as E.
  rewrite removeToast_run in E. now injection E.
Qed.

Lemma spec_remove_last id q (entry : Obj) :
  count_id id q = 0%nat -> strict_eq (get entry "id") id = true ->
  spec_remove id (q ++ [entry]) = q.
Proof.
  intros H E. unfold spec_remove. rewrite List.filter_app. simpl. rewrite E. simpl.
  rewrite app_nil_r. now apply spec_remove_absent.
Qed.

(** X18.  [remove] undoes [add]: when the argument of [add] carries no id
    or a truthy one, the id of the new entry is a primitive value and no
    entry of the queue has it, removing the id that [add] returned gives
    back the queue as it was before the [add]. *)
Theorem remove_undoes_add generated (toast : Obj) q :
  id_absent_or_truthy toast ->
  primitive (entry_id generated toast) ->
  count_id (entry_id generated toast) q = 0%nat ->
  let added := addToast generated toast q in
  returned added = entry_id generated toast /\
  state_after (removeToast (returned added) (state_after added)) = q.
Proof.
  intros Hid Hp Hc added. subst added.
  assert (Hget : get (spec_entry generated toast) "id" = entry_id generated toast).
  { unfold spec_entry, entry_id.
    change (toast ∪ defaults generated) with (spread (defaults generated) toast).
    rewrite get_spread. now destruct (toast !! "id"). }
  rewrite (addToast_returns_entry_id _ _ _ Hid), Hget.
  split; [reflexivity|].
  rewrite addToast_run, removeToast_run. unfold state_after. simpl.
  apply spec_remove_last; [exact Hc|]. rewrite Hget. exact Hp.
Qed.

Lemma remove_undoes_add_witness :
  let q := state_after (addToast "a" (list_to_map [("title", str "first")]) []) in
  let added := addToast "b" (list_to_map [("title", str "second")]) q in
  state_after (removeToast (returned added) (state_after added)) = q.
Proof.
  intros q added.
  pose proof (remove_undoes_add "b" (list_to_map [("title", str "second")]) q
                (or_introl eq_refl) eq_refl eq_refl) as H.
  exact (proj2 H).
Defined.

(* ===================================================================== *)
(** * Properties of the helpers                                           *)
(* ===================================================================== *)

(** ** Requests with a health check *)

(** X19.  [fetchWithStatus] never throws and never touches the state.
    When the network answers the request, whatever the status of the
    answer, it resolves to [ok: true] with that response after that one
    request.  When the request is rejected it asks the health endpoint
    [/health] of the base URL and resolves to [ok: false]: of type
    [server_offline], with a fixed text, when the health check is rejected
    or is answered with a status outside 200 to 299, and of type
    [fetch_error], with the message of the rejection, when it is answered
    with such a status. *)
Theorem fetchWithStatus_never_throws {S} env later url options (s : S) :
  let x := Helpers.fetchWithStatus env later url options s in
  state_after x = s /\
  exists v r,
    outcome x = Ok v /\
    List.hd_error (requests (effects_of x)) = Some r /\
    req_url r = url /\
    match v with
    | Helpers.StatusOk res =>
        requests (effects_of x) = [r] /\ network env r = Responded res
    | Helpers.StatusFailed error type =>
        exists h msg,
          requests (effects_of x) = [r; h] /\
          network env r = Rejected msg /\
          req_url h = Helpers.API_BASE_URL env +:+ "/health" /\
          ((type = "server_offline" /\ error = "Server offline or not communicating" /\
            forall res, later h = Responded res -> ok res = false) \/
           (type = "fetch_error" /\ error = msg /\
            exists res, later h = Responded res /\ ok res = true))
    end.
Proof.
  intros x. subst x. unfold Helpers.fetchWithStatus, Helpers.checkServerHealth. run_m.
  destruct (network env _) as [res|msg] eqn:N; simpl.
  - split; [reflexivity|]. eexists. eexists. split; [reflexivity|].
    split; [reflexivity|]. split; [reflexivity|]. split; [reflexivity | exact N].
  - destruct (later _) as [res|msg'] eqn:L; simpl.
    + destruct (ok res) eqn:Hok; simpl;
        (split; [reflexivity|]); eexists; eexists; (split; [reflexivity|]);
        (split; [reflexivity|]); (split; [reflexivity|]);
        eexists; exists msg; (split; [reflexivity|]); (split; [exact N|]);
        (split; [reflexivity|]).
      * right. split; [reflexivity|]. split; [reflexivity|]. exists res. now split.
      * left. split; [reflexivity|]. split; [reflexivity|].
        intros res' E. rewrite L in E. injection E as <-. exact Hok.
    + split; [reflexivity|]. eexists. eexists. split; [reflexivity|].
      split; [reflexivity|]. split; [reflexivity|].
      eexists. exists msg. split; [reflexivity|]. split; [exact N|].
      split; [reflexivity|].
      left. split; [reflexivity|]. split; [reflexivity|].
      intros res' E. rewrite L in E. discriminate E.
Qed.

(** ** File validation *)

Lemma lower_char_dot c : Ascii.eqb (lower_char c) "." = Ascii.eqb c ".".
Proof. destruct c as [[] [] [] [] [] [] [] []]; reflexivity. Qed.

Lemma lastIndexOf_toLowerCase s :
  Helpers.lastIndexOf "." (toLowerCase s) = Helpers.lastIndexOf "." s.
Proof.
  induction s as [|c s IH]; [reflexivity|].
  change (toLowerCase (String c s)) with (String (lower_char c) (toLowerCase s)).
  cbn [Helpers.lastIndexOf]. now rewrite IH, lower_char_dot.
Qed.

Lemma lastIndexOf_bound c s : -1 <= Helpers.lastIndexOf c s.
Proof.
  induction s as [|a s IH]; simpl; [lia|].
  destruct (Z.leb_spec 0 (Helpers.lastIndexOf c s)); [lia|].
  destruct (Ascii.eqb a c); lia.
Qed.

(** The last dot of a text that ends in a dot followed by dotless text. *)
Lemma lastIndexOf_suffix base rest :
  dotless rest ->
  Helpers.lastIndexOf "." (base +:+ String "." rest) = Z.of_nat (String.length base).
Proof.
  intros H. unfold dotless in H. induction base as [|a base IH].
  - rewrite append_nil. cbn [Helpers.lastIndexOf]. rewrite H. reflexivity.
  - rewrite append_cons. cbn [Helpers.lastIndexOf String.length]. rewrite IH.
    destruct (Z.leb_spec 0 (Z.of_nat (String.length base))); lia.
Qed.

Lemma drop_chars_append base rest :
  Helpers.drop_chars (String.length base) (base +:+ rest) = rest.
Proof.
  induction base as [|a base IH]; [rewrite append_nil; now destruct rest|].
  rewrite append_cons. simpl. exact IH.
Qed.

Lemma drop_chars_suffix n s : exists base, s = base +:+ Helpers.drop_chars n s.
Proof.
  revert s. induction n as [|n IH]; intros s.
  - exists EmptyString. now destruct s.
  - destruct s as [|a s]; [now exists EmptyString|].
    destruct (IH s) as (base & E). exists (String a base).
    rewrite append_cons. simpl. now rewrite <- E.
Qed.

(** The text the file name is judged by is an allowed extension exactly
    when the lower-cased name ends in one. *)
Lemma extension_allowed name :
  List.existsb
    (String.eqb (Helpers.substring (Helpers.lastIndexOf "." name) (toLowerCase name)))
    Helpers.allowedExtensions = true <->
  has_allowed_extension name.
Proof.
  split.
  - intros H. apply List.existsb_exists in H as (ext & Hin & E).
    apply String.eqb_eq in E.
    destruct (drop_chars_suffix (Z.to_nat (Helpers.lastIndexOf "." name)) (toLowerCase name))
      as (base & Hb).
    exists base, ext. split; [exact Hin|]. unfold Helpers.substring in E.
    now rewrite E in Hb.
  - intros (base & ext & Hin & E).
    apply List.existsb_exists. exists ext. split; [exact Hin|].
    apply String.eqb_eq.
    assert (Hd : exists rest, ext = String "." rest /\ dotless rest).
    { unfold Helpers.allowedExtensions in Hin. simpl in Hin.
      repeat (destruct Hin as [<- | Hin]; [eexists; split; reflexivity|]).
      destruct Hin. }
    destruct Hd as (rest & -> & Hr).
    rewrite <- lastIndexOf_toLowerCase, E, (lastIndexOf_suffix _ _ Hr).
    unfold Helpers.substring. rewrite Nat2Z.id. apply drop_chars_append.
Qed.

(** X20.  For a file whose name is made of ASCII characters,
    [validateFile] accepts the file exactly when its name, lower-cased,
    ends in one of the extensions .pdf, .png, .jpg, .jpeg, .txt, .webp,
    .md and .json and its size does not exceed the limit (25 MiB when none
    is given): a size equal to the limit is accepted.  A name that does
    not end so is rejected as an unsupported type whatever the size, a
    name without a dot among them; a name that does, with a size over the
    limit, is rejected with the message about the size. *)
Theorem validateFile_accepts formatBytes file maxSize :
  ascii_text (Helpers.file_name file) = true ->
  let verdict := Helpers.validateFile formatBytes file maxSize in
  (verdict = JObj [("valid", JBool true)] <->
   has_allowed_extension (Helpers.file_name file) /\
   Helpers.file_size file <= size_limit maxSize) /\
  (~ has_allowed_extension (Helpers.file_name file) ->
   verdict = JObj [("valid", JBool false); ("error", JStr "File type not supported")]) /\
  (dotless (Helpers.file_name file) ->
   verdict = JObj [("valid", JBool false); ("error", JStr "File type not supported")]) /\
  (has_allowed_extension (Helpers.file_name file) ->
   size_limit maxSize < Helpers.file_size file ->
   verdict =
   JObj [("valid", JBool false);
         ("error",
          JStr ("File size exceeds " +:+ formatBytes (size_limit maxSize) +:+ " limit"))]).
Proof.
  intros _ verdict. subst verdict. unfold Helpers.validateFile, size_limit.
  pose proof (extension_allowed (Helpers.file_name file)) as Hext.
  destruct (List.existsb _ Helpers.allowedExtensions) eqn:E; simpl.
  - assert (Ha : has_allowed_extension (Helpers.file_name file)) by now apply Hext.
    assert (Hnd : ~ dotless (Helpers.file_name file)).
    { intros Hd. unfold dotless in Hd. rewrite Hd in E.
      unfold Helpers.substring in E. change (Z.to_nat (-1)) with 0%nat in E.
      cbn [Helpers.drop_chars] in E.
      destruct Ha as (base & ext & Hin & Hl).
      apply List.existsb_exists in E as (ext' & Hin' & E'). apply String.eqb_eq in E'.
      assert (D : Helpers.lastIndexOf "." (toLowerCase (Helpers.file_name file)) = -1)
        by now rewrite lastIndexOf_toLowerCase.
      rewrite E' in D. unfold Helpers.allowedExtensions in Hin'. simpl in Hin'.
      repeat (destruct Hin' as [<- | Hin']; [vm_compute in D; discriminate D|]).
      destruct Hin'. }
    destruct (Z.gtb_spec (Helpers.file_size file) (default (25 * 1024 * 1024) maxSize))
      as [Hgt|Hle].
    + split; [split; [discriminate | intros [_ Hs]; lia]|].
      split; [intros Hn; now contradiction Hn|].
      split; [intros Hn; now contradiction Hnd|]. reflexivity.
    + split; [split; [intros _; split; [exact Ha | lia] | reflexivity]|].
      split; [intros Hn; now contradiction Hn|].
      split; [intros Hn; now contradiction Hnd|]. intros _ Hs. lia.
  - assert (Ha : ~ has_allowed_extension (Helpers.file_name file)).
    { intros H. apply Hext in H. discriminate H. }
    split; [split; [discriminate | intros [Hn _]; now contradiction Ha]|].
    split; [reflexivity|]. split; [reflexivity|].
    intros Hn. now contradiction Ha.
Qed.

Lemma validateFile_accepts_witness :
  let formatBytes := fun n => string_of_Z n +:+ " Bytes" in
  Helpers.validateFile formatBytes (Helpers.mkFile "Report.final.PDF" 1024) None =
  JObj [("valid", JBool true)] /\
  Helpers.validateFile formatBytes (Helpers.mkFile "notes" 1024) None =
  JObj [("valid", JBool false); ("error", JStr "File type not supported")].
Proof.
  intros formatBytes. split.
  - destruct (validateFile_accepts formatBytes (Helpers.mkFile "Report.final.PDF" 1024) None
                eq_refl) as (H & _).
    apply H. split; [|vm_compute; discriminate].
    exists "report.final", ".pdf". split; [simpl; tauto | reflexivity].
  - destruct (validateFile_accepts formatBytes (Helpers.mkFile "notes" 1024) None eq_refl)
      as (_ & _ & H & _).
    apply H. reflexivity.
Defined.

(** ** Relative times *)

(** X21.  For a truthy argument that is a valid date, with [elapsed] the
    milliseconds from that date to now: [formatRelativeTime] gives the
    text just now below one minute, a date in the future included; a
    count of whole minutes from 1 to 59 below one hour; of whole hours
    from 1 to 23 below one day; of whole days from 1 to 6 below one week;
    and the date in the locale's form from one week on.  A falsy argument
    and an invalid date give the text N/A. *)
Theorem formatRelativeTime_buckets timeOf now toLocaleDateString v :
  let out := Helpers.formatRelativeTime timeOf now toLocaleDateString v in
  (truthy v = false \/ timeOf v = None -> out = "N/A") /\
  forall date, truthy v = true -> timeOf v = Some date ->
    let elapsed := now - date in
    (elapsed < 60000 -> out = "just now") /\
    (60000 <= elapsed < 3600000 ->
     exists n, 1 <= n <= 59 /\ n = elapsed / 60000 /\ out = string_of_Z n +:+ "m ago") /\
    (3600000 <= elapsed < 86400000 ->
     exists n, 1 <= n <= 23 /\ n = elapsed / 3600000 /\ out = string_of_Z n +:+ "h ago") /\
    (86400000 <= elapsed < 604800000 ->
     exists n, 1 <= n <= 6 /\ n = elapsed / 86400000 /\ out = string_of_Z n +:+ "d ago") /\
    (604800000 <= elapsed -> out = toLocaleDateString date).
Proof.
  intros out. subst out. unfold Helpers.formatRelativeTime. split.
  - intros [H | H]; [now rewrite H|]. rewrite H. now destruct (truthy v).
  - intros date Ht Hd. rewrite Ht, Hd. simpl.
    set (e := now - date).
    assert (D : forall k, 0 < k -> e / 1000 / k = e / (1000 * k))
      by (intros k Hk; rewrite Z.div_div by lia; reflexivity).
    rewrite (D 60), (D 3600), (D 86400) by lia. simpl.
    destruct (Z.ltb_spec (e / 1000) 60); [|destruct (Z.ltb_spec (e / 1000) 3600);
      [|destruct (Z.ltb_spec (e / 1000) 86400);
        [|destruct (Z.ltb_spec (e / 1000) 604800)]]].
    all: repeat split; try (intros; exfalso; Z.div_mod_to_equations; lia).
    all: try (intros _; eexists; split; [|split; reflexivity]; Z.div_mod_to_equations; lia).
    all: try reflexivity.
Qed.

Lemma formatRelativeTime_buckets_witness :
  Helpers.formatRelativeTime (fun _ => Some 1000000) 1300000 (fun _ => "1/1/1970")
    (JsJson (JStr "1970-01-01T00:16:40Z")) = "5m ago".
Proof.
  pose proof (formatRelativeTime_buckets (fun _ => Some 1000000) 1300000 (fun _ => "1/1/1970")
                (JsJson (JStr "1970-01-01T00:16:40Z"))) as [_ H].
  destruct (H 1000000 eq_refl eq_refl) as (_ & H2 & _).
  destruct (H2 ltac:(lia)) as (n & _ & Hn & E).
  rewrite E, Hn. reflexivity.
Defined.

(* ===================================================================== *)
(** * Properties of the notifications on screen                           *)
(* ===================================================================== *)

(** ** Headings *)

Lemma text_cases (v : JsVal) :
  text v <> None ->
  truthy v = false \/ exists c rest, v = JsJson (JStr (String c rest)).
Proof.
  destruct v as [|[| | |s| |]]; simpl; intros H; try (now left); try (now contradiction H).
  destruct s as [|c rest]; [now left | right; eauto].
Qed.

(** X22.  For an entry whose action and title are text or unset,
    [getActionText] does not throw and gives a heading that is never
    empty: Failed for an entry in error; for a complete entry one of
    Uploaded, Archived, Restored, Deleted, Saved and Complete; and for an
    entry in progress without bulk progress the action, which when it
    begins with an ASCII character is the action with that character in
    upper case, or else the title, or else Processing. *)
Theorem heading_is_never_empty (toast : Obj) :
  text (get toast "action") <> None -> text (get toast "title") <> None ->
  exists s,
    ToastContainer.getActionText toast = Ok (str s) /\
    s <> "" /\
    (ToastContainer.isError toast = true -> s = "Failed") /\
    (ToastContainer.isError toast = false -> ToastContainer.isComplete toast = true ->
     List.In s past_tenses) /\
    (ToastContainer.isProcessing toast = true -> truthy (get toast "bulkProgress") = false ->
     (forall c rest, get toast "action" = str (String c rest) -> ascii_char c = true ->
                     s = String (upper_char c) rest) /\
     (truthy (get toast "action") = false ->
      forall c rest, get toast "title" = str (String c rest) -> s = String c rest) /\
     (truthy (get toast "action") = false -> truthy (get toast "title") = false ->
      s = "Processing")).
Proof.
  intros Ha Ht. unfold ToastContainer.getActionText, ToastContainer.isProcessing, past_tenses.
  destruct (ToastContainer.isError toast) eqn:He.
  { exists "Failed". split; [reflexivity|]. split; [discriminate|].
    split; [reflexivity|]. split; [discriminate|].
    intros H. rewrite andb_false_r in H. discriminate H. }
  set (action := get toast "action") in *. set (title := get toast "title") in *.
  assert (Hlow : exists act,
             ToastContainer.lower (or_else action (or_else title (str "Processing"))) = Ok act).
  { destruct (text_cases action Ha) as [Fa | (c & rest & Ea)].
    - unfold or_else. rewrite Fa.
      destruct (text_cases title Ht) as [Ft | (c & rest & Et)].
      + rewrite Ft. simpl. eauto.
      + rewrite Et. simpl. eauto.
    - rewrite Ea. unfold or_else. simpl. eauto. }
  destruct Hlow as (act & Hlow). rewrite Hlow.
  destruct (ToastContainer.isComplete toast) eqn:Hc.
  { assert (Hin : exists s, (if includes "uploading" act then Ok (str "Uploaded")
                             else if includes "archiving" act then Ok (str "Archived")
                             else if includes "restoring" act then Ok (str "Restored")
                             else if includes "deleting" act then Ok (str "Deleted")
                             else if includes "saving" act then Ok (str "Saved")
                             else Ok (str "Complete")) = Ok (str s) /\
                            s <> "" /\
                            List.In s ["Uploaded"; "Archived"; "Restored"; "Deleted";
                                       "Saved"; "Complete"]).
    { repeat match goal with
             | |- context [includes ?w act] => destruct (includes w act)
             end;
        eexists; (split; [reflexivity|]); (split; [discriminate|]); simpl; tauto. }
    destruct Hin as (s & E & Hne & Hin). exists s.
    split; [exact E|]. split; [exact Hne|]. split; [discriminate|].
    split; [intros _ _; exact Hin|]. simpl. discriminate. }
  simpl negb. simpl andb.
  destruct (truthy (get toast "bulkProgress")) eqn:Hb.
  { assert (Hd : exists d, (if truthy action then ToastContainer.capitalized action
                            else Ok "Processing") = Ok d).
    { destruct (text_cases action Ha) as [Fa | (c & rest & Ea)].
      - rewrite Fa. eauto.
      - rewrite Ea. simpl. eauto. }
    destruct Hd as (d & Hd). rewrite Hd.
    assert (Hm : forall k, exists r, member (get toast "bulkProgress") k = Ok r).
    { intros k. destruct (get toast "bulkProgress") as [|[]]; simpl in *;
        try discriminate Hb; eauto. }
    destruct (Hm "current") as (cur & Hcur). destruct (Hm "total") as (tot & Htot).
    rewrite Hcur, Htot. eexists. split; [reflexivity|].
    split.
    { intros E. destruct d; rewrite ?append_nil, ?append_cons in E; discriminate E. }
    split; [discriminate|]. split; [discriminate|]. discriminate. }
  destruct (text_cases action Ha) as [Fa | (c & rest & Ea)].
  - rewrite Fa.
    destruct (text_cases title Ht) as [Ft | (c & rest & Et)].
    + unfold or_else. rewrite Ft. exists "Processing".
      split; [reflexivity|]. split; [discriminate|]. split; [discriminate|].
      split; [discriminate|]. intros _ _.
      split; [intros c rest E _; rewrite E in Fa; discriminate Fa|].
      split; [intros _ c rest E; rewrite E in Ft; discriminate Ft|]. reflexivity.
    + rewrite Et. unfold or_else. simpl. exists (String c rest).
      split; [reflexivity|]. split; [discriminate|]. split; [discriminate|].
      split; [discriminate|]. intros _ _.
      split; [intros c' rest' E _; rewrite E in Fa; discriminate Fa|].
      split; [intros _ c' rest' E; now injection E as -> ->|].
      intros _ H. discriminate H.
  - rewrite Ea. simpl. exists (String (upper_char c) rest).
    split; [reflexivity|]. split; [discriminate|]. split; [discriminate|].
    split; [discriminate|]. intros _ _.
    split; [intros c' rest' E _; now injection E as -> ->|].
    split; [intros H; discriminate H|]. intros H. discriminate H.
Qed.

Lemma heading_is_never_empty_witness :
  ToastContainer.getActionText
    (list_to_map [("status", str "pending"); ("action", str "uploading")]) =
  Ok (str "Uploading").
Proof.
  set (toast := list_to_map [("status", str "pending"); ("action", str "uploading")] : Obj).
  assert (Ha : text (get toast "action") <> None) by (vm_compute; discriminate).
  assert (Ht : text (get toast "title") <> None) by (vm_compute; discriminate).
  destruct (heading_is_never_empty toast Ha Ht) as (s & E & _ & _ & _ & H).
  destruct (H eq_refl eq_refl) as (H1 & _).
  rewrite E. now rewrite (H1 "u"%char "ploading" eq_refl eq_refl).
Defined.

(** ** Auto-dismiss *)

Lemma produce_run p generated message title q :
  exists entry,
    produce p generated message title q = (Ok tt, q ++ [entry], []) /\
    get entry "id" = str generated /\
    (ToastContainer.isComplete entry || ToastContainer.isError entry = true).
Proof.
  destruct p; simpl; [rewrite showSuccess_run | rewrite showError_run];
    eexists; (split; [reflexivity|]);
    (split; [now rewrite get_spec_entry_id|]);
    unfold ToastContainer.isComplete, ToastContainer.isError, spec_entry;
    match goal with
    | |- context [?t ∪ defaults generated] =>
        change (t ∪ defaults generated) with (spread (defaults generated) t)
    end;
    rewrite get_spread; reflexivity.
Qed.

(** X23.  A notification produced by [showSuccess] or [showError] dismisses
    itself: the entry appended is complete or in error from the start, so
    that its auto-dismiss timer is armed, with a delay of 2 s on a narrow
    viewport and 5 s on a wide one and with the generated id; and when no
    other entry has that id, the firing of the timer leaves the queue as
    it was before the notification. *)
Theorem shown_notification_dismisses_itself p generated message title q isMobile :
  count_id (str generated) q = 0%nat ->
  exists entry,
    state_after (produce p generated message title q) = q ++ [entry] /\
    ToastContainer.dismiss_timer isMobile entry =
      Some (dismiss_delay isMobile, str generated) /\
    state_after (ToastContainer.dismiss isMobile entry (q ++ [entry])) = q.
Proof.
  intros Hc. destruct (produce_run p generated message title q) as (entry & E & Hid & Hst).
  exists entry. rewrite E. split; [reflexivity|].
  assert (T : ToastContainer.dismiss_timer isMobile entry =
              Some (dismiss_delay isMobile, str generated)).
  { unfold ToastContainer.dismiss_timer. now rewrite Hst, Hid. }
  split; [exact T|].
  unfold ToastContainer.dismiss. rewrite T, removeToast_run. unfold state_after. simpl.
  apply spec_remove_last; [exact Hc|]. rewrite Hid. simpl. apply String.eqb_refl.
Qed.

Lemma shown_notification_dismisses_itself_witness :
  exists entry,
    state_after (showError "g" (str "Failed to load submissions") JsUndefined []) = [entry] /\
    state_after (ToastContainer.dismiss true entry [entry]) = [].
Proof.
  destruct (shown_notification_dismisses_itself Failure "g" (str "Failed to load submissions")
              JsUndefined [] true eq_refl) as (entry & H1 & _ & H3).
  exists entry. split; [exact H1 | exact H3].
Defined.

(* ===================================================================== *)
(** * Properties of the pages                                             *)
(* ===================================================================== *)

(** ** The communication page *)

Ltac run_page :=
  unfold finally, try_catch, CommunicationPage.on_storage, CommunicationPage.on_toasts,
    CommunicationPage.setLoading, CommunicationPage.setSubmissions;
  unfold zoom; run_m.

Lemma holds_shown generated status title_default message :
  holds (spec_entry generated (shown status title_default (str message) JsUndefined))
    [("id", generated); ("status", status); ("title", title_default); ("message", message)].
Proof.
  unfold holds, spec_entry.
  change (shown status title_default (str message) JsUndefined ∪ defaults generated)
    with (spread (defaults generated) (shown status title_default (str message) JsUndefined)).
  repeat constructor; simpl; rewrite get_spread; reflexivity.
Qed.

(** The producers of notifications and the calls of the backend are taken
    as wholes in what follows. *)
Local Opaque showError showSuccess addToast.
Local Opaque communication_getAll communication_updateStatus communication_delete.

(** What [loadSubmissions] does, by what the call of the backend gives. *)
Lemma loadSubmissions_run env generated st :
  let call := Api.communication_getAll env (statusParam st) (CommunicationPage.storage st) in
  CommunicationPage.loadSubmissions env generated st =
  (Ok tt,
   match records_of call with
   | Some records =>
       CommunicationPage.mkState (state_after call) (CommunicationPage.toasts st)
         (or_else records (JsJson (JArr []))) false (CommunicationPage.status_filter st)
   | None =>
       CommunicationPage.mkState (state_after call)
         (CommunicationPage.toasts st ++
          [spec_entry generated
             (shown "error" "Error" (str "Failed to load submissions") JsUndefined)])
         (CommunicationPage.submissions st) false (CommunicationPage.status_filter st)
   end,
   effects_of call).
Proof.
  intros call. subst call. unfold CommunicationPage.loadSubmissions, records_of, statusParam.
  run_page.
  destruct (communication_getAll env _ (CommunicationPage.storage st))
    as [[[response|t] s1] es]; simpl.
  - destruct (member response "records") as [records|t]; simpl.
    + now rewrite !app_nil_r.
    + rewrite showError_run. simpl. now rewrite !app_nil_r.
  - rewrite showError_run. simpl. now rewrite !app_nil_r.
Qed.

(** X24.  [loadSubmissions] never throws and always ends with the loading
    flag down and the filter as it was; it issues the requests of one
    call of the communication list, for the status of the filter (none
    for the filter all), and nothing else.  When the call delivers, the
    submissions become the records of the response, the empty list when
    it has none, and no notification is shown; when the call throws, or
    returns null, the submissions stay as they were and exactly one
    notification is appended: an error titled Error with the text Failed
    to load submissions. *)
Theorem loadSubmissions_never_throws env generated st :
  let call := Api.communication_getAll env (statusParam st) (CommunicationPage.storage st) in
  let x := CommunicationPage.loadSubmissions env generated st in
  outcome x = Ok tt /\
  CommunicationPage.loading (state_after x) = false /\
  CommunicationPage.status_filter (state_after x) = CommunicationPage.status_filter st /\
  CommunicationPage.storage (state_after x) = state_after call /\
  effects_of x = effects_of call /\
  match records_of call with
  | Some records =>
      CommunicationPage.submissions (state_after x) = or_else records (JsJson (JArr [])) /\
      CommunicationPage.toasts (state_after x) = CommunicationPage.toasts st
  | None =>
      CommunicationPage.submissions (state_after x) = CommunicationPage.submissions st /\
      exists entry,
        CommunicationPage.toasts (state_after x) = CommunicationPage.toasts st ++ [entry] /\
        holds entry [("id", generated); ("status", "error"); ("title", "Error");
                     ("message", "Failed to load submissions")]
  end.
Proof.
  intros call x. subst x. rewrite loadSubmissions_run. fold call.
  unfold outcome at 1, state_after at 1 2 3 4 5, effects_of at 1. cbn [fst snd].
  destruct (records_of call) as [records|]; cbn;
    (split; [reflexivity|]); (split; [reflexivity|]); (split; [reflexivity|]);
    (split; [reflexivity|]); (split; [reflexivity|]).
  - split; reflexivity.
  - split; [reflexivity|]. eexists. split; [reflexivity|]. apply holds_shown.
Qed.

(** The pattern shared by the handlers that change a record: the call,
    the success notification and the reload, with the error notification
    for a failure of any of them. *)
Lemma change_run env (api : M Storage JsVal) g g' g'' succeeded failed st :
  try_catch
    (CommunicationPage.on_storage api;;
     CommunicationPage.on_toasts (showSuccess g (str succeeded) JsUndefined);;
     CommunicationPage.loadSubmissions env g')
    (fun err => CommunicationPage.on_toasts (showError g'' (str failed) JsUndefined))
    st =
  match api (CommunicationPage.storage st) with
  | (Ok _, s1, es) =>
      let st1 :=
        CommunicationPage.mkState s1
          (CommunicationPage.toasts st ++
           [spec_entry g (shown "complete" "Success" (str succeeded) JsUndefined)])
          (CommunicationPage.submissions st) (CommunicationPage.loading st)
          (CommunicationPage.status_filter st) in
      (Ok tt, state_after (CommunicationPage.loadSubmissions env g' st1),
       es ++ effects_of (CommunicationPage.loadSubmissions env g' st1))
  | (Throw _, s1, es) =>
      (Ok tt,
       CommunicationPage.mkState s1
         (CommunicationPage.toasts st ++
          [spec_entry g'' (shown "error" "Error" (str failed) JsUndefined)])
         (CommunicationPage.submissions st) (CommunicationPage.loading st)
         (CommunicationPage.status_filter st),
       es)
  end.
Proof.
  unfold try_catch, mbind, M_bind, Js.bind,
    CommunicationPage.on_storage, CommunicationPage.on_toasts, zoom.
  destruct (api (CommunicationPage.storage st)) as [[[response|t] s1] es].
  - rewrite showSuccess_run.
    cbn [CommunicationPage.storage CommunicationPage.toasts CommunicationPage.submissions
         CommunicationPage.loading CommunicationPage.status_filter fst snd].
    cbv zeta. rewrite loadSubmissions_run. cbv zeta. unfold state_after, effects_of.
    cbn [fst snd List.app]. reflexivity.
  - rewrite showError_run. cbn. now rewrite app_nil_r.
Qed.

Lemma change_is_reported env (api : M Storage JsVal) g g' g'' succeeded failed st :
  reported st (api (CommunicationPage.storage st))
    (try_catch
       (CommunicationPage.on_storage api;;
        CommunicationPage.on_toasts (showSuccess g (str succeeded) JsUndefined);;
        CommunicationPage.loadSubmissions env g')
       (fun err => CommunicationPage.on_toasts (showError g'' (str failed) JsUndefined))
       st)
    g g' g'' succeeded failed.
Proof.
  rewrite change_run. unfold reported.
  destruct (api (CommunicationPage.storage st)) as [[[response|t] s1] es].
  - cbv zeta. rewrite loadSubmissions_run. cbv zeta.
    unfold outcome, state_after, effects_of. cbn [fst snd].
    split; [reflexivity|].
    match goal with
    | |- context [records_of ?c] => destruct (records_of c) as [records|]
    end;
      cbn [CommunicationPage.loading CommunicationPage.toasts];
      (split; [reflexivity|]); eexists; eexists.
    + split; [reflexivity|]. split; [apply holds_shown | now left].
    + rewrite <- List.app_assoc. cbn [List.app].
      split; [reflexivity|]. split; [apply holds_shown|].
      right. eexists. split; [reflexivity | apply holds_shown].
  - unfold outcome, state_after, effects_of. cbn.
    split; [reflexivity|]. split; [reflexivity|].
    split; [reflexivity|]. split; [reflexivity|].
    eexists. split; [reflexivity | apply holds_shown].
Qed.

(** X25.  The handlers that change a record report what happened and
    never throw.  [handleStatusUpdate] and a confirmed [handleDelete]:
    when the call of the backend throws, nothing is reloaded, the list
    and the loading flag stay as they were, and exactly one error
    notification is appended (Failed to mark as followed by the status,
    or Failed to delete submission); when the call returns, a success
    notification is appended (Marked as followed by the status, or
    Submission deleted), the list is reloaded and the loading flag ends
    down, and the only notification that can follow is the one of a
    failed reload.  A [handleDelete] that is not confirmed does nothing
    at all. *)
Theorem change_of_a_record_is_reported env g g' g'' id status st :
  reported st (Api.communication_updateStatus env id status (CommunicationPage.storage st))
    (CommunicationPage.handleStatusUpdate env g g' g'' id status st)
    g g' g'' ("Marked as " +:+ status) ("Failed to mark as " +:+ status) /\
  reported st (Api.communication_delete env id (CommunicationPage.storage st))
    (CommunicationPage.handleDelete env true g g' g'' id st)
    g g' g'' "Submission deleted" "Failed to delete submission" /\
  CommunicationPage.handleDelete env false g g' g'' id st = (Ok tt, st, []).
Proof.
  split; [|split].
  - apply change_is_reported.
  - apply change_is_reported.
  - reflexivity.
Qed.

(** ** The counters of the communication page *)

Lemma count_status_has wanted records :
  List.forallb (fun r => negb (match r with JNull => true | _ => false end)) records = true ->
  CommunicationPage.count_status wanted records =
  Ok (Z.of_nat (List.length (List.filter (has_status wanted) records))).
Proof.
  induction records as [|r records IH]; [reflexivity|].
  intros H. simpl in H. apply andb_true_iff in H as [Hr H].
  cbn [CommunicationPage.count_status]. rewrite (IH H).
  assert (E : exists s, member (JsJson r) "status" = Ok s /\
                        has_status wanted r = strict_eq s (str wanted)).
  { unfold has_status. destruct r; try discriminate Hr; cbn [member];
      eexists; split; reflexivity. }
  destruct E as (s & -> & E). cbn [List.filter]. rewrite E.
  destruct (strict_eq s (str wanted)); cbn [List.length]; f_equal; lia.
Qed.

Lemma count_status_null wanted records :
  List.forallb (fun r => negb (match r with JNull => true | _ => false end)) records = false ->
  exists t, CommunicationPage.count_status wanted records = Throw t.
Proof.
  induction records as [|r records IH]; [discriminate|].
  intros H. simpl in H. cbn [CommunicationPage.count_status].
  destruct r; try (simpl in H; destruct (IH H) as (t & ->); cbn [member]; eauto).
  simpl. eauto.
Qed.

Lemma filter_statuses records a b c :
  a <> b -> a <> c -> b <> c ->
  (List.length (List.filter (has_status a) records) +
   List.length (List.filter (has_status b) records) +
   List.length (List.filter (has_status c) records) <= List.length records)%nat.
Proof.
  intros Hab Hac Hbc. induction records as [|r records IH]; [simpl; lia|].
  assert (X : forall x y, x <> y -> has_status x r = true -> has_status y r = false).
  { intros x y Hxy Hx. unfold has_status in *.
    destruct (member r "status") as [s|]; [|reflexivity].
    apply strict_eq_true in Hx. subst s. simpl.
    destruct (String.eqb_spec x y); [contradiction | reflexivity]. }
  simpl.
  destruct (has_status a r) eqn:Ea; destruct (has_status b r) eqn:Eb;
    destruct (has_status c r) eqn:Ec; simpl;
    try (rewrite (X a b Hab Ea) in Eb; discriminate Eb);
    try (rewrite (X a c Hac Ea) in Ec; discriminate Ec);
    try (rewrite (X b c Hbc Eb) in Ec; discriminate Ec);
    lia.
Qed.

(** X26.  The counters of the page: for a list of submissions none of
    which is null, [getStats] returns the length of the list as the total
    and, for each of the statuses new, done and dismissed, the number of
    records with that status; the three never add up to more than the
    total, and fall short of it by the records with any other status.  A
    list that holds a null makes it throw, as does a value that is not a
    list. *)
Theorem counters_partition_the_list (submissions : JsVal) :
  (forall records, submissions = JsJson (JArr records) ->
   List.forallb (fun r => negb (match r with JNull => true | _ => false end)) records = true ->
   exists stats,
     CommunicationPage.getStats submissions = Ok stats /\
     CommunicationPage.total stats = Z.of_nat (List.length records) /\
     CommunicationPage.new stats =
       Z.of_nat (List.length (List.filter (has_status "new") records)) /\
     CommunicationPage.done stats =
       Z.of_nat (List.length (List.filter (has_status "done") records)) /\
     CommunicationPage.dismissed stats =
       Z.of_nat (List.length (List.filter (has_status "dismissed") records)) /\
     0 <= CommunicationPage.new stats /\ 0 <= CommunicationPage.done stats /\
     0 <= CommunicationPage.dismissed stats /\
     CommunicationPage.new stats + CommunicationPage.done stats +
       CommunicationPage.dismissed stats <= CommunicationPage.total stats) /\
  (forall records, submissions = JsJson (JArr records) ->
   List.forallb (fun r => negb (match r with JNull => true | _ => false end)) records = false ->
   exists t, CommunicationPage.getStats submissions = Throw t) /\
  ((forall records, submissions <> JsJson (JArr records)) ->
   exists t, CommunicationPage.getStats submissions = Throw t).
Proof.
  split; [|split].
  - intros records -> H. unfold CommunicationPage.getStats.
    rewrite !(count_status_has _ _ H). eexists. split; [reflexivity|].
    cbn [CommunicationPage.total CommunicationPage.new CommunicationPage.done
         CommunicationPage.dismissed].
    pose proof (filter_statuses records "new" "done" "dismissed"
                  ltac:(discriminate) ltac:(discriminate) ltac:(discriminate)).
    repeat split; lia.
  - intros records -> H. unfold CommunicationPage.getStats.
    destruct (count_status_null "new" records H) as (t & ->). eauto.
  - intros H. destruct submissions as [|[]]; simpl; eauto.
    now contradiction (H xs).
Qed.

(** ** The knowledge base page *)

Lemma api_chatbotKnowledge_run method s :
  KnowledgeBasePage.api_chatbotKnowledge method s =
  (Throw (ThrownError "TypeError"
            ("Cannot read properties of undefined (reading '" +:+ method +:+ "')")),
   s, []).
Proof. reflexivity. Qed.

(** The read-through call of the page: a value of the cache, or the
    failure of the producer; never a request. *)
Lemma knowledge_call refuses forceRefresh s :
  let call :=
    cachedApiCall refuses knowledge_key (KnowledgeBasePage.api_chatbotKnowledge "getAll")
      forceRefresh s in
  state_after call = s /\
  List.existsb is_fetch (effects_of call) = false /\
  (forceRefresh = true \/ getCached knowledge_key s = JNull ->
   outcome call =
   Throw (ThrownError "TypeError" "Cannot read properties of undefined (reading 'getAll')")).
Proof.
  intros call. subst call.
  destruct forceRefresh.
  - rewrite cachedApiCall_force. unfold fetch_and_store.
    rewrite api_chatbotKnowledge_run. repeat split.
  - destruct (getCached knowledge_key s) eqn:G.
    1: { rewrite cachedApiCall_miss by exact G. unfold fetch_and_store.
         rewrite api_chatbotKnowledge_run. repeat split. }
    all: rewrite cachedApiCall_hit by (rewrite G; discriminate);
      (split; [reflexivity|]); (split; [reflexivity|]);
      intros [H|H]; discriminate H.
Qed.

Local Opaque cachedApiCall clearCached.

Lemma holds_failure generated fileName message :
  holds
    (spec_entry generated
       (list_to_map [("action", str "Error"); ("fileName", str fileName);
                     ("status", str "error"); ("message", str message)]))
    [("id", generated); ("status", "error"); ("action", "Error"); ("fileName", fileName);
     ("message", message)].
Proof.
  unfold holds, spec_entry.
  match goal with
  | |- context [?t ∪ defaults generated] =>
      change (t ∪ defaults generated) with (spread (defaults generated) t)
  end.
  repeat constructor; simpl; rewrite get_spread; reflexivity.
Qed.

Lemma loadAllCategories_run refuses generated forceRefresh st :
  let call :=
    cachedApiCall refuses knowledge_key (KnowledgeBasePage.api_chatbotKnowledge "getAll")
      forceRefresh (consulted forceRefresh st) in
  let x := KnowledgeBasePage.loadAllCategories refuses generated forceRefresh st in
  outcome x = Ok tt /\
  KnowledgeBasePage.loading (state_after x) = false /\
  KnowledgeBasePage.storage (state_after x) = consulted forceRefresh st /\
  effects_of x = effects_of call /\
  forall t, outcome call = Throw t ->
    KnowledgeBasePage.sectionContent (state_after x) = KnowledgeBasePage.sectionContent st /\
    KnowledgeBasePage.toasts (state_after x) =
      KnowledgeBasePage.toasts st ++
      [spec_entry generated
         (list_to_map
            [("action", str "Error"); ("fileName", str "Knowledge Base");
             ("status", str "error");
             ("message",
              str (KnowledgeBasePage.message_or t "Failed to load knowledge base"))])].
Proof.
  intros call x. subst call x.
  pose proof (knowledge_call refuses forceRefresh (consulted forceRefresh st)) as (Hs & _ & _).
  revert Hs. unfold consulted, knowledge_key.
  unfold KnowledgeBasePage.loadAllCategories.
  unfold finally, try_catch, KnowledgeBasePage.on_storage, KnowledgeBasePage.on_toasts,
    KnowledgeBasePage.setLoading, KnowledgeBasePage.setSectionContent.
  unfold zoom. unfold mbind, M_bind, mret, M_ret, Js.bind, Js.ret, modify, throw.
  unfold outcome, state_after, effects_of.
  destruct forceRefresh; rewrite ?clearCached_run;
    cbn [KnowledgeBasePage.storage KnowledgeBasePage.toasts KnowledgeBasePage.sectionContent
         KnowledgeBasePage.loading fst snd];
    match goal with
    | |- context [cachedApiCall ?q ?k ?p ?f ?s] =>
        destruct (cachedApiCall q k p f s) as [[[data|t] s1] es]
    end;
    cbn [fst snd]; intros ->.
  1, 3:
    destruct (member data "status") as [status|t];
      [destruct (strict_eq status (str "success"));
         [destruct (member data "categories") as [categories|t];
            [destruct (truthy categories);
               [destruct (KnowledgeBasePage.collect
                            (KnowledgeBasePage.entries categories) ∅) as [content|t]|]|]|]|];
    rewrite ?addToast_run; cbn; rewrite ?app_nil_r;
    (split; [reflexivity|]); (split; [reflexivity|]); (split; [reflexivity|]);
    (split; [reflexivity|]); intros t' Ht'; discriminate Ht'.
  all: rewrite addToast_run; cbn; rewrite ?app_nil_r;
    (split; [reflexivity|]); (split; [reflexivity|]); (split; [reflexivity|]);
    (split; [reflexivity|]); intros t' Ht'; injection Ht' as <-; split; reflexivity.
Qed.

(** What [handleSaveSection] does. *)
Lemma handleSaveSection_run generated generated' id newContent st :
  KnowledgeBasePage.handleSaveSection generated generated' id newContent st =
  (Throw (ThrownError "TypeError" "Cannot read properties of undefined (reading 'save')"),
   KnowledgeBasePage.mkState (KnowledgeBasePage.storage st)
     (KnowledgeBasePage.toasts st ++
      [spec_entry generated'
         (list_to_map
            [("action", str "Error"); ("fileName", str id); ("status", str "error");
             ("message", str "Cannot read properties of undefined (reading 'save')")])])
     (KnowledgeBasePage.sectionContent st) (KnowledgeBasePage.loading st),
   []).
Proof.
  unfold KnowledgeBasePage.handleSaveSection.
  unfold try_catch, KnowledgeBasePage.on_storage, KnowledgeBasePage.on_toasts.
  unfold zoom. unfold mbind, M_bind, mret, M_ret, Js.bind, Js.ret, modify, throw.
  rewrite api_chatbotKnowledge_run. cbn [fst snd KnowledgeBasePage.toasts].
  rewrite addToast_run. reflexivity.
Qed.

(** X27.  With the client of services/api.js, whose [api] object has no
    [chatbotKnowledge] member, the knowledge base page never reaches the
    backend.  [loadAllCategories] never throws, ends with the loading
    flag down and issues no request; when it consults the producer (the
    refresh is forced, or the cache holds no value for the page) the
    producer throws a [TypeError] before anything is sent, the content of
    the sections stays as it was, the cache holds no value for the page
    afterwards (a forced refresh has cleared it), and one error
    notification with the message of the [TypeError] is appended.
    [handleSaveSection] always throws that kind of error, after
    appending one error notification for the section; it issues no
    request, and leaves storage (the cache included) and the content of
    the sections as they were. *)
Theorem knowledge_page_never_reaches_the_backend
    refuses generated generated' forceRefresh id newContent st :
  let load := KnowledgeBasePage.loadAllCategories refuses generated forceRefresh st in
  let save := KnowledgeBasePage.handleSaveSection generated generated' id newContent st in
  outcome load = Ok tt /\
  KnowledgeBasePage.loading (state_after load) = false /\
  List.existsb is_fetch (effects_of load) = false /\
  (forceRefresh = true \/
   getCached knowledge_key (KnowledgeBasePage.storage st) = JNull ->
   KnowledgeBasePage.sectionContent (state_after load) = KnowledgeBasePage.sectionContent st /\
   getCached knowledge_key (KnowledgeBasePage.storage (state_after load)) = JNull /\
   exists entry,
     KnowledgeBasePage.toasts (state_after load) = KnowledgeBasePage.toasts st ++ [entry] /\
     holds entry
       [("id", generated); ("status", "error"); ("action", "Error");
        ("fileName", "Knowledge Base");
        ("message", "Cannot read properties of undefined (reading 'getAll')")]) /\
  (exists msg, outcome save = Throw (ThrownError "TypeError" msg)) /\
  effects_of save = [] /\
  KnowledgeBasePage.storage (state_after save) = KnowledgeBasePage.storage st /\
  KnowledgeBasePage.sectionContent (state_after save) = KnowledgeBasePage.sectionContent st /\
  exists entry,
    KnowledgeBasePage.toasts (state_after save) = KnowledgeBasePage.toasts st ++ [entry] /\
    holds entry
      [("id", generated'); ("status", "error"); ("action", "Error"); ("fileName", id);
       ("message", "Cannot read properties of undefined (reading 'save')")].
Proof.
  intros load save. subst load save.
  destruct (loadAllCategories_run refuses generated forceRefresh st)
    as (L1 & L2 & L3 & L4 & L5).
  destruct (knowledge_call refuses forceRefresh (consulted forceRefresh st)) as (_ & K2 & K3).
  split; [exact L1|]. split; [exact L2|]. split; [now rewrite L4|].
  split.
  - intros Hcase.
    assert (Hmiss : forceRefresh = true \/
                    getCached knowledge_key (consulted forceRefresh st) = JNull).
    { destruct forceRefresh; [now left | right]. destruct Hcase as [H|H]; [discriminate H|].
      exact H. }
    destruct (L5 _ (K3 Hmiss)) as (C & T).
    split; [exact C|]. split.
    + rewrite L3. unfold consulted. destruct forceRefresh.
      * apply getCached_clearCached.
      * destruct Hcase as [H|H]; [discriminate H | exact H].
    + eexists. split; [exact T|]. apply holds_failure.
  - rewrite handleSaveSection_run. unfold outcome, effects_of, state_after. cbn.
    split; [eauto|]. split; [reflexivity|]. split; [reflexivity|]. split; [reflexivity|].
    eexists. split; [reflexivity|]. apply holds_failure.
Qed.

Local Transparent cachedApiCall clearCached.

(** ** The password form *)

Lemma trimStart_spaces s : only_spaces s = true -> UserSettings.trimStart s = EmptyString.
Proof.
  induction s as [|c s IH]; [reflexivity|]. simpl. intros H.
  apply andb_true_iff in H as [Hc Hs]. rewrite Hc. now apply IH.
Qed.

Lemma trimStart_text s :
  only_spaces s = false ->
  exists c rest, UserSettings.trimStart s = String c rest /\ UserSettings.is_space c = false.
Proof.
  induction s as [|c s IH]; [discriminate|]. simpl. intros H.
  destruct (UserSettings.is_space c) eqn:Hc; [now apply IH|]. eauto.
Qed.

Lemma trimEnd_text c rest :
  UserSettings.is_space c = false -> UserSettings.trimEnd (String c rest) <> EmptyString.
Proof.
  intros Hc. simpl. destruct (UserSettings.trimEnd rest); [rewrite Hc|]; discriminate.
Qed.

(** A text trims to the empty text exactly when it holds white space
    only. *)
Lemma trim_empty s : String.eqb (UserSettings.trim s) "" = only_spaces s.
Proof.
  unfold UserSettings.trim. destruct (only_spaces s) eqn:H.
  - now rewrite trimStart_spaces.
  - destruct (trimStart_text s H) as (c & rest & -> & Hc).
    apply String.eqb_neq. now apply trimEnd_text.
Qed.

Lemma blank_spec form field :
  UserSettings.blank form field =
  match form !! field with
  | Some v => only_spaces v
  | None => true
  end.
Proof.
  unfold UserSettings.blank. destruct (form !! field) as [v|]; [|reflexivity].
  rewrite trim_empty. destruct v; reflexivity.
Qed.

(** The checks find nothing exactly on an acceptable form. *)
Lemma validate_spec form : UserSettings.validate form = ∅ <-> acceptable form.
Proof.
  unfold UserSettings.validate, acceptable. rewrite !blank_spec.
  destruct (form !! "currentPassword") as [current|] eqn:E1;
    destruct (form !! "newPassword") as [new|] eqn:E2;
    destruct (form !! "confirmPassword") as [confirm|] eqn:E3; simpl.
  all: try destruct (only_spaces current) eqn:S1;
    try destruct (only_spaces new) eqn:S2;
    try destruct (only_spaces confirm) eqn:S3;
    try destruct (Nat.ltb_spec (String.length new) 6) as [L|L];
    try destruct (String.eqb_spec new confirm) as [Q|Q]; simpl.
  all: split;
    [ intros H;
      try (exfalso; revert H;
           repeat (match goal with
                   | |- <[_ := _]> _ = ∅ -> False => apply insert_non_empty
                   end); fail)
    | intros (c & n & H1 & H2 & H3 & H4 & H5 & H6);
      try discriminate;
      repeat match goal with
             | H : Some _ = Some _ |- _ => injection H as H; subst
             end;
      try congruence; try lia ].
  all: try (subst; exists current, confirm; repeat split; assumption).
  all: try reflexivity.
Qed.

Local Opaque UserSettings.validate.

(** X28.  [handlePasswordUpdate] never throws, and submits the form exactly
    when it is acceptable: the current password is not blank, the new
    password is not blank and has at least six characters, and the
    confirmation equals the new password.  For an acceptable form it
    waits one second, appends one success notification, closes and
    empties the form, clears the errors and ends with the loading flag
    down.  For any other form it waits for nothing, shows no
    notification, leaves the form data and the flags as they were, and
    sets the errors to the findings of the checks, of which there is at
    least one. *)
Theorem password_form_is_validated generated generated' st :
  let x := UserSettings.handlePasswordUpdate generated generated' st in
  outcome x = Ok tt /\
  (acceptable (UserSettings.formData st) ->
   effects_of x = [SetTimeout 1000 1000] /\
   UserSettings.formData (state_after x) = UserSettings.emptyForm /\
   UserSettings.errors (state_after x) = ∅ /\
   UserSettings.isLoading (state_after x) = false /\
   UserSettings.showPasswordForm (state_after x) = false /\
   exists entry,
     UserSettings.toasts (state_after x) = UserSettings.toasts st ++ [entry] /\
     holds entry [("id", generated); ("status", "complete"); ("title", "Success");
                  ("message", "Password updated successfully")]) /\
  (~ acceptable (UserSettings.formData st) ->
   effects_of x = [] /\
   UserSettings.toasts (state_after x) = UserSettings.toasts st /\
   UserSettings.formData (state_after x) = UserSettings.formData st /\
   UserSettings.isLoading (state_after x) = UserSettings.isLoading st /\
   UserSettings.showPasswordForm (state_after x) = UserSettings.showPasswordForm st /\
   UserSettings.errors (state_after x) = UserSettings.validate (UserSettings.formData st) /\
   UserSettings.errors (state_after x) <> ∅).
Proof.
  intros x. subst x.
  pose proof (validate_spec (UserSettings.formData st)) as V.
  unfold UserSettings.handlePasswordUpdate.
  unfold finally, try_catch, UserSettings.on_toasts, UserSettings.setErrors,
    UserSettings.setIsLoading, UserSettings.setFormData, UserSettings.setShowPasswordForm.
  unfold zoom. unfold mbind, M_bind, mret, M_ret, Js.bind, Js.ret, modify, gets, emit.
  unfold outcome, state_after, effects_of.
  destruct (Nat.eqb_spec (size (UserSettings.validate (UserSettings.formData st))) 0)
    as [Z|Z]; cbn [negb fst snd].
  - apply map_size_empty_iff in Z.
    rewrite showSuccess_run.
    cbn [UserSettings.toasts UserSettings.formData UserSettings.errors
         UserSettings.isLoading UserSettings.showPasswordForm fst snd List.app].
    split; [reflexivity|]. split.
    + intros _. repeat (split; [reflexivity|]).
      eexists. split; [reflexivity | apply holds_shown].
    + intros N. exfalso. apply N. now apply V.
  - assert (N : UserSettings.validate (UserSettings.formData st) <> ∅).
    { intros E. apply Z. now rewrite E. }
    cbn [UserSettings.toasts UserSettings.formData UserSettings.errors
         UserSettings.isLoading UserSettings.showPasswordForm fst snd].
    split; [reflexivity|]. split.
    + intros A. exfalso. apply N. now apply V.
    + intros _. repeat (split; [reflexivity|]). exact N.
Qed.

Local Transparent UserSettings.validate.

Lemma password_form_is_validated_witness :
  let st :=
    UserSettings.mkState []
      (list_to_map [("currentPassword", "old pass"); ("newPassword", "n3w pass");
                    ("confirmPassword", "n3w pass")]) ∅ false true in
  let x := UserSettings.handlePasswordUpdate "g" "h" st in
  UserSettings.formData (state_after x) = UserSettings.emptyForm /\
  UserSettings.showPasswordForm (state_after x) = false.
Proof.
  intros st x.
  assert (A : acceptable (UserSettings.formData st)).
  { exists "old pass", "n3w pass". repeat split; try reflexivity. simpl. lia. }
  destruct (password_form_is_validated "g" "h" st) as (_ & H & _).
  destruct (H A) as (_ & H2 & _ & _ & H5 & _).
  split; [exact H2 | exact H5].
Defined.

Local Transparent showError showSuccess addToast.
Local Transparent communication_getAll communication_updateStatus communication_delete.

(** ** The modals of the application context *)

(** X29.  [showModal] returns the id of the entry it appends, whatever the
    argument: the entry is the argument with its [id] set to the current
    time, an [id] of the argument included.  [closeModal] with the
    returned id gives back the list as it was when no modal in it has
    that id; and two modals shown within the same millisecond share their
    id and are closed together. *)
Theorem showModal_returns_the_id_of_its_entry now (modal modal' : Obj) q :
  let shown := AppContext.showModal now modal q in
  let id := JsJson (JNum now) in
  outcome shown = Ok id /\
  effects_of shown = [] /\
  (exists entry,
     state_after shown = q ++ [entry] /\
     get entry "id" = id /\
     forall k, k <> "id" -> entry !! k = modal !! k) /\
  (count_id id q = 0%nat ->
   state_after (AppContext.closeModal id (state_after shown)) = q /\
   state_after
     (AppContext.closeModal id
        (state_after (AppContext.showModal now modal' (state_after shown)))) = q).
Proof.
  intros shown id. subst shown id.
  unfold AppContext.showModal. run_m.
  split; [reflexivity|]. split; [reflexivity|]. split.
  - eexists. split; [reflexivity|]. split.
    + rewrite get_spread. reflexivity.
    + intros k Hk. unfold spread. rewrite lookup_union.
      change (list_to_map [("id", JsJson (JNum now))] : Obj)
        with (<["id" := JsJson (JNum now)]> (∅ : Obj)).
      rewrite lookup_insert_ne by congruence. rewrite lookup_empty.
      now destruct (modal !! k).
  - intros Hc.
    assert (E : forall m : Obj,
               strict_eq (get (spread m (list_to_map [("id", JsJson (JNum now))])) "id")
                 (JsJson (JNum now)) = true).
    { intros m. rewrite get_spread. simpl. apply Z.eqb_refl. }
    unfold AppContext.closeModal. run_m.
    fold (spec_remove (JsJson (JNum now))).
    split.
    + apply spec_remove_last; [exact Hc | apply E].
    + rewrite <- List.app_assoc. unfold spec_remove. rewrite List.filter_app.
      simpl. rewrite !E. simpl. rewrite app_nil_r.
      now apply spec_remove_absent.
Qed.
